(** * A shallow embedding of the shell's line editor (src/main.cpp)

    The development follows the source file top-down:
    - [Str]        : the [std::string] operations the editor relies on;
    - [Completion] : [commands], [find_completion] and [test];
    - [Editor]     : the key handlers and the loop of [readline];
    - [Shell]      : [get_history] and the first steps of a pass of [main];
    - [Text]       : further library functions ([find], [getline], [stoll]);
    - [Builtins]   : the built-in commands, the dispatch and the loop of
                     [main];
    - [Terminal]   : the terminal line that [readline] keeps up to date.

    Conventions.  [int] and [size_t] values (cursor, history index, lengths)
    are integers in [Z]: strings and the history are taken to be shorter
    than 2^31, so that the casts between [size_t] and [int] keep the value.
    A [size_t] argument that receives a negative [int] is out of range for
    every string, so the checked [std::string] members ([substr], [erase],
    [insert]) fail on it exactly as they do on a position past the end.
    The [char] read from [_getch] is the signed 8-bit truncation of the
    returned [int] ([to_char]).  An uncaught [std::out_of_range] or an
    unchecked out-of-bounds [operator[]] is a failure ([None]). *)

From Stdlib Require Import ZArith List String Ascii Bool Lia DecimalString.
Import ListNotations.

Local Open Scope string_scope.

(** ** Failure monad used by the fallible operations *)

Definition bind {A B : Type} (m : option A) (k : A -> option B) : option B :=
  match m with
  | Some a => k a
  | None => None
  end.

Notation "x <- m ;; k" := (bind m (fun x => k))
  (at level 61, m at next level, right associativity).

(** ** std::string *)

Module Str.

(** [s.length()] as an integer. *)
Definition size (s : string) : Z := Z.of_nat (String.length s).

Definition empty (s : string) : bool :=
  match s with
  | EmptyString => true
  | String _ _ => false
  end.

(** The first [n] characters (all of [s] when it is shorter):
    [s.substr(0, n)]. *)
Fixpoint take (n : nat) (s : string) : string :=
  match n, s with
  | S n', String a s' => String a (take n' s')
  | _, _ => EmptyString
  end.

(** What is left after the first [n] characters. *)
Fixpoint drop (n : nat) (s : string) : string :=
  match n, s with
  | S n', String _ s' => drop n' s'
  | _, _ => s
  end.

(** A position is usable by the checked members when it lies in
    [0 .. size]. *)
Definition in_range (s : string) (pos : Z) : bool :=
  (0 <=? pos)%Z && (pos <=? size s)%Z.

(** [s.substr(pos)]; throws when [pos > size]. *)
Definition substr_from (s : string) (pos : Z) : option string :=
  if in_range s pos then Some (drop (Z.to_nat pos) s) else None.

(** [s.erase(pos, 1)]; throws when [pos > size]. *)
Definition erase1 (s : string) (pos : Z) : option string :=
  if in_range s pos
  then Some (take (Z.to_nat pos) s ++ drop (S (Z.to_nat pos)) s)
  else None.

(** [s.insert(pos, 1, ch)]; throws when [pos > size]. *)
Definition insert1 (s : string) (pos : Z) (ch : ascii) : option string :=
  if in_range s pos
  then Some (take (Z.to_nat pos) s ++ String ch (drop (Z.to_nat pos) s))
  else None.

(** [s[i]]; unchecked in the source, hence a failure out of bounds. *)
Definition at_ (s : string) (i : Z) : option ascii :=
  if (0 <=? i)%Z then String.get (Z.to_nat i) s else None.

(** [s.rfind(c)]: index of the last occurrence, [None] for [npos]. *)
Fixpoint rfind (c : ascii) (s : string) : option nat :=
  match s with
  | EmptyString => None
  | String a s' =>
      match rfind c s' with
      | Some i => Some (S i)
      | None => if Ascii.eqb a c then Some O else None
      end
  end.

(** [s.find(c)]: index of the first occurrence. *)
Fixpoint find (c : ascii) (s : string) : option nat :=
  match s with
  | EmptyString => None
  | String a s' =>
      if Ascii.eqb a c then Some O
      else match find c s' with
           | Some i => Some (S i)
           | None => None
           end
  end.

(** [c] occurs in [s]. *)
Fixpoint mem (c : ascii) (s : string) : bool :=
  match s with
  | EmptyString => false
  | String a s' => Ascii.eqb a c || mem c s'
  end.

(** [s.find_first_not_of(set)]. *)
Fixpoint find_first_not_of (set : string) (s : string) : option nat :=
  match s with
  | EmptyString => None
  | String a s' =>
      if mem a set
      then match find_first_not_of set s' with
           | Some i => Some (S i)
           | None => None
           end
      else Some O
  end.

(** [s.find_last_not_of(set)]. *)
Fixpoint find_last_not_of (set : string) (s : string) : option nat :=
  match s with
  | EmptyString => None
  | String a s' =>
      match find_last_not_of set s' with
      | Some i => Some (S i)
      | None => if mem a set then None else Some O
      end
  end.

(** [s.c_str()] read back as a C string: everything before the first
    NUL byte. *)
Fixpoint c_str (s : string) : string :=
  match s with
  | EmptyString => EmptyString
  | String a s' => if Ascii.eqb a zero then EmptyString else String a (c_str s')
  end.

End Str.

(** ** Tab completion: [commands], [find_completion], [test] *)

Module Completion.

(** The global list of built-in commands. *)
Definition commands : list string :=
  ["history"; "cat"; "ls"; "echo"; "type"; "exit"; "pwd"; "cd"].

(** [cmd.substr(0, partial.length()) == partial]. *)
Definition has_prefix (cmd partial : string) : bool :=
  String.eqb (Str.take (String.length partial) cmd) partial.

(** [entry->d_name[0] == '.'] *)
Definition hidden (name : string) : bool :=
  match name with
  | String a _ => Ascii.eqb a "."
  | EmptyString => false
  end.

(** The [readdir] loop: hidden entries are skipped, the others are kept
    when they start with [partial]. *)
Fixpoint scan_dir (partial : string) (entries : list string) : list string :=
  match entries with
  | [] => []
  | name :: rest =>
      if hidden name then scan_dir partial rest
      else if has_prefix name partial then name :: scan_dir partial rest
      else scan_dir partial rest
  end.

(** The first loop of [find_completion], over [commands]. *)
Definition scan_commands (partial : string) : list string :=
  filter (fun cmd => has_prefix cmd partial) commands.

(** [find_completion].  The current directory is the argument [cwd]:
    [None] when [opendir] fails, otherwise the names [readdir] yields,
    in its order. *)
Definition find_completion (cwd : option (list string)) (partial : string)
  : list string :=
  let results := scan_commands partial in
  match results with
  | _ :: _ => results
  | [] =>
      match cwd with
      | None => []
      | Some entries =>
          let contents := scan_dir partial entries in
          match contents with
          | _ :: _ => contents
          | [] => []
          end
      end
  end.

(** [test]: the counting loop. *)
Definition test (completion : list string) (word_to_complete : string) : Z :=
  fold_left
    (fun cnt cmd => if has_prefix cmd word_to_complete then (cnt + 1)%Z else cnt)
    completion 0%Z.

End Completion.

(** ** The line editor: [readline] *)

Module Editor.

Import Str Completion.

(** What [readline] sends to the terminal: one [Write] per [cout <<]
    of a string or character, [Beep] for [MessageBeep]. *)
Inductive term_event : Type :=
| Write (text : string)
| Beep.

(** The character constants printed by the editor: backspace,
    newline ([endl]) and the erase sequence backspace-space-backspace. *)
Definition BS : string := String (ascii_of_nat 8) EmptyString.
Definition NL : string := String (ascii_of_nat 10) EmptyString.
Definition RUBOUT : string := BS ++ " " ++ BS.

(** The locals of [readline], together with the output produced so far. *)
Record state : Type := mkState {
  line : string;
  cursor_pos : Z;
  history_index : Z;
  current_line_backup : string;
  lst : Z;
  screen : list term_event
}.

(** The locals at the top of [readline].  [lst] is declared without an
    initialiser, so its first value [lst0] is arbitrary. *)
Definition initial (lst0 : Z) : state :=
  mkState "" 0 (-1) "" lst0 [].

Definition emit (st : state) (evs : list term_event) : state :=
  mkState (line st) (cursor_pos st) (history_index st)
          (current_line_backup st) (lst st) (screen st ++ evs)%list.

Definition set_line (st : state) (l : string) (c : Z) : state :=
  mkState l c (history_index st) (current_line_backup st) (lst st) (screen st).

Definition set_cursor (st : state) (c : Z) : state :=
  mkState (line st) c (history_index st) (current_line_backup st)
          (lst st) (screen st).

Definition set_lst (st : state) (ch : Z) : state :=
  mkState (line st) (cursor_pos st) (history_index st)
          (current_line_backup st) ch (screen st).

(** [(char) _getch()]: the low 8 bits, read as a signed char. *)
Definition to_char (k : Z) : Z := ((k + 128) mod 256 - 128)%Z.

(** The byte stored in the string for the char value [ch]. *)
Definition char_byte (ch : Z) : ascii := ascii_of_N (Z.to_N (ch mod 256)).

(** [history[i]], unchecked in the source. *)
Definition vec_at (v : list string) (i : Z) : option string :=
  if (0 <=? i)%Z then nth_error v (Z.to_nat i) else None.

(** *** Backspace (lines 155-173) *)
Definition backspace (st : state) : option state :=
  if negb (empty (line st)) && (0 <? cursor_pos st)%Z then
    line' <- erase1 (line st) (cursor_pos st - 1) ;;
    let cursor' := (cursor_pos st - 1)%Z in
    remaining <- substr_from line' cursor' ;;
    Some (emit (set_line st line' cursor')
               ([Write BS; Write remaining; Write " "]
                ++ repeat (Write BS) (String.length remaining + 1))%list)
  else Some st.

(** *** Tab (lines 174-229) *)

(** The word handed to [find_completion] (lines 176-185). *)
Definition word_to_complete (l : string) : option string :=
  match rfind " " l with
  | None => Some l
  | Some space_pos => substr_from l (Z.of_nat space_pos + 1)
  end.

(** The guard of the [else if] at line 206. *)
Definition unique_match (completion : list string) (word : string) : bool :=
  negb (match completion with [] => true | _ => false end)
  && (test completion word =? 1)%Z.

(** The four ways out of the [if]/[else if]/[else] chain of the Tab
    handler (lines 187-228). *)
Inductive tab_branch : Type :=
| ListCandidates   (* lst == '\t' and more than one candidate *)
| DoNothing        (* lst == '\t' otherwise *)
| ReplaceWord      (* the unique-completion branch *)
| RingBell.        (* the final else *)

Definition tab_dispatch (lst_ : Z) (completion : list string) (word : string)
  : tab_branch :=
  if (lst_ =? 9)%Z then
    if (1 <? Z.of_nat (List.length completion))%Z then ListCandidates
    else DoNothing
  else if unique_match completion word then ReplaceWord
  else RingBell.

Definition tab (cwd : option (list string)) (st : state) : option state :=
  let space_pos := rfind " " (line st) in
  word <- word_to_complete (line st) ;;
  let completion := find_completion cwd word in
  match tab_dispatch (lst st) completion word with
  | ListCandidates =>
      Some (emit st
              ([Write NL]
               ++ flat_map (fun cmd => [Write cmd; Write "    "]) completion
               ++ [Write NL; Write "$ "; Write (line st)]
               ++ repeat (Write BS) (Z.to_nat (size (line st) - cursor_pos st)))%list)
  | DoNothing => Some st
  | ReplaceWord =>
      first <- nth_error completion 0 ;;
      let line' :=
        match space_pos with
        | None => first
        | Some p => take (S p) (line st) ++ first
        end in
      Some (emit (set_line st line' (size line'))
              (repeat (Write RUBOUT) (String.length (line st))
               ++ [Write line'])%list)
  | RingBell => Some (emit st [Beep])
  end.

(** *** Up arrow (lines 233-271) *)
Definition up (history : list string) (st : state) : option state :=
  match history with
  | [] => Some st
  | _ :: _ =>
      let '(backup, index) :=
        if (history_index st =? -1)%Z
        then (line st, (Z.of_nat (List.length history) - 1)%Z)
        else if (0 <? history_index st)%Z
             then (current_line_backup st, (history_index st - 1)%Z)
             else (current_line_backup st, history_index st) in
      item <- vec_at history index ;;
      Some (mkState item (size item) index backup (lst st)
              (screen st
               ++ repeat (Write BS) (Z.to_nat (cursor_pos st))
               ++ repeat (Write " ") (String.length (line st))
               ++ repeat (Write BS) (String.length (line st))
               ++ [Write item])%list)
  end.

(** *** Down arrow (lines 272-312) *)
Definition down (history : list string) (st : state) : option state :=
  if negb (history_index st =? -1)%Z then
    let old_line_length := String.length (line st) in
    r <- (if (history_index st <? Z.of_nat (List.length history) - 1)%Z
          then item <- vec_at history (history_index st + 1) ;;
               Some ((history_index st + 1)%Z, item)
          else Some ((-1)%Z, current_line_backup st)) ;;
    let '(index, line') := r in
    Some (mkState line' (size line') index (current_line_backup st) (lst st)
            (screen st
             ++ repeat (Write BS) (Z.to_nat (cursor_pos st))
             ++ repeat (Write " ") old_line_length
             ++ repeat (Write BS) old_line_length
             ++ [Write line'])%list)
  else Some st.

(** *** Left and right arrows (lines 313-328) *)
Definition left (st : state) : option state :=
  if (0 <? cursor_pos st)%Z
  then Some (emit (set_cursor st (cursor_pos st - 1)) [Write BS])
  else Some st.

Definition right (st : state) : option state :=
  if (cursor_pos st <? size (line st))%Z then
    let cursor' := (cursor_pos st + 1)%Z in
    c <- at_ (line st) (cursor' - 1) ;;
    Some (emit (set_cursor st cursor') [Write (String c EmptyString)])
  else Some st.

(** *** Delete (lines 329-345) *)
Definition delete (st : state) : option state :=
  if negb (empty (line st)) && (cursor_pos st <? size (line st))%Z then
    line' <- erase1 (line st) (cursor_pos st) ;;
    remaining <- substr_from line' (cursor_pos st) ;;
    Some (emit (set_line st line' (cursor_pos st))
               ([Write remaining; Write " "]
                ++ repeat (Write BS) (String.length remaining + 1))%list)
  else Some st.

(** *** Printable characters (lines 347-362) *)
Definition insert_char (ch : Z) (st : state) : option state :=
  line' <- insert1 (line st) (cursor_pos st) (char_byte ch) ;;
  let cursor' := (cursor_pos st + 1)%Z in
  remaining <- substr_from line' (cursor' - 1) ;;
  Some (emit (set_line st line' cursor')
             ([Write remaining]
              ++ repeat (Write BS) (String.length remaining - 1))%list).

(** *** The loop of [readline] *)

(** One pass through the body of [while (true)], on the keys still to
    come from [_getch]. *)
Inductive outcome : Type :=
| Next (st : state) (rest : list Z)     (* back to the top of the loop *)
| Returned (result : string) (st : state)  (* Enter: leave the loop *)
| Exited (code : Z)                     (* Ctrl+D: exit(1) *)
| Waiting (st : state)                  (* _getch has nothing to deliver *)
| Crashed.                              (* exception or invalid access *)

(** The tail of the body: [lst = ch;] and around again. *)
Definition continue (r : option state) (ch : Z) (rest : list Z) : outcome :=
  match r with
  | Some st => Next (set_lst st ch) rest
  | None => Crashed
  end.

Definition readline_body (cwd : option (list string)) (history : list string)
           (st : state) (input : list Z) : outcome :=
  match input with
  | [] => Waiting st
  | k :: rest =>
      let ch := to_char k in
      if (ch =? 13)%Z then
        Returned (c_str (line st)) (emit st [Write NL])
      else if (ch =? 8)%Z || (ch =? 127)%Z then
        continue (backspace st) ch rest
      else if (ch =? 9)%Z then
        continue (tab cwd st) ch rest
      else if (ch =? -32)%Z || (ch =? 224)%Z then
        match rest with
        | [] => Waiting st
        | k2 :: rest2 =>
            let ch := to_char k2 in
            continue
              (if (ch =? 72)%Z then up history st
               else if (ch =? 80)%Z then down history st
               else if (ch =? 75)%Z then left st
               else if (ch =? 77)%Z then right st
               else if (ch =? 83)%Z then delete st
               else Some st)
              ch rest2
        end
      else if (32 <=? ch)%Z && (ch <=? 126)%Z then
        continue (insert_char ch st) ch rest
      else if (ch =? 4)%Z then
        Exited 1
      else
        continue (Some st) ch rest
  end.

(** The loop itself, for at most [fuel] passes: when they are used up the
    result is [Next], the loop being about to start another pass.  Every
    pass that continues consumes at least one key, so an input of [n] keys
    needs no more than [n + 1] passes, which is what [readline] supplies
    (see [readline_safe]: its result is never [Next]). *)
Fixpoint readline_loop (fuel : nat) (cwd : option (list string))
         (history : list string) (st : state) (input : list Z) : outcome :=
  match fuel with
  | O => Next st input
  | S fuel' =>
      match readline_body cwd history st input with
      | Next st' rest => readline_loop fuel' cwd history st' rest
      | o => o
      end
  end.

Definition readline (cwd : option (list string)) (history : list string)
           (lst0 : Z) (input : list Z) : outcome :=
  readline_loop (S (List.length input)) cwd history (initial lst0) input.

End Editor.

(** ** The history path of [main] *)

Module Shell.

Import Str.

(** The set [" \t"] used by the two trimming calls. *)
Definition blanks : string := String " " (String (ascii_of_nat 9) EmptyString).

(** Lines 894-895: [input.erase(0, input.find_first_not_of(" \t"))]
    followed by [input.erase(input.find_last_not_of(" \t") + 1)].
    With [npos] the first call erases everything and the second erases
    from position [npos + 1 = 0]. *)
Definition trim (input : string) : string :=
  let input :=
    match find_first_not_of blanks input with
    | Some n => drop n input
    | None => EmptyString
    end in
  match find_last_not_of blanks input with
  | Some n => take (S n) input
  | None => take 0 input
  end.

(** Line 899: [input.substr(0, input.find(" "))]. *)
Definition command_of (input : string) : string :=
  match find " " input with
  | Some n => take n input
  | None => input
  end.

(** [get_history] (lines 811-829): the lines of history.txt that are not
    empty, in file order; nothing when the file cannot be opened. *)
Definition get_history (file : option (list string)) : list string :=
  match file with
  | None => []
  | Some lines => filter (fun l => negb (empty l)) lines
  end.

End Shell.

(** ** The properties the editor is expected to keep *)

Module Props.

Import Str Editor Shell.

(** The cursor lies within the buffer. *)
Definition cursor_ok (st : state) : Prop :=
  (0 <= cursor_pos st <= size (line st))%Z.

(** [history_index] is -1 (not navigating) or an index of [history]. *)
Definition nav_ok (history : list string) (st : state) : Prop :=
  (-1 <= history_index st < Z.of_nat (List.length history))%Z.

(** The word to complete as the specification words it: the part of the
    buffer after the last space found before the cursor, the whole
    buffer when no space precedes the cursor. *)
Definition claimed_word (buffer : string) (cursor : Z) : string :=
  match rfind " " (take (Z.to_nat cursor) buffer) with
  | Some space_pos => drop (S space_pos) buffer
  | None => buffer
  end.

(** The string made of the bytes of the given key codes. *)
Fixpoint typed (keys : list Z) : string :=
  match keys with
  | [] => ""
  | k :: rest => String (char_byte (to_char k)) (typed rest)
  end.

End Props.

(** ** More of [std::string] and the C++ library, for the built-ins *)

Module Text.

Import Str.

(** The characters that cannot be written inside a literal here. *)
Definition dquote : ascii := ascii_of_nat 34.
Definition backslash : ascii := ascii_of_nat 92.
Definition newline : ascii := ascii_of_nat 10.

(** [s.find(pat)] for a string pattern: index of the first occurrence,
    [None] for [npos]. *)
Fixpoint find_str (pat s : string) : option nat :=
  if prefix pat s then Some O
  else match s with
       | EmptyString => None
       | String _ s' =>
           match find_str pat s' with
           | Some i => Some (S i)
           | None => None
           end
       end.

(** [s.find(pat) != string::npos]. *)
Definition contains (pat s : string) : bool :=
  match find_str pat s with
  | Some _ => true
  | None => false
  end.

(** The splitting loop of [found2] and [cat]: [cur] collects characters,
    each separator pushes [cur] and clears it, and what is left in [cur]
    after the loop is pushed as well. *)
Fixpoint split_loop (sep : ascii) (s cur : string) (parts : list string)
  : list string :=
  match s with
  | EmptyString => (parts ++ [cur])%list
  | String c s' =>
      if Ascii.eqb c sep
      then split_loop sep s' "" (parts ++ [cur])%list
      else split_loop sep s' (cur ++ String c "") parts
  end.

Definition split (sep : ascii) (s : string) : list string :=
  split_loop sep s "" [].

(** The loop [while (getline(stream, line))] on a stream holding [text]:
    [line] collects characters up to the next newline; at the end of the
    text a last line is delivered only if characters were read for it. *)
Fixpoint getlines_loop (text line : string) (fresh : bool) : list string :=
  match text with
  | EmptyString => if fresh then [] else [line]
  | String c text' =>
      if Ascii.eqb c newline
      then line :: getlines_loop text' "" true
      else getlines_loop text' (line ++ String c "") false
  end.

Definition getlines (text : string) : list string :=
  getlines_loop text "" true.

(** [std::stoll(s)]: white space is skipped, then an optional sign and
    the longest run of decimal digits are read; what follows is ignored. *)
Inductive stoll_result : Type :=
| Parsed (value : Z)
| InvalidArgument          (* std::invalid_argument: no digit *)
| OutOfRange.              (* std::out_of_range: not a long long *)

(** [isspace] in the C locale. *)
Definition isspace (c : ascii) : bool :=
  let n := nat_of_ascii c in
  Nat.eqb n 32 || (Nat.leb 9 n && Nat.leb n 13).

Fixpoint skip_spaces (s : string) : string :=
  match s with
  | String c s' => if isspace c then skip_spaces s' else s
  | EmptyString => s
  end.

Definition digit_value (c : ascii) : option Z :=
  let n := nat_of_ascii c in
  if Nat.leb 48 n && Nat.leb n 57 then Some (Z.of_nat (n - 48)) else None.

(** The digits at the front of [s], accumulated onto [acc]. *)
Fixpoint read_digits (s : string) (acc : Z) : Z :=
  match s with
  | String c s' =>
      match digit_value c with
      | Some d => read_digits s' (10 * acc + d)
      | None => acc
      end
  | EmptyString => acc
  end.

Definition starts_with_digit (s : string) : bool :=
  match s with
  | String c _ => match digit_value c with Some _ => true | None => false end
  | EmptyString => false
  end.

Definition stoll (s : string) : stoll_result :=
  let s1 := skip_spaces s in
  let '(negative, s2) :=
    match s1 with
    | String c r =>
        if Ascii.eqb c "-" then (true, r)
        else if Ascii.eqb c "+" then (false, r)
        else (false, s1)
    | EmptyString => (false, s1)
    end in
  if starts_with_digit s2 then
    let magnitude := read_digits s2 0 in
    let value := if negative then (- magnitude)%Z else magnitude in
    if ((- 2 ^ 63 <=? value) && (value <=? 2 ^ 63 - 1))%Z
    then Parsed value
    else OutOfRange
  else InvalidArgument.

(** Conversion of a [long long] to [int]: the low 32 bits, signed. *)
Definition to_int (v : Z) : Z := ((v + 2 ^ 31) mod 2 ^ 32 - 2 ^ 31)%Z.

(** [cout << n] for an [int]. *)
Definition decimal (n : Z) : string :=
  DecimalString.NilZero.string_of_int (Z.to_int n).

End Text.

(** ** The built-in commands and the dispatch of [main] *)

Module Builtins.

Import Str Text Completion Shell.

(** What a command can observe of the machine while it runs. *)
Record world : Type := mkWorld {
  dir_entries : string -> option (list string);  (* opendir and readdir *)
  file_text : string -> option string;           (* ifstream: the text, if it opens *)
  writable : string -> bool;                     (* ofstream opens *)
  chdir_ok : string -> bool;                     (* chdir returns 0 *)
  userprofile : option string;                   (* getenv("USERPROFILE") *)
  home : option string;                          (* getenv("HOME") *)
  getcwd : string
}.

(** What a command does to the machine, in order: one [Stdout] or
    [Stderr] per [<<], a file opened for writing together with the text
    sent to it, a successful [chdir]. *)
Inductive effect : Type :=
| Stdout (text : string)
| Stderr (text : string)
| Truncate (filename data : string)
| Append (filename data : string)
| Chdir (path : string).

Definition NL : string := String newline EmptyString.

(** *** [echo] (lines 395-483) *)

(** The loop over [message]: the result so far and the values left in the
    globals [ap] and [fnd] ([""] and [-1] when they are not assigned). *)
Fixpoint echo_loop (message : string) (i : Z) (token : Z) (c prev : ascii)
         (result : string) : string * string * Z :=
  match message with
  | EmptyString => (result, "", (-1)%Z)
  | String m rest =>
      if (token =? 1)%Z then
        if Ascii.eqb c dquote && Ascii.eqb prev backslash then
          echo_loop rest (i + 1) token c m (result ++ String m "")
        else if Ascii.eqb m "'" && Ascii.eqb c "'" then
          echo_loop rest (i + 1) 0 c m result
        else if Ascii.eqb m dquote && Ascii.eqb c dquote then
          echo_loop rest (i + 1) 0 c m result
        else if negb (Ascii.eqb c dquote) || negb (Ascii.eqb m backslash) then
          echo_loop rest (i + 1) token c m (result ++ String m "")
        else
          echo_loop rest (i + 1) token c m result
      else
        let next_is_gt :=
          match rest with
          | String n _ => Ascii.eqb n ">"
          | EmptyString => false
          end in
        if (Ascii.eqb m "1" && next_is_gt) || Ascii.eqb m ">" then
          if Ascii.eqb m "1" then
            if next_is_gt then (result, "1>>", (i + 7)%Z)
            else (result, "1>", (i + 6)%Z)
          else
            if next_is_gt then (result, ">>", (i + 6)%Z)
            else (result, ">", (i + 5)%Z)
        else if Ascii.eqb m " " then
          echo_loop rest (i + 1) token c m
                    (if negb (Ascii.eqb prev " ") then result ++ " " else result)
        else if Ascii.eqb prev backslash then
          echo_loop rest (i + 1) token c m (result ++ String m "")
        else if Ascii.eqb m "'" || Ascii.eqb m dquote then
          echo_loop rest (i + 1) 1 m m result
        else if negb (Ascii.eqb m backslash) then
          echo_loop rest (i + 1) token c m
                    (if negb (Ascii.eqb m " ") || negb (Ascii.eqb prev " ")
                     then result ++ String m "" else result)
        else
          echo_loop rest (i + 1) token c m result
  end.

Record echo_result : Type := mkEcho {
  echoed : string;       (* the returned string *)
  ap : string;           (* the global ap on return *)
  fnd : Z;               (* the global fnd on return *)
  complained : bool      (* the message on cerr was printed *)
}.

(** [echo].  The local [c] has no initialiser; it is read only while
    [token] is 1, which is set together with [c].  [main] resets [ap] and
    [fnd] after every use, so they are [""] and [-1] on entry. *)
Definition echo (input : string) : echo_result :=
  if (size input <? 5)%Z then mkEcho "" "" (-1) true
  else
    let message := drop 5 input in
    let '(result, ap_, fnd_) := echo_loop message 0 0 zero "-" "" in
    mkEcho result ap_ fnd_ false.

(** *** [found] (lines 500-503) *)
Definition found (input : string) : bool :=
  existsb (String.eqb input) commands.

(** *** [found2] (lines 515-550): [path] is the value of PATH and
    [access] tells which files exist. *)
Fixpoint found2_search (access : string -> bool) (input : string)
         (paths : list string) : string :=
  match paths with
  | [] => "f"
  | p :: rest =>
      let full_path := p ++ String backslash "" ++ input ++ ".exe" in
      if access full_path then full_path
      else
        let full_path := p ++ String backslash "" ++ input in
        if access full_path then full_path
        else found2_search access input rest
  end.

Definition found2 (path : string) (access : string -> bool) (input : string)
  : string :=
  found2_search access input (split ";" path).

(** *** [type] (lines 560-568) *)
Definition type_ (input : string) : option (list effect) :=
  substr <- substr_from input 5 ;;
  Some (Stdout substr
        :: (if found substr
            then [Stdout " is a shell builtin"; Stdout NL]
            else [Stdout (": not found" ++ NL)])).

(** *** [cd] (lines 580-609) *)
Definition change_directory (w : world) (path : string) : list effect :=
  if chdir_ok w path then [Chdir path]
  else [Stdout "cd: "; Stdout path; Stdout ": No such file or directory";
        Stdout NL].

Definition cd (w : world) (input : string) : option (list effect) :=
  let input := if String.eqb input "cd" then "cd " else input in
  path <- substr_from input 3 ;;
  let path := trim path in
  if String.eqb path "~" then
    match userprofile w with
    | Some h => Some (change_directory w h)
    | None =>
        match home w with
        | Some h => Some (change_directory w h)
        | None => Some [Stdout "cd: HOME environment variable not set";
                        Stdout NL]
        end
    end
  else Some (change_directory w path).

(** *** [cat] (lines 622-657): the returned string and what is printed. *)
Definition cat (w : world) (input : string) : option (string * list effect) :=
  input <- substr_from input 4 ;;
  let args := split " " input in
  file <- nth_error args 0 ;;
  let file := trim file in
  match file_text w file with
  | None =>
      Some ("-1", [Stdout "Error: Could not open file "; Stdout file; Stdout NL])
  | Some text =>
      Some (fold_left (fun contents line => contents ++ (line ++ NL))
                      (getlines text) "",
            [])
  end.

(** *** [put] (lines 668-683) *)
Definition put (w : world) (contents input : string) : list effect :=
  if String.eqb contents "-1" then []
  else
    let pos : Z :=
      match find_str ">" input with
      | Some n => Z.of_nat n
      | None => (-1)%Z
      end in
    let filename := trim (drop (Z.to_nat (pos + 1)) input) in
    if writable w filename then [Truncate filename contents]
    else [Stderr "Error: Could not open file "; Stderr filename; Stderr NL].

(** *** [ls] (lines 697-739) *)
Definition ls_path (input : string) : option string :=
  let input := if String.eqb input "ls" then "ls " else input in
  path <- substr_from input 3 ;;
  let path :=
    match find_str "1>>" path with
    | Some n => take n path
    | None =>
        match find_str ">>" path with
        | Some n => take n path
        | None =>
            match find_str "1>" path with
            | Some n => take n path
            | None =>
                match find_str ">" path with
                | Some n => take n path
                | None => path
                end
            end
        end
    end in
  Some (if empty path then "." else path).

Definition ls (w : world) (input : string) : option (string * list effect) :=
  path <- ls_path input ;;
  match dir_entries w path with
  | None =>
      Some ("-1", [Stderr "ls: "; Stderr path;
                   Stderr ": No such file or directory"; Stderr NL])
  | Some entries =>
      Some (fold_left
              (fun contents name =>
                 if hidden name then contents else (contents ++ name) ++ NL)
              entries "",
            [])
  end.

(** *** [output_finder] (lines 750-769) *)
Definition output_finder (s : string) : string :=
  if contains "1>>" s then "1>>"
  else if contains ">>" s then ">>"
  else if contains ">" s then ">"
  else if contains "1>" s then "1>"
  else "".

(** *** [append] (lines 780-799) *)
Definition append (w : world) (contents input : string) : list effect :=
  if String.eqb contents "-1" then []
  else
    let filename :=
      match find_str ">>" input with
      | Some n => drop (n + 2) input
      | None =>
          match find_str "1>>" input with
          | Some n => drop (n + 3) input
          | None => input
          end
      end in
    let filename := trim filename in
    if writable w filename then [Append filename (contents ++ NL)]
    else [Stderr "Error: Could not open file "; Stderr filename; Stderr NL].

(** *** [add_history] (lines 840-850) *)
Definition add_history (w : world) (command : string) : list effect :=
  if writable w "history.txt" then [Append "history.txt" (command ++ NL)]
  else [Stderr "Error: Could not open history file for writing"; Stderr NL].

(** *** The commands of [main] (lines 909-1016) *)

(** The printing loop of [history], from index [i]. *)
Fixpoint history_loop (history : list string) (i : Z) (passes : nat)
  : option (list effect) :=
  match passes with
  | O => Some []
  | S passes' =>
      entry <- Editor.vec_at history i ;;
      rest <- history_loop history (i + 1) passes' ;;
      Some ([Stdout (decimal (i + 1)); Stdout ". "; Stdout entry; Stdout NL]
            ++ rest)%list
  end.

Definition history_from (history : list string) (i : Z) : option (list effect) :=
  history_loop history i (Z.to_nat (Z.of_nat (List.length history) - i)).

Definition run_history (history : list string) (command input : string)
  : option (list effect) :=
  if negb (String.eqb command input) then
    num_str <- substr_from input 8 ;;
    if empty num_str then
      Some [Stderr "Error: history command requires a number"; Stderr NL]
    else
      match stoll num_str with
      | Parsed v =>
          let i := to_int v in
          if (i <? 1)%Z || (Z.of_nat (List.length history) <? i)%Z then
            Some [Stderr "Error: Invalid history index. Range: 1-";
                  Stderr (decimal (Z.of_nat (List.length history)));
                  Stderr NL]
          else history_from history (Z.of_nat (List.length history) - i)
      | InvalidArgument => Some [Stderr "Error: Invalid number format"; Stderr NL]
      | OutOfRange => Some [Stderr "Error: Number out of range"; Stderr NL]
      end
  else history_from history 0.

Definition run_echo (w : world) (input : string) : option (list effect) :=
  let e := echo input in
  let complaint :=
    if complained e
    then [Stderr "Error: Invalid command format. Use 'echo <message>'."]
    else [] in
  if negb (fnd e =? -1)%Z then
    if String.eqb (ap e) "1>" || String.eqb (ap e) ">" then
      target <- substr_from input (fnd e) ;;
      Some (complaint ++ put w (echoed e) target)%list
    else
      target <- substr_from input (fnd e - 1) ;;
      Some (complaint ++ append w (echoed e) target)%list
  else Some (complaint ++ [Stdout (echoed e); Stdout NL])%list.

(** Where the output of [ls] and [cat] goes (lines 983-994, 999-1010). *)
Definition deliver (w : world) (contents input : string) : list effect :=
  if String.eqb (output_finder input) "" then [Stdout contents]
  else if String.eqb (output_finder input) "1>>"
          || String.eqb (output_finder input) ">>"
       then append w contents input
       else put w contents input.

(** The chain of [if (command == ...)] of [main]; at most one of them
    holds.  [None] is an exception that nothing catches. *)
Definition dispatch (w : world) (history : list string)
           (command input : string) : option (list effect) :=
  if found command then
    if String.eqb command "history" then run_history history command input
    else if String.eqb command "echo" then run_echo w input
    else if String.eqb command "type" then type_ input
    else if String.eqb command "pwd" then Some [Stdout (getcwd w); Stdout NL]
    else if String.eqb command "cd" then cd w input
    else if String.eqb command "ls" then
      r <- ls w input ;;
      Some (snd r ++ deliver w (fst r) input)%list
    else if String.eqb command "cat" then
      r <- cat w input ;;
      Some (snd r ++ deliver w (fst r) input)%list
    else Some []
  else Some [Stdout command; Stdout ": command not found"; Stdout NL].

(** One pass of the loop of [main] on the line [raw] returned by
    [readline]. *)
Inductive pass : Type :=
| Skipped                                              (* continue *)
| Quit (history : list string) (effects : list effect) (* exit(0) *)
| Ran (history : list string) (effects : list effect)
| Threw (history : list string) (effects : list effect).

Definition main_body (w : world) (history : list string) (raw : string) : pass :=
  let input := trim raw in
  if empty input then Skipped
  else
    let command := command_of input in
    if empty command then Skipped
    else
      let saved := add_history w input in
      let history := (history ++ [input])%list in
      if String.eqb input "exit 0" then Quit history saved
      else
        match dispatch w history command input with
        | Some effects => Ran history (saved ++ effects)%list
        | None => Threw history saved
        end.

(** The files after an effect: [ios::trunc] replaces the text, [ios::app]
    adds to it, creating the file when it is missing. *)
Definition after_effect (files : string -> option string) (e : effect)
  : string -> option string :=
  match e with
  | Truncate f data =>
      fun g => if String.eqb g f then Some data else files g
  | Append f data =>
      fun g =>
        if String.eqb g f
        then Some (match files f with
                   | Some old => old ++ data
                   | None => data
                   end)
        else files g
  | _ => files
  end.

(** *** The loop of [main] (lines 880-1019) *)

(** How a session stands once the lines read so far have run. *)
Inductive standing : Type :=
| Reading      (* in [readline], waiting for the next line *)
| Left0        (* [exit(0)] at line 907 *)
| Aborted.     (* an exception has left [main] *)

Record session : Type := mkSession {
  store : list string;              (* the global [history] *)
  how : standing;
  done : list effect;               (* what was done, in order *)
  unread : list (world * string)    (* the lines never read *)
}.

(** The loop over the successive results of [readline], each with the
    environment its command finds.  Every pass starts with
    [print_prompt]; what [readline] writes while the line is typed is
    described by [Editor.readline] and not repeated here.  The process
    ends at [exit(0)] and at an uncaught exception: what follows is never
    read. *)
Fixpoint main_loop (history : list string) (so_far : list effect)
         (lines : list (world * string)) : session :=
  let so_far := (so_far ++ [Stdout "$ "])%list in
  match lines with
  | [] => mkSession history Reading so_far []
  | (w, raw) :: rest =>
      match main_body w history raw with
      | Skipped => main_loop history so_far rest
      | Ran history' effects => main_loop history' (so_far ++ effects) rest
      | Quit history' effects =>
          mkSession history' Left0 (so_far ++ effects) rest
      | Threw history' effects =>
          mkSession history' Aborted (so_far ++ effects) rest
      end
  end.

(** [main]: [get_history] on the lines of history.txt ([None] when it
    cannot be opened), then the loop. *)
Definition main (file : option (list string))
           (lines : list (world * string)) : session :=
  main_loop (get_history file) [] lines.

End Builtins.

(** ** Notions used to state the further properties *)

Module Notions.

Import Str Text Editor.

(** The same key pressed [k] times. *)
Fixpoint press (handler : state -> option state) (k : nat) (st : state)
  : option state :=
  match k with
  | O => Some st
  | S k' => st' <- handler st ;; press handler k' st'
  end.

(** Every run of spaces reduced to a single space. *)
Fixpoint squeeze (s : string) : string :=
  match s with
  | String a rest =>
      match rest with
      | String b _ =>
          if Ascii.eqb a " " && Ascii.eqb b " " then squeeze rest
          else String a (squeeze rest)
      | EmptyString => s
      end
  | EmptyString => s
  end.

(** Text that [echo] reads as plain words: no quote, no backslash and
    no [>]. *)
Definition plain (s : string) : Prop :=
  mem "'" s = false /\ mem dquote s = false /\ mem backslash s = false
  /\ mem ">" s = false.

(** A text file whose last line is complete: empty, or ending with a
    newline. *)
Fixpoint terminated (text : string) : bool :=
  match text with
  | EmptyString => true
  | String c EmptyString => Ascii.eqb c newline
  | String _ rest => terminated rest
  end.

(** How many times the bell rang. *)
Fixpoint beeps (screen : list term_event) : nat :=
  match screen with
  | [] => 0
  | Beep :: rest => S (beeps rest)
  | Write _ :: rest => beeps rest
  end.

(** Every character of [s] is one of [set]. *)
Fixpoint only (set s : string) : bool :=
  match s with
  | EmptyString => true
  | String c rest => mem c set && only set rest
  end.

(** The lines of a history listing: the entries numbered from [first]
    on, each as the number, a dot and a space, the entry and a newline. *)
Fixpoint numbered (first : nat) (entries : list string)
  : list Builtins.effect :=
  match entries with
  | [] => []
  | entry :: rest =>
      Builtins.Stdout (decimal (Z.of_nat first))
      :: Builtins.Stdout ". "
      :: Builtins.Stdout entry
      :: Builtins.Stdout Builtins.NL
      :: numbered (S first) rest
  end.

(** Nothing but messages on the error stream. *)
Definition only_errors (effects : list Builtins.effect) : Prop :=
  Forall (fun e => match e with Builtins.Stderr _ => True | _ => False end)
         effects.

(** The lines after which [main] reads nothing more: the one that makes
    it exit and the two that make it throw. *)
Definition ends_session (raw : string) : bool :=
  String.eqb (Shell.trim raw) "exit 0"
  || String.eqb (Shell.trim raw) "type"
  || String.eqb (Shell.trim raw) "cat".

End Notions.

(** ** The terminal line the editor writes to *)

Module Terminal.

Import Str Editor.

(** The terminal is not part of the program.  This is the behaviour the
    screen-repair code of [readline] relies on: [cells] are the characters
    on the current line from the column where the prompt ends, [column]
    is the cursor, counted from there; a backspace character moves the
    cursor one column to the left, any other character is put at the
    cursor, over what was there, and moves the cursor one column to the
    right.  The line is taken to be wide enough never to wrap. *)
Record display : Type := mkDisplay {
  cells : list ascii;
  column : nat
}.

Fixpoint overwrite (n : nat) (c : ascii) (row : list ascii) : list ascii :=
  match n, row with
  | O, _ :: rest => c :: rest
  | O, [] => [c]
  | S n', a :: rest => a :: overwrite n' c rest
  | S n', [] => " "%char :: overwrite n' c []
  end.

Definition show_char (d : display) (c : ascii) : display :=
  if Ascii.eqb c (ascii_of_nat 8)
  then mkDisplay (cells d) (column d - 1)
  else mkDisplay (overwrite (column d) c (cells d)) (S (column d)).

Fixpoint show_text (d : display) (text : string) : display :=
  match text with
  | EmptyString => d
  | String c rest => show_text (show_char d c) rest
  end.

Definition show_event (d : display) (e : term_event) : display :=
  match e with
  | Write text => show_text d text
  | Beep => d
  end.

Definition render (d : display) (events : list term_event) : display :=
  fold_left show_event events d.

(** The display shows [text] with the cursor at [cursor]: the line holds
    the text, followed at most by blanks. *)
Definition shows (d : display) (text : string) (cursor : Z) : Prop :=
  Z.of_nat (column d) = cursor
  /\ exists pad,
      cells d = (list_ascii_of_string text ++ pad)%list
      /\ Forall (fun c => c = " "%char) pad.

(** Text made of the characters a key can type (codes 32 to 126). *)
Fixpoint graphic (s : string) : bool :=
  match s with
  | EmptyString => true
  | String c rest =>
      Nat.leb 32 (nat_of_ascii c) && Nat.leb (nat_of_ascii c) 126
      && graphic rest
  end.

(** The display is in step with the editor: the cursor is inside the
    buffer, buffer and backup are graphic, and the display shows the
    buffer with the cursor where [cursor_pos] says. *)
Definition mirrors (d : display) (st : state) : Prop :=
  Props.cursor_ok st
  /\ graphic (line st) = true
  /\ graphic (current_line_backup st) = true
  /\ shows d (line st) (cursor_pos st).

End Terminal.

(** * Properties *)

(** ** Facts about the string operations *)

Section StrFacts.

Import Str.

Lemma length_append (s t : string) :
  String.length (s ++ t) = String.length s + String.length t.
Proof. induction s as [|a s IH]; simpl; [reflexivity | now rewrite IH]. Qed.

Lemma length_take (n : nat) (s : string) :
  String.length (take n s) = Nat.min n (String.length s).
Proof.
  revert s; induction n as [|n IH]; intros [|a s]; simpl; auto.
Qed.

Lemma length_drop (n : nat) (s : string) :
  String.length (drop n s) = String.length s - n.
Proof.
  revert s; induction n as [|n IH]; intros [|a s]; simpl; auto.
Qed.

Lemma take_drop (n : nat) (s : string) : take n s ++ drop n s = s.
Proof.
  revert s; induction n as [|n IH]; intros [|a s]; simpl; auto.
  now rewrite IH.
Qed.

Lemma take_app_exact (s t : string) : take (String.length s) (s ++ t) = s.
Proof. induction s as [|a s IH]; simpl; [now destruct t | now rewrite IH]. Qed.

Lemma take_all (s : string) : take (String.length s) s = s.
Proof. induction s as [|a s IH]; simpl; [reflexivity | now rewrite IH]. Qed.

Lemma drop_all (s : string) : drop (String.length s) s = "".
Proof. induction s as [|a s IH]; simpl; auto. Qed.

Lemma app_empty_r (s : string) : s ++ "" = s.
Proof. induction s as [|a s IH]; simpl; [reflexivity | now rewrite IH]. Qed.

Lemma app_assoc (s t u : string) : (s ++ t) ++ u = s ++ t ++ u.
Proof. induction s as [|a s IH]; simpl; [reflexivity | now rewrite IH]. Qed.

Lemma take_is_substring (n : nat) (s : string) : take n s = substring 0 n s.
Proof.
  revert s; induction n as [|n IH]; intros [|a s]; simpl; auto.
  now rewrite IH.
Qed.

Lemma empty_iff (s : string) : empty s = true <-> s = "".
Proof. destruct s; simpl; split; congruence. Qed.

Lemma size_nonneg (s : string) : (0 <= size s)%Z.
Proof. unfold size; lia. Qed.

Lemma mem_app (c : ascii) (s t : string) :
  mem c (s ++ t) = mem c s || mem c t.
Proof.
  induction s as [|a s IH]; simpl; [reflexivity|].
  now rewrite IH, orb_assoc.
Qed.

Lemma rfind_lt (c : ascii) (s : string) (i : nat) :
  rfind c s = Some i -> i < String.length s.
Proof.
  revert i; induction s as [|a s IH]; simpl; intros i H; [discriminate|].
  destruct (rfind c s) as [j|].
  - inversion H; subst. specialize (IH j eq_refl). lia.
  - destruct (Ascii.eqb a c); inversion H; lia.
Qed.

Lemma rfind_none (c : ascii) (s : string) :
  rfind c s = None <-> mem c s = false.
Proof.
  induction s as [|a s IH]; simpl; [tauto|].
  destruct (rfind c s) as [j|].
  - split; [discriminate|]. intros H.
    apply orb_false_iff in H. destruct H as [_ H].
    apply IH in H. discriminate.
  - destruct IH as [IH _]. rewrite (IH eq_refl), orb_false_r.
    destruct (Ascii.eqb a c); split; congruence.
Qed.

(** [rfind] splits the string at its last occurrence of [c]. *)
Lemma rfind_some (c : ascii) (s : string) (i : nat) :
  rfind c s = Some i ->
  s = take i s ++ String c (drop (S i) s) /\ mem c (drop (S i) s) = false.
Proof.
  revert i; induction s as [|a s IH]; simpl; intros i H; [discriminate|].
  destruct (rfind c s) as [j|] eqn:E.
  - inversion H; subst. destruct (IH j eq_refl) as [H1 H2].
    split; [|exact H2].
    change (String a s = String a (take j s ++ String c (drop (S j) s))).
    now rewrite <- H1.
  - destruct (Ascii.eqb_spec a c) as [->|]; [|discriminate].
    inversion H; subst.
    change (String c s = String c s /\ mem c s = false).
    split; [reflexivity | now apply rfind_none].
Qed.

End StrFacts.

(** ** Completion *)

Section CompletionFacts.

Import Str Completion.

(** The comparison [cmd.substr(0, partial.length()) == partial] is the
    prefix test of the standard library. *)
Lemma has_prefix_prefix (cmd partial : string) :
  has_prefix cmd partial = prefix partial cmd.
Proof.
  unfold has_prefix. rewrite take_is_substring.
  destruct (prefix partial cmd) eqn:E.
  - apply prefix_correct in E. rewrite E. apply String.eqb_refl.
  - apply String.eqb_neq. intros H. apply prefix_correct in H. congruence.
Qed.

Lemma has_prefix_iff (cmd partial : string) :
  has_prefix cmd partial = true <-> exists rest, cmd = partial ++ rest.
Proof.
  unfold has_prefix. rewrite String.eqb_eq. split.
  - intros H. exists (drop (String.length partial) cmd).
    rewrite <- H at 1. symmetry. apply take_drop.
  - intros [rest ->]. apply take_app_exact.
Qed.

Lemma hidden_prefix (name : string) : hidden name = prefix "." name.
Proof.
  destruct name as [|a s]; [reflexivity|].
  unfold hidden. cbn [prefix].
  destruct (ascii_dec "."%char a) as [E|N];
    destruct (Ascii.eqb_spec a "."%char) as [E'|N']; try congruence.
  now destruct s.
Qed.

Lemma scan_dir_filter (partial : string) (entries : list string) :
  scan_dir partial entries =
  filter (fun name => negb (hidden name) && has_prefix name partial) entries.
Proof.
  induction entries as [|e rest IH]; simpl; [reflexivity|].
  destruct (hidden e); simpl; [exact IH|].
  destruct (has_prefix e partial); now rewrite IH.
Qed.

Lemma filter_ext_bool {A} (f g : A -> bool) (l : list A) :
  (forall x, f x = g x) -> filter f l = filter g l.
Proof.
  intros H; induction l as [|x l IH]; simpl; [reflexivity|].
  now rewrite H, IH.
Qed.

(** Every candidate returned for [partial] starts with [partial]. *)
Lemma find_completion_has_prefix cwd partial :
  Forall (fun c => has_prefix c partial = true) (find_completion cwd partial).
Proof.
  unfold find_completion, scan_commands.
  destruct (filter _ commands) as [|c l] eqn:E.
  - destruct cwd as [entries|]; [|constructor].
    rewrite scan_dir_filter.
    destruct (filter _ entries) as [|d l] eqn:E2; [constructor|].
    rewrite <- E2. apply Forall_forall. intros x Hx.
    apply filter_In in Hx. destruct Hx as [_ Hx].
    now apply andb_true_iff in Hx.
  - rewrite <- E. apply Forall_forall. intros x Hx.
    now apply filter_In in Hx.
Qed.

Lemma test_from (completion : list string) (word : string) (acc : Z) :
  fold_left
    (fun cnt cmd => if has_prefix cmd word then (cnt + 1)%Z else cnt)
    completion acc
  = (acc + Z.of_nat (List.length (filter (fun c => has_prefix c word) completion)))%Z.
Proof.
  revert acc; induction completion as [|c l IH]; intros acc; simpl; [lia|].
  rewrite IH. destruct (has_prefix c word); simpl List.length; lia.
Qed.

Lemma test_counts (completion : list string) (word : string) :
  test completion word =
  Z.of_nat (List.length (filter (fun c => has_prefix c word) completion)).
Proof. unfold test. now rewrite test_from. Qed.

Lemma filter_all {A} (f : A -> bool) (l : list A) :
  Forall (fun x => f x = true) l -> filter f l = l.
Proof.
  induction 1 as [|x l Hx _ IH]; simpl; [reflexivity|].
  now rewrite Hx, IH.
Qed.

Lemma test_find_completion cwd partial :
  test (find_completion cwd partial) partial =
  Z.of_nat (List.length (find_completion cwd partial)).
Proof.
  rewrite test_counts, filter_all; [reflexivity|].
  apply find_completion_has_prefix.
Qed.

End CompletionFacts.

(** ** The key handlers *)

Section EditorFacts.

Import Str Completion Editor Props.

Lemma in_range_true (s : string) (pos : Z) :
  (0 <= pos <= size s)%Z -> in_range s pos = true.
Proof.
  unfold in_range. intros H.
  apply andb_true_iff; split; apply Z.leb_le; lia.
Qed.

Lemma size_app (s t : string) : size (s ++ t) = (size s + size t)%Z.
Proof. unfold size. rewrite length_append. lia. Qed.

Lemma size_erased (s : string) (pos : Z) :
  (0 <= pos < size s)%Z ->
  size (take (Z.to_nat pos) s ++ drop (S (Z.to_nat pos)) s) = (size s - 1)%Z.
Proof.
  unfold size. intros H. rewrite length_append, length_take, length_drop. lia.
Qed.

Lemma size_inserted (s : string) (pos : Z) (ch : ascii) :
  (0 <= pos <= size s)%Z ->
  size (take (Z.to_nat pos) s ++ String ch (drop (Z.to_nat pos) s))
  = (size s + 1)%Z.
Proof.
  unfold size. intros H. rewrite length_append, length_take.
  cbn [String.length]. rewrite length_drop. lia.
Qed.

Lemma vec_at_in_range (v : list string) (i : Z) :
  (0 <= i < Z.of_nat (List.length v))%Z -> exists x, vec_at v i = Some x.
Proof.
  intros H. unfold vec_at.
  replace (0 <=? i)%Z with true by (symmetry; apply Z.leb_le; lia).
  destruct (nth_error v (Z.to_nat i)) as [x|] eqn:E; [eauto|].
  apply nth_error_None in E. lia.
Qed.

Ltac unfold_state :=
  unfold cursor_ok, nav_ok, emit, set_line, set_cursor, set_lst;
  cbn [line cursor_pos history_index current_line_backup lst screen].

Lemma backspace_safe (st : state) :
  cursor_ok st ->
  exists st', backspace st = Some st' /\ cursor_ok st'
              /\ history_index st' = history_index st.
Proof.
  intros H. unfold backspace.
  destruct (negb (empty (line st)) && (0 <? cursor_pos st)%Z) eqn:G;
    [|eauto].
  apply andb_true_iff in G. destruct G as [_ G]. apply Z.ltb_lt in G.
  unfold cursor_ok in H.
  unfold erase1. rewrite in_range_true by lia. cbn [bind].
  unfold substr_from. rewrite in_range_true by (rewrite size_erased; lia).
  cbn [bind]. eexists; split; [reflexivity|]. unfold_state.
  rewrite size_erased by lia. split; [lia | reflexivity].
Qed.

Lemma delete_safe (st : state) :
  cursor_ok st ->
  exists st', delete st = Some st' /\ cursor_ok st'
              /\ history_index st' = history_index st.
Proof.
  intros H. unfold delete.
  destruct (negb (empty (line st)) && (cursor_pos st <? size (line st))%Z)
    eqn:G; [|eauto].
  apply andb_true_iff in G. destruct G as [_ G]. apply Z.ltb_lt in G.
  unfold cursor_ok in H.
  unfold erase1. rewrite in_range_true by lia. cbn [bind].
  unfold substr_from. rewrite in_range_true by (rewrite size_erased; lia).
  cbn [bind]. eexists; split; [reflexivity|]. unfold_state.
  rewrite size_erased by lia. split; [lia | reflexivity].
Qed.

Lemma left_safe (st : state) :
  cursor_ok st ->
  exists st', left st = Some st' /\ cursor_ok st'
              /\ history_index st' = history_index st.
Proof.
  intros H. unfold left.
  destruct (0 <? cursor_pos st)%Z eqn:G; [|eauto].
  apply Z.ltb_lt in G. unfold cursor_ok in H.
  eexists; split; [reflexivity|]. unfold_state. split; [lia | reflexivity].
Qed.

Lemma right_safe (st : state) :
  cursor_ok st ->
  exists st', right st = Some st' /\ cursor_ok st'
              /\ history_index st' = history_index st.
Proof.
  intros H. unfold right.
  destruct (cursor_pos st <? size (line st))%Z eqn:G; [|eauto].
  apply Z.ltb_lt in G. unfold cursor_ok in H.
  unfold at_.
  replace (0 <=? cursor_pos st + 1 - 1)%Z with true
    by (symmetry; apply Z.leb_le; lia).
  destruct (get (Z.to_nat (cursor_pos st + 1 - 1)) (line st)) as [c|] eqn:E.
  - cbn [bind]. eexists; split; [reflexivity|]. unfold_state.
    split; [lia | reflexivity].
  - exfalso.
    assert (L : Z.to_nat (cursor_pos st + 1 - 1) < String.length (line st))
      by (unfold size in G; lia).
    revert E L. generalize (Z.to_nat (cursor_pos st + 1 - 1)).
    generalize (line st). clear.
    induction s as [|a s IH]; intros [|n]; cbn [get String.length];
      intros E L; try lia; try discriminate.
    apply (IH n E). lia.
Qed.

Lemma insert_char_safe (ch : Z) (st : state) :
  cursor_ok st ->
  exists st', insert_char ch st = Some st' /\ cursor_ok st'
              /\ history_index st' = history_index st.
Proof.
  intros H. unfold insert_char. unfold cursor_ok in H.
  unfold insert1. rewrite in_range_true by lia. cbn [bind].
  unfold substr_from. rewrite in_range_true by (rewrite size_inserted; lia).
  cbn [bind]. eexists; split; [reflexivity|]. unfold_state.
  rewrite size_inserted by lia. split; [lia | reflexivity].
Qed.

Lemma word_to_complete_total (l : string) :
  exists w, word_to_complete l = Some w.
Proof.
  unfold word_to_complete. destruct (rfind " " l) as [p|] eqn:E; [|eauto].
  apply rfind_lt in E. unfold substr_from.
  rewrite in_range_true by (unfold size; lia). eauto.
Qed.

Lemma unique_match_first (completion : list string) (word : string) :
  unique_match completion word = true ->
  exists first, nth_error completion 0 = Some first.
Proof. destruct completion as [|c l]; [discriminate | simpl; eauto]. Qed.

Lemma tab_safe (cwd : option (list string)) (st : state) :
  cursor_ok st ->
  exists st', tab cwd st = Some st' /\ cursor_ok st'
              /\ history_index st' = history_index st.
Proof.
  intros H. unfold tab.
  destruct (word_to_complete_total (line st)) as [w ->]. cbn [bind].
  unfold tab_dispatch.
  destruct (lst st =? 9)%Z.
  - destruct (1 <? _)%Z; eexists; (split; [reflexivity|]);
      unfold_state; auto.
  - destruct (unique_match (find_completion cwd w) w) eqn:U.
    + destruct (unique_match_first _ _ U) as [first ->]. cbn [bind].
      eexists; split; [reflexivity|]. unfold_state.
      split; [|reflexivity]. pose proof (size_nonneg
        (match rfind " " (line st) with
         | Some p => take (S p) (line st) ++ first
         | None => first
         end)). lia.
    + eexists; split; [reflexivity|]. unfold_state. auto.
Qed.

Lemma up_cursor_ok (history : list string) (st st' : state) :
  cursor_ok st -> up history st = Some st' -> cursor_ok st'.
Proof.
  intros H. unfold up. destruct history as [|h0 hs]; [congruence|].
  destruct (if (history_index st =? -1)%Z then _ else _) as [backup index].
  destruct (vec_at (h0 :: hs) index) as [item|]; [|discriminate].
  cbn [bind]. intros E; inversion E; subst; clear E. unfold_state.
  pose proof (size_nonneg item). lia.
Qed.

Lemma up_safe (history : list string) (st : state) :
  nav_ok history st ->
  exists st', up history st = Some st' /\ nav_ok history st'.
Proof.
  intros H. unfold up. destruct history as [|h0 hs]; [eauto|].
  unfold nav_ok in H.
  assert (exists backup index,
             (if (history_index st =? -1)%Z
              then (line st, (Z.of_nat (List.length (h0 :: hs)) - 1)%Z)
              else if (0 <? history_index st)%Z
                   then (current_line_backup st, (history_index st - 1)%Z)
                   else (current_line_backup st, history_index st))
             = (backup, index)
             /\ (0 <= index < Z.of_nat (List.length (h0 :: hs)))%Z)
    as (backup & index & -> & R).
  { destruct (history_index st =? -1)%Z eqn:E1.
    - do 2 eexists; split; [reflexivity|]. cbn [List.length]. lia.
    - apply Z.eqb_neq in E1.
      destruct (0 <? history_index st)%Z eqn:E2;
        do 2 eexists; (split; [reflexivity|]).
      + apply Z.ltb_lt in E2. lia.
      + lia. }
  destruct (vec_at_in_range _ _ R) as [item ->]. cbn [bind].
  eexists; split; [reflexivity|]. unfold_state. lia.
Qed.

Lemma down_cursor_ok (history : list string) (st st' : state) :
  cursor_ok st -> down history st = Some st' -> cursor_ok st'.
Proof.
  intros H. unfold down.
  destruct (negb (history_index st =? -1)%Z); [|congruence].
  destruct (if (history_index st <? _)%Z then _ else _) as [[index l']|];
    [|discriminate].
  cbn [bind]. intros E; inversion E; subst; clear E. unfold_state.
  pose proof (size_nonneg l'). lia.
Qed.

Lemma down_safe (history : list string) (st : state) :
  nav_ok history st ->
  exists st', down history st = Some st' /\ nav_ok history st'.
Proof.
  intros H. unfold down. unfold nav_ok in H.
  destruct (history_index st =? -1)%Z eqn:E1; cbn [negb]; [eauto|].
  apply Z.eqb_neq in E1.
  destruct (history_index st <? Z.of_nat (List.length history) - 1)%Z eqn:E2.
  - apply Z.ltb_lt in E2.
    destruct (vec_at_in_range history (history_index st + 1)) as [item ->];
      [lia|].
    cbn [bind]. eexists; split; [reflexivity|]. unfold_state. lia.
  - cbn [bind]. eexists; split; [reflexivity|]. unfold_state. lia.
Qed.

(** *** One pass of the loop *)

Lemma set_lst_cursor_ok (st : state) (ch : Z) :
  cursor_ok st -> cursor_ok (set_lst st ch).
Proof. unfold_state. auto. Qed.

Lemma set_lst_nav_ok (history : list string) (st : state) (ch : Z) :
  nav_ok history st -> nav_ok history (set_lst st ch).
Proof. unfold_state. auto. Qed.

(** The handler selected by the second byte of an arrow sequence. *)
Lemma arrow_cursor_ok (history : list string) (ch : Z) (st st' : state) :
  cursor_ok st ->
  (if (ch =? 72)%Z then up history st
   else if (ch =? 80)%Z then down history st
   else if (ch =? 75)%Z then left st
   else if (ch =? 77)%Z then right st
   else if (ch =? 83)%Z then delete st
   else Some st) = Some st' ->
  cursor_ok st'.
Proof.
  intros H.
  destruct (ch =? 72)%Z; [apply up_cursor_ok; exact H|].
  destruct (ch =? 80)%Z; [apply down_cursor_ok; exact H|].
  destruct (ch =? 75)%Z;
    [destruct (left_safe st H) as (s1 & -> & C & _); congruence|].
  destruct (ch =? 77)%Z;
    [destruct (right_safe st H) as (s1 & -> & C & _); congruence|].
  destruct (ch =? 83)%Z;
    [destruct (delete_safe st H) as (s1 & -> & C & _); congruence|].
  congruence.
Qed.

Lemma arrow_safe (history : list string) (ch : Z) (st : state) :
  cursor_ok st -> nav_ok history st ->
  exists st',
    (if (ch =? 72)%Z then up history st
     else if (ch =? 80)%Z then down history st
     else if (ch =? 75)%Z then left st
     else if (ch =? 77)%Z then right st
     else if (ch =? 83)%Z then delete st
     else Some st) = Some st'
    /\ nav_ok history st'.
Proof.
  intros H N. unfold nav_ok in *.
  destruct (ch =? 72)%Z; [apply up_safe; exact N|].
  destruct (ch =? 80)%Z; [apply down_safe; exact N|].
  destruct (ch =? 75)%Z;
    [destruct (left_safe st H) as (s1 & -> & _ & I);
     exists s1; split; [reflexivity | rewrite I; exact N]|].
  destruct (ch =? 77)%Z;
    [destruct (right_safe st H) as (s1 & -> & _ & I);
     exists s1; split; [reflexivity | rewrite I; exact N]|].
  destruct (ch =? 83)%Z;
    [destruct (delete_safe st H) as (s1 & -> & _ & I);
     exists s1; split; [reflexivity | rewrite I; exact N]|].
  eauto.
Qed.

Lemma continue_next (r : option state) (ch : Z) (rest : list Z)
      (st' : state) (rest' : list Z) :
  continue r ch rest = Next st' rest' ->
  exists s1, r = Some s1 /\ st' = set_lst s1 ch /\ rest' = rest.
Proof.
  destruct r as [s1|]; cbn [continue]; intros E; inversion E; eauto.
Qed.

Lemma readline_body_cursor_ok cwd history st input st' rest :
  cursor_ok st ->
  readline_body cwd history st input = Next st' rest ->
  cursor_ok st'.
Proof.
  intros H. unfold readline_body.
  destruct input as [|k input]; [discriminate|].
  destruct (to_char k =? 13)%Z; [discriminate|].
  destruct ((to_char k =? 8)%Z || (to_char k =? 127)%Z).
  { intros E. apply continue_next in E. destruct E as (s1 & E & -> & _).
    destruct (backspace_safe st H) as (s2 & E2 & C & _).
    apply set_lst_cursor_ok. congruence. }
  destruct (to_char k =? 9)%Z.
  { intros E. apply continue_next in E. destruct E as (s1 & E & -> & _).
    destruct (tab_safe cwd st H) as (s2 & E2 & C & _).
    apply set_lst_cursor_ok. congruence. }
  destruct ((to_char k =? -32)%Z || (to_char k =? 224)%Z).
  { destruct input as [|k2 input]; [discriminate|].
    intros E. apply continue_next in E. destruct E as (s1 & E & -> & _).
    apply set_lst_cursor_ok. eapply arrow_cursor_ok; eassumption. }
  destruct ((32 <=? to_char k)%Z && (to_char k <=? 126)%Z).
  { intros E. apply continue_next in E. destruct E as (s1 & E & -> & _).
    destruct (insert_char_safe (to_char k) st H) as (s2 & E2 & C & _).
    apply set_lst_cursor_ok. congruence. }
  destruct (to_char k =? 4)%Z; [discriminate|].
  intros E. apply continue_next in E. destruct E as (s1 & E & -> & _).
  apply set_lst_cursor_ok. congruence.
Qed.

(** A pass that goes round again has read one key, or two for an arrow,
    and has left the character of the last one in [lst]. *)
Lemma readline_body_lst cwd history st input st' rest :
  readline_body cwd history st input = Next st' rest ->
  exists pre k, input = (pre ++ k :: rest)%list /\ lst st' = to_char k.
Proof.
  unfold readline_body.
  destruct input as [|k input]; [discriminate|].
  destruct (to_char k =? 13)%Z; [discriminate|].
  destruct ((to_char k =? 8)%Z || (to_char k =? 127)%Z).
  { intros E. apply continue_next in E. destruct E as (s1 & _ & -> & ->).
    exists [], k. split; reflexivity. }
  destruct (to_char k =? 9)%Z.
  { intros E. apply continue_next in E. destruct E as (s1 & _ & -> & ->).
    exists [], k. split; reflexivity. }
  destruct ((to_char k =? -32)%Z || (to_char k =? 224)%Z).
  { destruct input as [|k2 input]; [discriminate|].
    intros E. apply continue_next in E. destruct E as (s1 & _ & -> & ->).
    exists [k], k2. split; reflexivity. }
  destruct ((32 <=? to_char k)%Z && (to_char k <=? 126)%Z).
  { intros E. apply continue_next in E. destruct E as (s1 & _ & -> & ->).
    exists [], k. split; reflexivity. }
  destruct (to_char k =? 4)%Z; [discriminate|].
  intros E. apply continue_next in E. destruct E as (s1 & _ & -> & ->).
  exists [], k. split; reflexivity.
Qed.

(** The key read last before the keys still to come. *)
Lemma last_key_unique (pre pre' : list Z) (k k' : Z) (rest : list Z) :
  (pre ++ k :: rest)%list = (pre' ++ k' :: rest)%list -> k = k'.
Proof.
  intros E.
  change (pre ++ k :: rest)%list with (pre ++ [k] ++ rest)%list in E.
  change (pre' ++ k' :: rest)%list with (pre' ++ [k'] ++ rest)%list in E.
  rewrite !List.app_assoc in E. apply app_inv_tail in E.
  now apply app_inj_tail in E.
Qed.

(** A Tab character at the top of the loop goes to the Tab handler. *)
Lemma readline_body_tab cwd history st (t : Z) (rest : list Z) :
  to_char t = 9%Z ->
  readline_body cwd history st (t :: rest) = continue (tab cwd st) 9 rest.
Proof. intros T. unfold readline_body. cbv zeta. rewrite T. reflexivity. Qed.

(** From a state that satisfies both invariants a pass never crashes,
    keeps both invariants and uses up at least one key. *)
Lemma readline_body_safe cwd history st input :
  cursor_ok st -> nav_ok history st ->
  match readline_body cwd history st input with
  | Next st' rest =>
      cursor_ok st' /\ nav_ok history st'
      /\ List.length rest < List.length input
  | Crashed => False
  | _ => True
  end.
Proof.
  intros H N.
  destruct (readline_body cwd history st input) as [st' rest| | | |] eqn:B;
    auto.
  - split; [eapply readline_body_cursor_ok; eassumption|].
    revert B. unfold readline_body.
    destruct input as [|k input]; [discriminate|].
    destruct (to_char k =? 13)%Z; [discriminate|].
    destruct ((to_char k =? 8)%Z || (to_char k =? 127)%Z).
    { intros E. apply continue_next in E. destruct E as (s1 & E & -> & ->).
      destruct (backspace_safe st H) as (s2 & E2 & _ & I).
      split; [|cbn [List.length]; lia].
      apply set_lst_nav_ok. unfold nav_ok in *. congruence. }
    destruct (to_char k =? 9)%Z.
    { intros E. apply continue_next in E. destruct E as (s1 & E & -> & ->).
      destruct (tab_safe cwd st H) as (s2 & E2 & _ & I).
      split; [|cbn [List.length]; lia].
      apply set_lst_nav_ok. unfold nav_ok in *. congruence. }
    destruct ((to_char k =? -32)%Z || (to_char k =? 224)%Z).
    { destruct input as [|k2 input]; [discriminate|].
      intros E. apply continue_next in E. destruct E as (s1 & E & -> & ->).
      destruct (arrow_safe history (to_char k2) st H N) as (s2 & E2 & N2).
      split; [|cbn [List.length]; lia].
      apply set_lst_nav_ok. congruence. }
    destruct ((32 <=? to_char k)%Z && (to_char k <=? 126)%Z).
    { intros E. apply continue_next in E. destruct E as (s1 & E & -> & ->).
      destruct (insert_char_safe (to_char k) st H) as (s2 & E2 & _ & I).
      split; [|cbn [List.length]; lia].
      apply set_lst_nav_ok. unfold nav_ok in *. congruence. }
    destruct (to_char k =? 4)%Z; [discriminate|].
    intros E. apply continue_next in E. destruct E as (s1 & E & -> & ->).
    split; [|cbn [List.length]; lia].
    apply set_lst_nav_ok. congruence.
  - revert B. unfold readline_body.
    destruct input as [|k input]; [discriminate|].
    destruct (to_char k =? 13)%Z; [discriminate|].
    destruct ((to_char k =? 8)%Z || (to_char k =? 127)%Z).
    { destruct (backspace_safe st H) as (s2 & -> & _). discriminate. }
    destruct (to_char k =? 9)%Z.
    { destruct (tab_safe cwd st H) as (s2 & -> & _). discriminate. }
    destruct ((to_char k =? -32)%Z || (to_char k =? 224)%Z).
    { destruct input as [|k2 input]; [discriminate|].
      destruct (arrow_safe history (to_char k2) st H N) as (s2 & -> & _).
      discriminate. }
    destruct ((32 <=? to_char k)%Z && (to_char k <=? 126)%Z).
    { destruct (insert_char_safe (to_char k) st H) as (s2 & -> & _).
      discriminate. }
    destruct (to_char k =? 4)%Z; discriminate.
Qed.

(** The loop never crashes and never runs out of passes: whatever the
    keys, [readline] returns a line, exits, or waits for the next key in
    a state that satisfies both invariants. *)
Lemma readline_loop_safe cwd history fuel st input :
  cursor_ok st -> nav_ok history st -> List.length input < fuel ->
  match readline_loop fuel cwd history st input with
  | Next _ _ | Crashed => False
  | Waiting st' => cursor_ok st' /\ nav_ok history st'
  | _ => True
  end.
Proof.
  revert st input. induction fuel as [|fuel IH]; intros st input H N L;
    [lia|].
  cbn [readline_loop].
  pose proof (readline_body_safe cwd history st input H N) as B.
  destruct (readline_body cwd history st input) as [st' rest| | | |] eqn:E;
    auto.
  - destruct B as (H' & N' & L'). apply IH; auto. lia.
  - revert E. unfold readline_body.
    destruct input as [|k input]; [intros E; inversion E; subst; auto|].
    destruct (to_char k =? 13)%Z; [discriminate|].
    destruct (_ || _); [destruct (backspace st); discriminate|].
    destruct (to_char k =? 9)%Z; [destruct (tab cwd st); discriminate|].
    destruct (_ || _).
    { destruct input as [|k2 input]; [intros E; inversion E; subst; auto|].
      destruct (if (to_char k2 =? 72)%Z then _ else _); discriminate. }
    destruct (_ && _); [destruct (insert_char _ st); discriminate|].
    destruct (to_char k =? 4)%Z; discriminate.
Qed.

(** [readline] itself: started on any keys it returns, exits or waits for
    more input. *)
Lemma readline_safe cwd history lst0 input :
  match readline cwd history lst0 input with
  | Next _ _ | Crashed => False
  | Waiting st' => cursor_ok st' /\ nav_ok history st'
  | _ => True
  end.
Proof.
  unfold readline. apply readline_loop_safe.
  - unfold cursor_ok. cbn. lia.
  - unfold nav_ok. cbn [initial history_index]. lia.
  - lia.
Qed.

(** *** The scenarios of the specification *)

Example scenario_recall :
  readline None ["cd /tmp"; "ls -a"] 0 [224; 72]%Z
  = Waiting (mkState "ls -a" 5 1 "" 72 [Write "ls -a"])
  /\ (exists st, readline None ["cd /tmp"; "ls -a"] 0 [224; 72; 224; 72]%Z
                 = Waiting st
                 /\ line st = "cd /tmp" /\ cursor_pos st = 7%Z
                 /\ history_index st = 0%Z)
  /\ (exists st, readline None ["cd /tmp"; "ls -a"] 0
                   [224; 72; 224; 72; 224; 80]%Z = Waiting st
                 /\ line st = "ls -a" /\ history_index st = 1%Z)
  /\ (exists st, readline None ["cd /tmp"; "ls -a"] 0
                   [224; 72; 224; 72; 224; 80; 224; 80]%Z = Waiting st
                 /\ line st = "" /\ history_index st = (-1)%Z).
Proof.
  split; [reflexivity|].
  repeat split; eexists; (split; [reflexivity|]); cbn; auto.
Qed.

Example scenario_unique_completion :
  readline None [] 0 [101; 99; 9]%Z
  = Waiting (mkState "echo" 4 (-1) "" 9
               [Write "e"; Write "c"; Write RUBOUT; Write RUBOUT; Write "echo"]).
Proof. reflexivity. Qed.

Example scenario_double_tab :
  readline None [] 0 [99; 9; 9]%Z
  = Waiting (mkState "c" 1 (-1) "" 9
               [Write "c"; Beep; Write NL; Write "cat"; Write "    ";
                Write "cd"; Write "    "; Write NL; Write "$ "; Write "c"]).
Proof. reflexivity. Qed.

End EditorFacts.

(** ** Typing printable characters *)

Section Typing.

Import Str Completion Editor Props.

Lemma to_char_printable (k : Z) : (32 <= k <= 126)%Z -> to_char k = k.
Proof.
  intros H. unfold to_char.
  rewrite Z.mod_small by lia. lia.
Qed.

Lemma insert_char_at_end (ch : Z) (st : state) :
  cursor_pos st = size (line st) ->
  exists evs,
    insert_char ch st =
    Some (mkState (line st ++ String (char_byte ch) "")
                  (size (line st) + 1) (history_index st)
                  (current_line_backup st) (lst st)
                  (screen st ++ evs)%list).
Proof.
  intros C. unfold insert_char, insert1.
  pose proof (size_nonneg (line st)).
  rewrite in_range_true by lia. cbn [bind].
  unfold substr_from. rewrite in_range_true by (rewrite size_inserted; lia).
  cbn [bind]. rewrite C. unfold size at 1 2. rewrite Nat2Z.id.
  rewrite take_all, drop_all.
  eexists. unfold emit, set_line.
  cbn [line cursor_pos history_index current_line_backup lst screen].
  reflexivity.
Qed.

(** A printable key selects the insertion branch of the loop body. *)
Lemma readline_body_printable cwd history st k rest :
  (32 <= k <= 126)%Z ->
  readline_body cwd history st (k :: rest)
  = continue (insert_char k st) k rest.
Proof.
  intros H. unfold readline_body. rewrite (to_char_printable k H).
  replace (k =? 13)%Z with false by (symmetry; apply Z.eqb_neq; lia).
  replace (k =? 8)%Z with false by (symmetry; apply Z.eqb_neq; lia).
  replace (k =? 127)%Z with false by (symmetry; apply Z.eqb_neq; lia).
  replace (k =? 9)%Z with false by (symmetry; apply Z.eqb_neq; lia).
  replace (k =? -32)%Z with false by (symmetry; apply Z.eqb_neq; lia).
  replace (k =? 224)%Z with false by (symmetry; apply Z.eqb_neq; lia).
  replace (32 <=? k)%Z with true by (symmetry; apply Z.leb_le; lia).
  replace (k <=? 126)%Z with true by (symmetry; apply Z.leb_le; lia).
  reflexivity.
Qed.

Lemma readline_loop_printable cwd history keys :
  Forall (fun k => (32 <= k <= 126)%Z) keys ->
  forall fuel st,
    List.length keys < fuel ->
    cursor_pos st = size (line st) ->
    exists st',
      readline_loop fuel cwd history st keys = Waiting st'
      /\ line st' = line st ++ typed keys
      /\ cursor_pos st' = size (line st')
      /\ history_index st' = history_index st.
Proof.
  induction 1 as [|k keys Hk _ IH]; intros fuel st L C.
  - destruct fuel as [|fuel]; [cbn in L; lia|].
    exists st. cbn. rewrite app_empty_r. auto.
  - destruct fuel as [|fuel]; [cbn in L; lia|].
    cbn [readline_loop]. rewrite (readline_body_printable _ _ _ _ _ Hk).
    destruct (insert_char_at_end k st C) as [evs ->]. cbn [continue].
    cbn [List.length] in L.
    edestruct (IH fuel) as (st' & E & E1 & E2 & E3); [lia| |].
    2:{ exists st'. split; [exact E|].
        unfold set_lst in E1, E3.
        cbn [line cursor_pos history_index current_line_backup lst screen]
          in E1, E3.
        split; [|split; assumption].
        rewrite E1, app_assoc. cbn [typed append].
        now rewrite (to_char_printable k Hk). }
    unfold set_lst.
    cbn [line cursor_pos history_index current_line_backup lst screen].
    rewrite size_app. unfold size at 3. cbn [String.length]. lia.
Qed.

Lemma typed_printable (keys : list Z) :
  Forall (fun k => (32 <= k <= 126)%Z) keys ->
  typed keys = string_of_list_ascii (map (fun k => ascii_of_N (Z.to_N k)) keys).
Proof.
  induction 1 as [|k keys Hk _ IH]; cbn [typed map string_of_list_ascii];
    [reflexivity|].
  rewrite IH, (to_char_printable k Hk). unfold char_byte.
  now rewrite Z.mod_small by lia.
Qed.

Lemma ascii_of_N_nonzero (n : N) :
  (0 < n < 256)%N -> ascii_of_N n <> zero.
Proof.
  intros H E. apply (f_equal N_of_ascii) in E.
  rewrite N_ascii_embedding in E by lia. cbn in E. lia.
Qed.

Lemma c_str_typed (keys : list Z) :
  Forall (fun k => (32 <= k <= 126)%Z) keys ->
  c_str (typed keys) = typed keys.
Proof.
  induction 1 as [|k keys Hk _ IH]; cbn [typed c_str]; [reflexivity|].
  rewrite IH, (to_char_printable k Hk). unfold char_byte.
  rewrite Z.mod_small by lia.
  destruct (Ascii.eqb_spec (ascii_of_N (Z.to_N k)) zero) as [E|]; [|reflexivity].
  exfalso. revert E. apply ascii_of_N_nonzero. lia.
Qed.

Lemma readline_loop_printable_enter cwd history keys :
  Forall (fun k => (32 <= k <= 126)%Z) keys ->
  forall fuel st,
    List.length keys < fuel ->
    cursor_pos st = size (line st) ->
    exists st',
      readline_loop fuel cwd history st (keys ++ [13%Z])
      = Returned (c_str (line st ++ typed keys)) st'.
Proof.
  induction 1 as [|k keys Hk _ IH]; intros fuel st L C.
  - destruct fuel as [|fuel]; [cbn in L; lia|].
    cbn. rewrite app_empty_r. eauto.
  - destruct fuel as [|fuel]; [cbn in L; lia|].
    cbn [app readline_loop]. rewrite (readline_body_printable _ _ _ _ _ Hk).
    destruct (insert_char_at_end k st C) as [evs ->]. cbn [continue].
    cbn [List.length] in L.
    edestruct (IH fuel) as (st' & E); [lia| |].
    2:{ exists st'. rewrite E. unfold set_lst. cbn [line].
        rewrite app_assoc. cbn [typed append].
        now rewrite (to_char_printable k Hk). }
    unfold set_lst. cbn [line cursor_pos].
    rewrite size_app. unfold size at 3. cbn [String.length]. lia.
Qed.

End Typing.

(** ** History recall *)

Section Recall.

Import Str Completion Editor Props.

Lemma vec_at_last (history : list string) :
  history <> [] ->
  exists item,
    vec_at history (Z.of_nat (List.length history) - 1) = Some item.
Proof.
  intros H. apply vec_at_in_range.
  destruct history; [congruence | cbn [List.length]; lia].
Qed.

(** First Up of a session: the buffer is saved and the newest entry is
    shown. *)
Lemma up_enters_navigation (history : list string) (st : state) :
  history <> [] -> history_index st = (-1)%Z ->
  exists item evs,
    vec_at history (Z.of_nat (List.length history) - 1) = Some item
    /\ up history st
       = Some (mkState item (size item)
                       (Z.of_nat (List.length history) - 1)
                       (line st) (lst st) (screen st ++ evs)%list).
Proof.
  intros H I. destruct (vec_at_last history H) as [item V].
  exists item. unfold up. destruct history as [|h0 hs]; [congruence|].
  rewrite I. cbn [Z.eqb Pos.eqb]. rewrite V. cbn [bind].
  eexists; split; reflexivity.
Qed.

(** Down on the newest entry: the saved buffer comes back. *)
Lemma down_leaves_navigation (history : list string) (st : state) :
  history <> [] ->
  history_index st = (Z.of_nat (List.length history) - 1)%Z ->
  exists evs,
    down history st
    = Some (mkState (current_line_backup st) (size (current_line_backup st))
                    (-1) (current_line_backup st) (lst st)
                    (screen st ++ evs)%list).
Proof.
  intros H I. unfold down. rewrite I.
  replace (Z.of_nat (List.length history) - 1 =? -1)%Z with false.
  2:{ symmetry. apply Z.eqb_neq.
      destruct history; [congruence | cbn [List.length]; lia]. }
  rewrite Z.ltb_irrefl. cbn [negb bind].
  eexists; reflexivity.
Qed.

(** Down outside navigation changes nothing and prints nothing. *)
Lemma down_not_navigating (history : list string) (st : state) :
  history_index st = (-1)%Z -> down history st = Some st.
Proof. intros I. unfold down. rewrite I. reflexivity. Qed.

(** Up on the oldest entry: the index stays 0 and entry 0 is shown
    again. *)
Lemma up_at_oldest (history : list string) (st : state) :
  history_index st = 0%Z ->
  forall item, nth_error history 0 = Some item ->
  exists evs,
    up history st
    = Some (mkState item (size item) 0 (current_line_backup st) (lst st)
                    (screen st ++ evs)%list).
Proof.
  intros I item V. unfold up. destruct history as [|h0 hs]; [discriminate|].
  rewrite I. cbn [Z.eqb Z.ltb Z.compare]. unfold vec_at.
  cbn [Z.leb Z.compare Z.to_nat]. rewrite V. cbn [bind].
  eexists; reflexivity.
Qed.

End Recall.

(** ** The Tab handler *)

Section TabFacts.

Import Str Completion Editor Props.

Lemma rfind_app_clean (c : ascii) (s t : string) :
  mem c t = false -> rfind c (s ++ t) = rfind c s.
Proof.
  intros H. induction s as [|a s IH]; cbn [append rfind].
  - now apply rfind_none.
  - now rewrite IH.
Qed.

(** The word is what follows the last space of the whole line. *)
Lemma word_to_complete_rfind (l : string) :
  word_to_complete l =
  Some (match rfind " " l with
        | Some space_pos => drop (S space_pos) l
        | None => l
        end).
Proof.
  unfold word_to_complete. destruct (rfind " " l) as [p|] eqn:E;
    [|reflexivity].
  apply rfind_lt in E. unfold substr_from.
  rewrite in_range_true by (unfold size; lia).
  replace (Z.to_nat (Z.of_nat p + 1)) with (S p) by lia. reflexivity.
Qed.

Lemma unique_match_single cwd word :
  unique_match (find_completion cwd word) word = true
  <-> List.length (find_completion cwd word) = 1.
Proof.
  unfold unique_match. rewrite test_find_completion.
  destruct (find_completion cwd word) as [|c l]; cbn [negb andb List.length].
  - split; [discriminate | lia].
  - rewrite Z.eqb_eq. lia.
Qed.

(** With no candidate at all, Tab rings the bell unless the previous
    key was Tab as well, in which case it does nothing. *)
Lemma tab_no_candidates cwd st w :
  word_to_complete (line st) = Some w ->
  find_completion cwd w = [] ->
  tab cwd st = Some (if (lst st =? 9)%Z then st else emit st [Beep]).
Proof.
  intros W E. unfold tab. rewrite W. cbn [bind]. rewrite E.
  unfold tab_dispatch. cbn. now destruct (lst st =? 9)%Z.
Qed.

End TabFacts.

(** ** The history store *)

Section ShellFacts.

Import Str Shell Props.

Lemma find_first_not_of_some (set s : string) (n : nat) :
  find_first_not_of set s = Some n ->
  exists a rest, drop n s = String a rest /\ mem a set = false.
Proof.
  revert n; induction s as [|a s IH]; cbn [find_first_not_of]; intros n H;
    [discriminate|].
  destruct (mem a set) eqn:M.
  - destruct (find_first_not_of set s) as [i|]; [|discriminate].
    inversion H; subst. cbn [drop]. now apply IH.
  - inversion H; subst. cbn [drop]. eauto.
Qed.

Lemma find_last_not_of_head (set : string) (a : ascii) (s : string) :
  mem a set = false ->
  exists n, find_last_not_of set (String a s) = Some n.
Proof.
  intros M. cbn [find_last_not_of].
  destruct (find_last_not_of set s); [eauto|]. rewrite M. eauto.
Qed.

(** A trimmed line is empty or starts with a character that is neither
    a space nor a tab. *)
Lemma trim_head (raw : string) :
  trim raw = "" \/
  exists a rest, trim raw = String a rest /\ mem a blanks = false.
Proof.
  unfold trim.
  destruct (find_first_not_of blanks raw) as [k|] eqn:F; [|now left].
  destruct (find_first_not_of_some _ _ _ F) as (a & rest & -> & M).
  destruct (find_last_not_of_head blanks a rest M) as [n ->].
  right. exists a, (take n rest). split; [reflexivity | exact M].
Qed.

Lemma command_of_nonempty (a : ascii) (rest : string) :
  mem a blanks = false -> empty (command_of (String a rest)) = false.
Proof.
  intros M. unfold command_of. cbn [find].
  destruct (Ascii.eqb_spec a " "%char) as [->|_]; [discriminate M|].
  destruct (find " " rest); reflexivity.
Qed.

End ShellFacts.

(** * The claims *)

(** C1. Whatever key arrives (a printable character, Backspace, Delete,
    an arrow, Tab, or a key the editor ignores), one pass of the loop of
    [readline] started with the cursor inside the buffer hands the next
    pass a state whose cursor is inside the buffer again; and the pass
    does complete (no exception, no invalid access) when in addition
    [history_index] is -1 or an index of the history, as it always is. *)
Theorem cursor_invariant_preserved
        (cwd : option (list string)) (history : list string)
        (st : Editor.state) (input : list Z) :
  Props.cursor_ok st ->
  (forall st' rest,
      Editor.readline_body cwd history st input = Editor.Next st' rest ->
      Props.cursor_ok st')
  /\ (Props.nav_ok history st ->
      Editor.readline_body cwd history st input <> Editor.Crashed).
Proof.
  intros H. split.
  - intros st' rest E. eapply readline_body_cursor_ok; eassumption.
  - intros N E. pose proof (readline_body_safe cwd history st input H N) as B.
    rewrite E in B. exact B.
Qed.

Lemma cursor_invariant_preserved_witness :
  Props.cursor_ok (Editor.mkState "ls" 1 (-1) "" 0 [])
  /\ Props.cursor_ok (Editor.mkState "s" 0 (-1) "" 8 [Editor.Write Editor.BS;
                        Editor.Write "s"; Editor.Write " ";
                        Editor.Write Editor.BS; Editor.Write Editor.BS]).
Proof.
  assert (H : Props.cursor_ok (Editor.mkState "ls" 1 (-1) "" 0 []))
    by (unfold Props.cursor_ok; cbn; lia).
  split; [exact H|].
  apply (proj1 (cursor_invariant_preserved None [] _ [8%Z] H) _ []).
  reflexivity.
Defined.

(** C2, as stated, fails: with the buffer ["cd src"], the cursor after
    ["cd"] and one history entry, Up followed by Down brings the buffer
    back but leaves the cursor at the end of the line, not where it was. *)
Lemma up_down_cursor_counterexample :
  Props.cursor_ok (Editor.mkState "cd src" 2 (-1) "" 0 [])
  /\ exists st1 st2,
      Editor.up ["ls"] (Editor.mkState "cd src" 2 (-1) "" 0 []) = Some st1
      /\ Editor.down ["ls"] st1 = Some st2
      /\ Editor.line st2 = "cd src"
      /\ Editor.cursor_pos st2 = 6%Z
      /\ Editor.cursor_pos st2
         <> Editor.cursor_pos (Editor.mkState "cd src" 2 (-1) "" 0 []).
Proof.
  split; [unfold Props.cursor_ok; cbn; lia|].
  do 2 eexists. split; [reflexivity|]. split; [reflexivity|].
  cbn. repeat split; discriminate.
Qed.

(** C2, amended. From any buffer and cursor, outside navigation and with
    a non-empty history, Up then Down restores the buffer exactly, leaves
    navigation, and puts the cursor at the end of the restored buffer; the
    cursor is therefore back at its former value exactly when it was at
    the end of the buffer before Up. *)
Theorem up_then_down_restores_buffer
        (history : list string) (st : Editor.state) :
  history <> [] -> Editor.history_index st = (-1)%Z ->
  exists st1 st2,
    Editor.up history st = Some st1
    /\ Editor.down history st1 = Some st2
    /\ Editor.line st2 = Editor.line st
    /\ Editor.history_index st2 = (-1)%Z
    /\ Editor.cursor_pos st2 = Str.size (Editor.line st)
    /\ (Editor.cursor_pos st2 = Editor.cursor_pos st
        <-> Editor.cursor_pos st = Str.size (Editor.line st)).
Proof.
  intros H I.
  destruct (up_enters_navigation history st H I) as (item & evs & _ & U).
  destruct (down_leaves_navigation history
              (Editor.mkState item (Str.size item)
                 (Z.of_nat (List.length history) - 1)
                 (Editor.line st) (Editor.lst st) (Editor.screen st ++ evs)%list)
              H eq_refl) as [evs' D].
  do 2 eexists. split; [exact U|]. split; [exact D|].
  cbn [Editor.line Editor.cursor_pos Editor.history_index
       Editor.current_line_backup].
  repeat split; auto; intros E; congruence.
Qed.

Lemma up_then_down_restores_buffer_witness :
  exists st1 st2,
    Editor.up ["cd /tmp"; "ls -a"] (Editor.mkState "ec" 1 (-1) "" 0 []) = Some st1
    /\ Editor.down ["cd /tmp"; "ls -a"] st1 = Some st2
    /\ Editor.line st2 = "ec"
    /\ Editor.history_index st2 = (-1)%Z
    /\ Editor.cursor_pos st2 = Str.size "ec"
    /\ (Editor.cursor_pos st2 = 1%Z <-> 1%Z = Str.size "ec").
Proof.
  apply (up_then_down_restores_buffer ["cd /tmp"; "ls -a"]
           (Editor.mkState "ec" 1 (-1) "" 0 [])).
  - discriminate.
  - reflexivity.
Defined.

(** C3, as stated, fails: with the buffer ["c"] (candidates [cat] and
    [cd]) and a previous key other than Tab, the Tab press leaves buffer
    and cursor alone and prints nothing, but it does ring the bell. *)
Lemma ambiguous_first_tab_counterexample :
  Editor.word_to_complete "c" = Some "c"
  /\ Completion.find_completion None "c" = ["cat"; "cd"]
  /\ Editor.tab None (Editor.mkState "c" 1 (-1) "" 99 [])
     = Some (Editor.mkState "c" 1 (-1) "" 99 [Editor.Beep])
  /\ [Editor.Beep] <> @nil Editor.term_event.
Proof. repeat split; discriminate. Qed.

(** C3, amended. When a Tab press finds several candidates and [lst],
    the handler's record of the character read last, is not Tab, the
    buffer, the cursor and the navigation state are unchanged, no text is
    printed and the bell rings exactly once.  This is the case whenever a
    key other than Tab was read just before the Tab in the same call of
    [readline] (for an arrow, its second byte).  When Tab is the first key
    of a call there is no such key and [lst] holds whatever it was left
    with: if that happens to be Tab, the candidates are listed instead
    and the bell does not ring. *)
Theorem ambiguous_first_tab_rings_bell
        (cwd : option (list string)) (history : list string)
        (st : Editor.state) (t : Z) (rest : list Z) (w : string) :
  Editor.to_char t = 9%Z ->
  Editor.word_to_complete (Editor.line st) = Some w ->
  1 < List.length (Completion.find_completion cwd w) ->
  (Editor.lst st <> 9%Z ->
   Editor.readline_body cwd history st (t :: rest)
   = Editor.Next (Editor.set_lst (Editor.emit st [Editor.Beep]) 9) rest)
  /\ (forall st0 pre k,
         Editor.readline_body cwd history st0 (pre ++ k :: t :: rest)
         = Editor.Next st (t :: rest) ->
         Editor.to_char k <> 9%Z ->
         Editor.readline_body cwd history st (t :: rest)
         = Editor.Next (Editor.set_lst (Editor.emit st [Editor.Beep]) 9) rest)
  /\ (Editor.lst st = 9%Z ->
      Editor.readline_body cwd history st (t :: rest)
      = Editor.Next
          (Editor.set_lst
             (Editor.emit st
                ([Editor.Write Editor.NL]
                 ++ flat_map (fun cmd => [Editor.Write cmd;
                                          Editor.Write "    "])
                             (Completion.find_completion cwd w)
                 ++ [Editor.Write Editor.NL; Editor.Write "$ ";
                     Editor.Write (Editor.line st)]
                 ++ repeat (Editor.Write Editor.BS)
                      (Z.to_nat (Str.size (Editor.line st)
                                 - Editor.cursor_pos st)))%list) 9)
          rest).
Proof.
  intros T W M.
  assert (R : Editor.lst st <> 9%Z ->
              Editor.readline_body cwd history st (t :: rest)
              = Editor.Next
                  (Editor.set_lst (Editor.emit st [Editor.Beep]) 9) rest).
  { intros L. rewrite (readline_body_tab cwd history st t rest T).
    unfold Editor.tab. rewrite W. cbn [bind]. unfold Editor.tab_dispatch.
    apply Z.eqb_neq in L. rewrite L.
    destruct (Editor.unique_match _ w) eqn:U; [|reflexivity].
    apply unique_match_single in U. lia. }
  split; [exact R|]. split.
  - intros st0 pre k E K. apply R.
    destruct (readline_body_lst _ _ _ _ _ _ E) as (pre' & k' & I & L).
    apply last_key_unique in I. subst k'. now rewrite L.
  - intros L. rewrite (readline_body_tab cwd history st t rest T).
    unfold Editor.tab. rewrite W. cbn [bind]. unfold Editor.tab_dispatch.
    rewrite L.
    replace (1 <? Z.of_nat (List.length (Completion.find_completion cwd w)))%Z
      with true by (symmetry; apply Z.ltb_lt; lia).
    reflexivity.
Qed.

(** The key [e] and then Tab in a fresh call: [echo] and [exit] are both
    candidates, the bell rings and the line stays as it is. *)
Lemma ambiguous_first_tab_rings_bell_witness :
  Editor.readline_body None [] (Editor.initial 9) [101; 9]%Z
  = Editor.Next (Editor.mkState "e" 1 (-1) "" 101 [Editor.Write "e"]) [9%Z]
  /\ Editor.readline_body None []
       (Editor.mkState "e" 1 (-1) "" 101 [Editor.Write "e"]) [9%Z]
     = Editor.Next
         (Editor.mkState "e" 1 (-1) "" 9 [Editor.Write "e"; Editor.Beep]) [].
Proof.
  split; [reflexivity|].
  apply (proj1 (proj2 (ambiguous_first_tab_rings_bell None []
                         (Editor.mkState "e" 1 (-1) "" 101 [Editor.Write "e"])
                         9 [] "e" eq_refl eq_refl
                         ltac:(vm_compute; lia)))
           (Editor.initial 9) [] 101%Z).
  - reflexivity.
  - discriminate.
Defined.

(** C4, as stated, fails: in the buffer ["cd src"] with the cursor right
    after ["cd"] no space precedes the cursor, so the claimed word is the
    whole buffer, yet the word handed to [find_completion] is ["src"]. *)
Lemma word_ignores_cursor_counterexample :
  Props.cursor_ok (Editor.mkState "cd src" 2 (-1) "" 100 [])
  /\ Props.claimed_word "cd src" 2 = "cd src"
  /\ Editor.word_to_complete "cd src" = Some "src"
  /\ "src" <> Props.claimed_word "cd src" 2.
Proof.
  split; [unfold Props.cursor_ok; cbn; lia|].
  repeat split; discriminate.
Qed.

(** C4, amended. On every Tab press the word handed to the completion
    source is the part of the buffer after the last space of the whole
    buffer (the whole buffer when it has no space), wherever the cursor
    is; it is the claimed word whenever no space lies at or after the
    cursor, in particular when the cursor is at the end. *)
Theorem word_to_complete_is_trailing_word (l : string) :
  exists w,
    Editor.word_to_complete l = Some w
    /\ Str.mem " " w = false
    /\ ((Str.mem " " l = false /\ w = l)
        \/ exists before, l = before ++ String " " w)
    /\ (forall cursor,
          (0 <= cursor <= Str.size l)%Z ->
          Str.mem " " (Str.drop (Z.to_nat cursor) l) = false ->
          Props.claimed_word l cursor = w).
Proof.
  rewrite word_to_complete_rfind. eexists. split; [reflexivity|].
  assert (C : forall cursor,
             Str.mem " " (Str.drop (Z.to_nat cursor) l) = false ->
             Str.rfind " " (Str.take (Z.to_nat cursor) l) = Str.rfind " " l).
  { intros cursor M. rewrite <- (take_drop (Z.to_nat cursor) l) at 2.
    symmetry. now apply rfind_app_clean. }
  destruct (Str.rfind " " l) as [p|] eqn:E.
  - destruct (rfind_some _ _ _ E) as [S M].
    split; [exact M|]. split.
    + right. exists (Str.take p l). exact S.
    + intros cursor _ D. unfold Props.claimed_word. now rewrite (C cursor D).
  - split; [now apply rfind_none|]. split.
    + left. split; [now apply rfind_none | reflexivity].
    + intros cursor _ D. unfold Props.claimed_word. now rewrite (C cursor D).
Qed.

Lemma word_to_complete_is_trailing_word_witness :
  Props.claimed_word "cat ma" 6 = "ma".
Proof.
  destruct (word_to_complete_is_trailing_word "cat ma") as (w & W & _ & _ & C).
  injection W as <-.
  apply C.
  - unfold Str.size. cbn. lia.
  - reflexivity.
Defined.

(** C5. [find_completion] answers from the built-in commands whenever one
    of them starts with [partial] (byte-wise, case-sensitive), whatever
    the current directory holds; otherwise it answers with the entries of
    the current directory that start with [partial] and do not start with
    a dot; and with nothing when neither tier has a match. *)
Theorem find_completion_tiers (cwd : option (list string)) (partial : string) :
  let tier1 := filter (fun cmd => prefix partial cmd) Completion.commands in
  let tier2 :=
    match cwd with
    | Some entries =>
        filter (fun name => negb (prefix "." name) && prefix partial name) entries
    | None => []
    end in
  (tier1 <> [] ->
   Completion.find_completion cwd partial = tier1 /\
   forall cwd', Completion.find_completion cwd' partial = tier1)
  /\ (tier1 = [] -> Completion.find_completion cwd partial = tier2)
  /\ (tier1 = [] -> tier2 = [] -> Completion.find_completion cwd partial = []).
Proof.
  cbv zeta.
  assert (E1 : Completion.scan_commands partial
               = filter (fun cmd => prefix partial cmd) Completion.commands).
  { unfold Completion.scan_commands. apply filter_ext_bool.
    intros x. apply has_prefix_prefix. }
  assert (E2 : forall entries,
             Completion.scan_dir partial entries
             = filter (fun name => negb (prefix "." name) && prefix partial name)
                      entries).
  { intros entries. rewrite scan_dir_filter. apply filter_ext_bool.
    intros x. now rewrite hidden_prefix, has_prefix_prefix. }
  unfold Completion.find_completion. rewrite E1.
  destruct (filter (fun cmd => prefix partial cmd) Completion.commands)
    as [|c l].
  - split; [congruence|]. split.
    + intros _. destruct cwd as [entries|]; [|reflexivity].
      rewrite E2. now destruct (filter _ entries).
    + intros _ H. destruct cwd as [entries|]; [|reflexivity].
      rewrite E2, H. reflexivity.
  - split; [|split; discriminate].
    intros _. split; [reflexivity|]. intros cwd'. reflexivity.
Qed.

Lemma find_completion_tiers_witness :
  Completion.find_completion (Some ["notes.txt"; ".echo"]) "ec" = ["echo"]
  /\ Completion.find_completion (Some ["main.cpp"; ".mailrc"; "README"; "makefile"]) "ma"
     = ["main.cpp"; "makefile"]
  /\ Completion.find_completion (Some ["main.cpp"]) "zz" = [].
Proof.
  split; [|split].
  - apply (proj1 (find_completion_tiers (Some ["notes.txt"; ".echo"]) "ec")).
    vm_compute. discriminate.
  - apply (proj1 (proj2 (find_completion_tiers
                           (Some ["main.cpp"; ".mailrc"; "README"; "makefile"]) "ma"))).
    vm_compute. reflexivity.
  - apply (proj2 (proj2 (find_completion_tiers (Some ["main.cpp"]) "zz")));
      vm_compute; reflexivity.
Defined.

(** C6: the code at the failing input.  Typing [zz] and pressing Tab
    twice with nothing to complete rings the bell on the first Tab only:
    the second Tab, whose previous key is Tab, finds no candidate and
    emits nothing. *)
Theorem second_tab_without_candidates_is_silent :
  Completion.find_completion (Some []) "zz" = []
  /\ Editor.readline (Some []) [] 0 [122; 122; 9]%Z
     = Editor.Waiting
         (Editor.mkState "zz" 2 (-1) "" 9
            [Editor.Write "z"; Editor.Write "z"; Editor.Beep])
  /\ Editor.tab (Some [])
       (Editor.mkState "zz" 2 (-1) "" 9
          [Editor.Write "z"; Editor.Write "z"; Editor.Beep])
     = Some (Editor.mkState "zz" 2 (-1) "" 9
               [Editor.Write "z"; Editor.Write "z"; Editor.Beep])
  /\ Editor.readline (Some []) [] 0 [122; 122; 9; 9]%Z
     = Editor.Waiting
         (Editor.mkState "zz" 2 (-1) "" 9
            [Editor.Write "z"; Editor.Write "z"; Editor.Beep]).
Proof. repeat split. Qed.

(** C7, as stated, fails: after Up (recalling the only entry ["ls"]) and
    Left, the editor is at history index 0 with the cursor at 1; a further
    Up keeps the index at 0 but moves the cursor back to 2. *)
Lemma up_at_oldest_counterexample :
  Editor.readline None ["ls"] 0 [224; 72; 224; 75]%Z
  = Editor.Waiting
      (Editor.mkState "ls" 1 0 "" 75
         [Editor.Write "ls"; Editor.Write Editor.BS])
  /\ exists st',
      Editor.up ["ls"]
        (Editor.mkState "ls" 1 0 "" 75
           [Editor.Write "ls"; Editor.Write Editor.BS]) = Some st'
      /\ Editor.history_index st' = 0%Z
      /\ Editor.cursor_pos st' = 2%Z
      /\ Editor.cursor_pos st' <> 1%Z.
Proof.
  split; [reflexivity|].
  eexists. split; [reflexivity|]. cbn. repeat split; discriminate.
Qed.

(** C7, amended. At history index 0 a further Up leaves the index at 0
    (it neither goes below 0 nor wraps around) and shows entry 0 again
    with the cursor at its end, so that buffer and cursor are unchanged
    whenever the buffer still is that entry with the cursor at its end;
    Down on the newest entry restores the saved buffer and leaves
    navigation; and outside navigation Down changes nothing at all, so
    navigation is not entered again. *)
Theorem history_navigation_clamped
        (history : list string) (st : Editor.state) :
  Props.nav_ok history st ->
  (Editor.history_index st = 0%Z ->
   exists item st',
     nth_error history 0 = Some item
     /\ Editor.up history st = Some st'
     /\ Editor.history_index st' = 0%Z
     /\ Editor.line st' = item
     /\ Editor.cursor_pos st' = Str.size item
     /\ (Editor.line st = item ->
         Editor.cursor_pos st = Str.size item ->
         Editor.line st' = Editor.line st
         /\ Editor.cursor_pos st' = Editor.cursor_pos st))
  /\ (Editor.history_index st = (Z.of_nat (List.length history) - 1)%Z ->
      history <> [] ->
      exists st',
        Editor.down history st = Some st'
        /\ Editor.line st' = Editor.current_line_backup st
        /\ Editor.history_index st' = (-1)%Z
        /\ Editor.down history st' = Some st')
  /\ (Editor.history_index st = (-1)%Z -> Editor.down history st = Some st).
Proof.
  intros N. split; [|split].
  - intros I. unfold Props.nav_ok in N.
    destruct history as [|item hs]; [cbn [List.length] in N; lia|].
    destruct (up_at_oldest (item :: hs) st I item eq_refl) as [evs U].
    exists item. eexists. split; [reflexivity|]. split; [exact U|].
    cbn [Editor.line Editor.cursor_pos Editor.history_index].
    repeat split; congruence.
  - intros I H. destruct (down_leaves_navigation history st H I) as [evs D].
    eexists. split; [exact D|].
    cbn [Editor.line Editor.history_index].
    split; [reflexivity|]. split; [reflexivity|].
    apply down_not_navigating. reflexivity.
  - apply down_not_navigating.
Qed.

Lemma history_navigation_clamped_witness :
  (exists item st',
     nth_error ["cd /tmp"; "ls -a"] 0 = Some item
     /\ Editor.up ["cd /tmp"; "ls -a"]
          (Editor.mkState "cd /tmp" 7 0 "" 72 []) = Some st'
     /\ Editor.history_index st' = 0%Z
     /\ Editor.line st' = item
     /\ Editor.cursor_pos st' = Str.size item
     /\ ("cd /tmp" = item -> 7%Z = Str.size item ->
         Editor.line st' = "cd /tmp" /\ Editor.cursor_pos st' = 7%Z)).
Proof.
  apply (proj1 (history_navigation_clamped ["cd /tmp"; "ls -a"]
                  (Editor.mkState "cd /tmp" 7 0 "" 72 [])
                  ltac:(unfold Props.nav_ok; cbn; lia))).
  reflexivity.
Defined.

(** C8. Typing printable characters only (key codes 32 to 126) into a
    fresh [readline] leaves the editor waiting for the next key with a
    buffer that is exactly the typed characters in the order of arrival
    and with the cursor at the end of it; Enter then returns that text. *)
Theorem printable_keys_build_line
        (cwd : option (list string)) (history : list string) (lst0 : Z)
        (keys : list Z) :
  Forall (fun k => (32 <= k <= 126)%Z) keys ->
  let text := string_of_list_ascii (map (fun k => ascii_of_N (Z.to_N k)) keys) in
  (exists st,
      Editor.readline cwd history lst0 keys = Editor.Waiting st
      /\ Editor.line st = text
      /\ Editor.cursor_pos st = Str.size text)
  /\ (exists st,
         Editor.readline cwd history lst0 (keys ++ [13%Z])%list
         = Editor.Returned text st).
Proof.
  intros H text. unfold Editor.readline.
  assert (T : Props.typed keys = text) by (apply typed_printable; exact H).
  split.
  - destruct (readline_loop_printable cwd history keys H
                (S (List.length keys)) (Editor.initial lst0))
      as (st & E & E1 & E2 & _); [lia | reflexivity |].
    exists st. cbn [Editor.initial Editor.line append] in E1.
    rewrite E1 in E2. rewrite T in *. auto.
  - destruct (readline_loop_printable_enter cwd history keys H
                (S (List.length (keys ++ [13%Z]))) (Editor.initial lst0))
      as (st & E); [rewrite List.length_app; lia | reflexivity |].
    exists st. rewrite E. cbn [Editor.initial Editor.line append].
    now rewrite c_str_typed, T.
Qed.

Lemma printable_keys_build_line_witness :
  (exists st,
      Editor.readline None [] 0 [108; 115; 32; 45; 97]%Z = Editor.Waiting st
      /\ Editor.line st = "ls -a"
      /\ Editor.cursor_pos st = 5%Z)
  /\ (exists st,
         Editor.readline None [] 0 ([108; 115; 32; 45; 97] ++ [13])%list%Z
         = Editor.Returned "ls -a" st).
Proof.
  apply (printable_keys_build_line None [] 0 [108; 115; 32; 45; 97]%Z).
  repeat constructor; lia.
Defined.

(** C10, as stated, fails in its last part: with the buffer ["ec"] the
    only candidate is [echo], but when the previous key was Tab the
    handler does not take the unique-completion branch and leaves the
    buffer as it is. *)
Lemma unique_branch_gated_counterexample :
  Completion.find_completion None "ec" = ["echo"]
  /\ Editor.tab_dispatch 9 (Completion.find_completion None "ec") "ec"
     = Editor.DoNothing
  /\ Editor.tab_dispatch 9 (Completion.find_completion None "ec") "ec"
     <> Editor.ReplaceWord
  /\ Editor.tab None (Editor.mkState "ec" 2 (-1) "" 9 [])
     = Some (Editor.mkState "ec" 2 (-1) "" 9 []).
Proof. repeat split. discriminate. Qed.

(** C10, amended. For every partial string the counter [test] applied to
    the candidates [find_completion] returns is the number of those
    candidates, so the guard of the unique-completion branch holds
    exactly when there is a single candidate; the branch itself is taken
    exactly when there is a single candidate and the previous key was not
    Tab. *)
Theorem test_counts_every_candidate
        (cwd : option (list string)) (p : string) (lst_ : Z) :
  Completion.test (Completion.find_completion cwd p) p
  = Z.of_nat (List.length (Completion.find_completion cwd p))
  /\ (Editor.unique_match (Completion.find_completion cwd p) p = true
      <-> List.length (Completion.find_completion cwd p) = 1)
  /\ (Editor.tab_dispatch lst_ (Completion.find_completion cwd p) p
      = Editor.ReplaceWord
      <-> lst_ <> 9%Z /\ List.length (Completion.find_completion cwd p) = 1).
Proof.
  split; [apply test_find_completion|]. split; [apply unique_match_single|].
  unfold Editor.tab_dispatch. destruct (Z.eqb_spec lst_ 9) as [E|N].
  - split.
    + destruct (1 <? _)%Z; discriminate.
    + intros [H _]. congruence.
  - rewrite <- unique_match_single.
    destruct (Editor.unique_match _ p); split; auto; try discriminate.
    intros [_ H]. discriminate.
Qed.

(** * Further properties *)

(** ** Editing keys *)

Section EditingFacts.

Import Str Completion Editor Props Notions.

Lemma drop_app_exact (s t : string) : drop (String.length s) (s ++ t) = t.
Proof. induction s as [|a s IH]; cbn [String.length append drop]; auto. Qed.

Lemma drop_app_skip (s : string) (c : ascii) (t : string) :
  drop (S (String.length s)) (s ++ String c t) = t.
Proof.
  induction s as [|a s IH]; cbn [String.length append]; [reflexivity|].
  exact IH.
Qed.

Lemma take_app_at (n : nat) (s t : string) :
  String.length s = n -> take n (s ++ t) = s.
Proof. intros <-. apply take_app_exact. Qed.

Lemma drop_app_skip_at (n : nat) (s : string) (c : ascii) (t : string) :
  String.length s = n -> drop (S n) (s ++ String c t) = t.
Proof. intros <-. apply drop_app_skip. Qed.

Lemma length_take_le (n : nat) (s : string) :
  n <= String.length s -> String.length (take n s) = n.
Proof. intros H. rewrite length_take. lia. Qed.

Lemma empty_app_cons (s : string) (c : ascii) (t : string) :
  empty (s ++ String c t) = false.
Proof. destruct s; reflexivity. Qed.

(** What the three editing handlers do to the buffer, inside range. *)
Lemma insert_char_spec (ch : Z) (st : state) :
  cursor_ok st ->
  exists evs,
    insert_char ch st
    = Some (mkState
              (take (Z.to_nat (cursor_pos st)) (line st)
               ++ String (char_byte ch) (drop (Z.to_nat (cursor_pos st)) (line st)))
              (cursor_pos st + 1) (history_index st)
              (current_line_backup st) (lst st) (screen st ++ evs)%list).
Proof.
  intros H. unfold cursor_ok in H. unfold insert_char, insert1.
  rewrite in_range_true by lia. cbn [bind].
  unfold substr_from. rewrite in_range_true by (rewrite size_inserted; lia).
  cbn [bind]. eexists. reflexivity.
Qed.

Lemma erase1_spec (s : string) (pos : Z) :
  (0 <= pos <= size s)%Z ->
  erase1 s pos = Some (take (Z.to_nat pos) s ++ drop (S (Z.to_nat pos)) s).
Proof. intros H. unfold erase1. now rewrite in_range_true. Qed.

Lemma erased_size_le (s : string) (pos : Z) :
  (0 <= pos <= size s)%Z ->
  (pos <= size (take (Z.to_nat pos) s ++ drop (S (Z.to_nat pos)) s) <= size s)%Z.
Proof.
  intros H. unfold size in *.
  rewrite length_append, length_take, length_drop. lia.
Qed.

Lemma backspace_spec (st : state) :
  cursor_ok st -> (0 < cursor_pos st)%Z ->
  exists evs,
    backspace st
    = Some (mkState
              (take (Z.to_nat (cursor_pos st - 1)) (line st)
               ++ drop (S (Z.to_nat (cursor_pos st - 1))) (line st))
              (cursor_pos st - 1) (history_index st)
              (current_line_backup st) (lst st) (screen st ++ evs)%list).
Proof.
  intros H P. unfold cursor_ok in H. unfold backspace.
  destruct (line st) as [|a l] eqn:L.
  { unfold size in H. cbn in H. lia. }
  rewrite <- L in *. replace (empty (line st)) with false by now rewrite L.
  replace (0 <? cursor_pos st)%Z with true by (symmetry; apply Z.ltb_lt; lia).
  cbn [negb andb]. rewrite erase1_spec by lia. cbn [bind].
  unfold substr_from. rewrite in_range_true.
  2:{ pose proof (erased_size_le (line st) (cursor_pos st - 1)). lia. }
  cbn [bind]. eexists. reflexivity.
Qed.

Lemma delete_spec (st : state) :
  cursor_ok st -> (cursor_pos st < size (line st))%Z ->
  exists evs,
    delete st
    = Some (mkState
              (take (Z.to_nat (cursor_pos st)) (line st)
               ++ drop (S (Z.to_nat (cursor_pos st))) (line st))
              (cursor_pos st) (history_index st)
              (current_line_backup st) (lst st) (screen st ++ evs)%list).
Proof.
  intros H P. unfold cursor_ok in H. unfold delete.
  destruct (line st) as [|a l] eqn:L.
  { unfold size in P, H. cbn in P, H. lia. }
  rewrite <- L in *. replace (empty (line st)) with false by now rewrite L.
  replace (cursor_pos st <? size (line st))%Z with true
    by (symmetry; apply Z.ltb_lt; lia).
  cbn [negb andb]. rewrite erase1_spec by lia. cbn [bind].
  unfold substr_from. rewrite in_range_true.
  2:{ pose proof (erased_size_le (line st) (cursor_pos st)). lia. }
  cbn [bind]. eexists. reflexivity.
Qed.

Lemma left_spec (st : state) :
  (0 < cursor_pos st)%Z ->
  left st = Some (mkState (line st) (cursor_pos st - 1) (history_index st)
                          (current_line_backup st) (lst st)
                          (screen st ++ [Write BS])%list).
Proof.
  intros P. unfold left.
  replace (0 <? cursor_pos st)%Z with true by (symmetry; apply Z.ltb_lt; lia).
  reflexivity.
Qed.

Lemma get_in_range (s : string) (n : nat) :
  n < String.length s -> exists c, get n s = Some c.
Proof.
  revert n; induction s as [|a s IH]; intros [|n]; cbn [get String.length];
    intros H; try lia; eauto.
  apply IH. lia.
Qed.

Lemma right_spec (st : state) :
  cursor_ok st -> (cursor_pos st < size (line st))%Z ->
  exists evs,
    right st = Some (mkState (line st) (cursor_pos st + 1) (history_index st)
                             (current_line_backup st) (lst st)
                             (screen st ++ evs)%list).
Proof.
  intros H P. unfold cursor_ok in H. unfold right.
  replace (cursor_pos st <? size (line st))%Z with true
    by (symmetry; apply Z.ltb_lt; lia).
  unfold at_.
  replace (0 <=? cursor_pos st + 1 - 1)%Z with true
    by (symmetry; apply Z.leb_le; lia).
  destruct (get_in_range (line st) (Z.to_nat (cursor_pos st + 1 - 1)))
    as [c ->]; [unfold size in P; lia|].
  cbn [bind]. eexists. reflexivity.
Qed.

End EditingFacts.

(** X1. Whatever keys arrive, [readline] started afresh never throws and
    never indexes outside the history: it returns the line, exits with
    status 1, or waits for the next key with the cursor inside the buffer
    and the history index at -1 or inside the history. *)
Theorem readline_never_fails
        (cwd : option (list string)) (history : list string) (lst0 : Z)
        (input : list Z) :
  (exists result st,
      Editor.readline cwd history lst0 input = Editor.Returned result st)
  \/ Editor.readline cwd history lst0 input = Editor.Exited 1
  \/ (exists st,
         Editor.readline cwd history lst0 input = Editor.Waiting st
         /\ Props.cursor_ok st /\ Props.nav_ok history st).
Proof.
  pose proof (readline_safe cwd history lst0 input) as S.
  assert (E : forall fuel st keys code,
             Editor.readline_loop fuel cwd history st keys = Editor.Exited code ->
             code = 1%Z).
  { induction fuel as [|fuel IH]; intros st keys code; cbn [Editor.readline_loop];
      [discriminate|].
    destruct (Editor.readline_body cwd history st keys) as [s r| | c | |] eqn:B;
      try discriminate.
    - apply IH.
    - intros X; inversion X; subst. revert B. unfold Editor.readline_body.
      destruct keys as [|k keys]; [discriminate|].
      destruct (Editor.to_char k =? 13)%Z; [discriminate|].
      destruct (_ || _); [destruct (Editor.backspace st); discriminate|].
      destruct (Editor.to_char k =? 9)%Z;
        [destruct (Editor.tab cwd st); discriminate|].
      destruct (_ || _).
      { destruct keys as [|k2 keys]; [discriminate|].
        destruct (if (Editor.to_char k2 =? 72)%Z then _ else _); discriminate. }
      destruct (_ && _); [destruct (Editor.insert_char _ st); discriminate|].
      destruct (Editor.to_char k =? 4)%Z; [congruence|discriminate]. }
  destruct (Editor.readline cwd history lst0 input) as [s r|r s|c|s|] eqn:R;
    try contradiction.
  - left. eauto.
  - right. left. f_equal. eapply E. exact R.
  - right. right. eauto.
Qed.

(** X2. Typing a character and pressing Backspace right after it gives
    back the buffer and the cursor, wherever in the buffer the cursor
    was. *)
Theorem insert_then_backspace (ch : Z) (st : Editor.state) :
  Props.cursor_ok st ->
  exists st1 st2,
    Editor.insert_char ch st = Some st1
    /\ Editor.backspace st1 = Some st2
    /\ Editor.line st2 = Editor.line st
    /\ Editor.cursor_pos st2 = Editor.cursor_pos st
    /\ Editor.history_index st2 = Editor.history_index st
    /\ Editor.current_line_backup st2 = Editor.current_line_backup st.
Proof.
  intros H. destruct (insert_char_spec ch st H) as [evs E1].
  pose proof H as H'. unfold Props.cursor_ok in H'.
  set (n := Z.to_nat (Editor.cursor_pos st)) in *.
  assert (Ln : n <= String.length (Editor.line st))
    by (unfold Str.size in H'; lia).
  match type of E1 with _ = Some ?s => set (st1 := s) in * end.
  assert (C1 : Props.cursor_ok st1).
  { unfold Props.cursor_ok, st1. cbn [Editor.line Editor.cursor_pos].
    fold n. unfold n. rewrite size_inserted by lia. lia. }
  destruct (backspace_spec st1 C1) as [evs2 E2];
    [unfold st1; cbn [Editor.cursor_pos]; lia|].
  exists st1. eexists. split; [exact E1|]. split; [exact E2|].
  cbn [Editor.line Editor.cursor_pos Editor.history_index
       Editor.current_line_backup].
  unfold st1. cbn [Editor.line Editor.cursor_pos Editor.history_index
                   Editor.current_line_backup].
  replace (Z.to_nat (Editor.cursor_pos st + 1 - 1)) with n by lia.
  repeat split; try lia.
  rewrite take_app_at, drop_app_skip_at by (apply length_take_le; exact Ln).
  apply take_drop.
Qed.

Lemma insert_then_backspace_witness :
  exists st1 st2,
    Editor.insert_char 120 (Editor.mkState "cd src" 2 (-1) "" 0 []) = Some st1
    /\ Editor.backspace st1 = Some st2
    /\ Editor.line st2 = "cd src"
    /\ Editor.cursor_pos st2 = 2%Z
    /\ Editor.history_index st2 = (-1)%Z
    /\ Editor.current_line_backup st2 = "".
Proof.
  apply (insert_then_backspace 120 (Editor.mkState "cd src" 2 (-1) "" 0 [])).
  unfold Props.cursor_ok. cbn. lia.
Defined.

(** X3. Left then Right, wherever the cursor can move left, and Right
    then Left, wherever it can move right, bring the cursor back and
    leave the buffer alone. *)
Theorem left_right_cancel (st : Editor.state) :
  Props.cursor_ok st ->
  ((0 < Editor.cursor_pos st)%Z ->
   exists st1 st2,
     Editor.left st = Some st1 /\ Editor.right st1 = Some st2
     /\ Editor.cursor_pos st1 = (Editor.cursor_pos st - 1)%Z
     /\ Editor.line st2 = Editor.line st
     /\ Editor.cursor_pos st2 = Editor.cursor_pos st)
  /\ ((Editor.cursor_pos st < Str.size (Editor.line st))%Z ->
      exists st1 st2,
        Editor.right st = Some st1 /\ Editor.left st1 = Some st2
        /\ Editor.cursor_pos st1 = (Editor.cursor_pos st + 1)%Z
        /\ Editor.line st2 = Editor.line st
        /\ Editor.cursor_pos st2 = Editor.cursor_pos st).
Proof.
  intros H. pose proof H as H'. unfold Props.cursor_ok in H'. split; intros P.
  - pose proof (left_spec st P) as E1.
    match type of E1 with _ = Some ?s => set (st1 := s) in * end.
    destruct (right_spec st1) as [evs E2].
    + unfold Props.cursor_ok, st1. cbn [Editor.line Editor.cursor_pos]. lia.
    + unfold st1. cbn [Editor.line Editor.cursor_pos]. lia.
    + exists st1. eexists. split; [exact E1|]. split; [exact E2|].
      unfold st1. cbn [Editor.line Editor.cursor_pos]. repeat split; lia.
  - destruct (right_spec st H P) as [evs E1].
    match type of E1 with _ = Some ?s => set (st1 := s) in * end.
    pose proof (left_spec st1) as E2.
    exists st1. eexists. split; [exact E1|]. split.
    + apply E2. unfold st1. cbn [Editor.cursor_pos]. lia.
    + unfold st1. cbn [Editor.line Editor.cursor_pos]. repeat split; lia.
Qed.

Lemma left_right_cancel_witness :
  exists st1 st2,
    Editor.left (Editor.mkState "ls" 1 (-1) "" 0 []) = Some st1
    /\ Editor.right st1 = Some st2
    /\ Editor.cursor_pos st1 = (1 - 1)%Z
    /\ Editor.line st2 = "ls"
    /\ Editor.cursor_pos st2 = 1%Z.
Proof.
  apply (proj1 (left_right_cancel (Editor.mkState "ls" 1 (-1) "" 0 [])
                  ltac:(unfold Props.cursor_ok; cbn; lia))).
  cbn. lia.
Defined.

(** X4. Left followed by Delete removes the same character as Backspace
    and leaves the cursor at the same place. *)
Theorem left_delete_is_backspace (st : Editor.state) :
  Props.cursor_ok st -> (0 < Editor.cursor_pos st)%Z ->
  exists st1 st2 st3,
    Editor.left st = Some st1 /\ Editor.delete st1 = Some st2
    /\ Editor.backspace st = Some st3
    /\ Editor.line st2 = Editor.line st3
    /\ Editor.cursor_pos st2 = Editor.cursor_pos st3
    /\ Str.size (Editor.line st3) = (Str.size (Editor.line st) - 1)%Z.
Proof.
  intros H P. pose proof H as H'. unfold Props.cursor_ok in H'.
  pose proof (left_spec st P) as E1.
  match type of E1 with _ = Some ?s => set (st1 := s) in * end.
  destruct (delete_spec st1) as [evs2 E2].
  { unfold Props.cursor_ok, st1. cbn [Editor.line Editor.cursor_pos]. lia. }
  { unfold st1. cbn [Editor.line Editor.cursor_pos]. lia. }
  destruct (backspace_spec st H P) as [evs3 E3].
  exists st1. do 2 eexists. split; [exact E1|]. split; [exact E2|].
  split; [exact E3|].
  unfold st1. cbn [Editor.line Editor.cursor_pos].
  repeat split. apply size_erased. lia.
Qed.

Lemma left_delete_is_backspace_witness :
  exists st1 st2 st3,
    Editor.left (Editor.mkState "lss" 3 (-1) "" 0 []) = Some st1
    /\ Editor.delete st1 = Some st2
    /\ Editor.backspace (Editor.mkState "lss" 3 (-1) "" 0 []) = Some st3
    /\ Editor.line st2 = Editor.line st3
    /\ Editor.cursor_pos st2 = Editor.cursor_pos st3
    /\ Str.size (Editor.line st3) = (Str.size "lss" - 1)%Z.
Proof.
  apply (left_delete_is_backspace (Editor.mkState "lss" 3 (-1) "" 0 [])).
  - unfold Props.cursor_ok. cbn. lia.
  - cbn. lia.
Defined.

(** ** Completion and recall, several keys at a time *)

Section RecallFacts.

Import Str Completion Editor Props Notions.

Lemma vec_at_nth (v : list string) (m : nat) :
  vec_at v (Z.of_nat m) = nth_error v m.
Proof.
  unfold vec_at. replace (0 <=? Z.of_nat m)%Z with true
    by (symmetry; apply Z.leb_le; lia).
  now rewrite Nat2Z.id.
Qed.

(** Up while navigating: one entry older, down to entry 0. *)
Lemma up_navigating (history : list string) (st : state) :
  (0 <= history_index st < Z.of_nat (List.length history))%Z ->
  exists item evs,
    vec_at history (Z.max 0 (history_index st - 1)) = Some item
    /\ up history st
       = Some (mkState item (size item) (Z.max 0 (history_index st - 1))
                       (current_line_backup st) (lst st)
                       (screen st ++ evs)%list).
Proof.
  intros R. unfold up.
  destruct history as [|h0 hs]; [cbn [List.length] in R; lia|].
  replace (history_index st =? -1)%Z with false
    by (symmetry; apply Z.eqb_neq; lia).
  destruct (0 <? history_index st)%Z eqn:P.
  - apply Z.ltb_lt in P.
    replace (Z.max 0 (history_index st - 1)) with (history_index st - 1)%Z
      by lia.
    destruct (vec_at_in_range (h0 :: hs) (history_index st - 1)) as [item V];
      [lia|].
    rewrite V. cbn [bind]. exists item. eexists. split; reflexivity.
  - apply Z.ltb_ge in P.
    replace (Z.max 0 (history_index st - 1)) with (history_index st) by lia.
    destruct (vec_at_in_range (h0 :: hs) (history_index st)) as [item V];
      [lia|].
    rewrite V. cbn [bind]. exists item. eexists. split; reflexivity.
Qed.

Lemma press_up_navigating (history : list string) (j : nat) :
  forall st,
    (0 <= history_index st < Z.of_nat (List.length history))%Z ->
    vec_at history (history_index st) = Some (line st) ->
    cursor_pos st = size (line st) ->
    exists s1,
      press (up history) j st = Some s1
      /\ history_index s1 = Z.max 0 (history_index st - Z.of_nat j)
      /\ current_line_backup s1 = current_line_backup st
      /\ vec_at history (history_index s1) = Some (line s1)
      /\ cursor_pos s1 = size (line s1).
Proof.
  induction j as [|j IH]; intros st R V C.
  - exists st. cbn [press]. repeat split; auto. lia.
  - cbn [press]. destruct (up_navigating history st R) as (item & evs & V1 & ->).
    cbn [bind].
    edestruct IH as (s1 & E & I & B & V2 & C2); [| | |exists s1; split; [exact E|]].
    + cbn [history_index]. lia.
    + cbn [history_index line]. exact V1.
    + reflexivity.
    + cbn [history_index current_line_backup] in I, B.
      repeat split; auto. lia.
Qed.

(** Down while navigating below the newest entry: one entry newer. *)
Lemma down_navigating (history : list string) (st : state) :
  (0 <= history_index st < Z.of_nat (List.length history) - 1)%Z ->
  exists item evs,
    vec_at history (history_index st + 1) = Some item
    /\ down history st
       = Some (mkState item (size item) (history_index st + 1)
                       (current_line_backup st) (lst st)
                       (screen st ++ evs)%list).
Proof.
  intros R. unfold down.
  replace (history_index st =? -1)%Z with false
    by (symmetry; apply Z.eqb_neq; lia).
  replace (history_index st <? Z.of_nat (List.length history) - 1)%Z with true
    by (symmetry; apply Z.ltb_lt; lia).
  destruct (vec_at_in_range history (history_index st + 1)) as [item V]; [lia|].
  rewrite V. cbn [negb bind]. exists item. eexists. split; reflexivity.
Qed.

Lemma press_down_idle (history : list string) (j : nat) (st : state) :
  history_index st = (-1)%Z -> press (down history) j st = Some st.
Proof.
  intros I. induction j as [|j IH]; cbn [press]; [reflexivity|].
  rewrite (down_not_navigating history st I). cbn [bind]. exact IH.
Qed.

(** Enough Downs always end navigation with the saved buffer. *)
Lemma press_down_leaves (history : list string) (j : nat) :
  forall st,
    (0 <= history_index st < Z.of_nat (List.length history))%Z ->
    (Z.of_nat (List.length history) - history_index st <= Z.of_nat j)%Z ->
    exists s2,
      press (down history) j st = Some s2
      /\ line s2 = current_line_backup st
      /\ cursor_pos s2 = size (line s2)
      /\ history_index s2 = (-1)%Z.
Proof.
  induction j as [|j IH]; intros st R J; [lia|].
  cbn [press].
  destruct (Z.eq_dec (history_index st) (Z.of_nat (List.length history) - 1))
    as [E|N].
  - destruct (down_leaves_navigation history st) as [evs D]; [|exact E|].
    { intros ->. cbn [List.length] in R. lia. }
    rewrite D. cbn [bind]. rewrite press_down_idle by reflexivity.
    eexists. split; [reflexivity|]. cbn [line cursor_pos history_index]. auto.
  - destruct (down_navigating history st) as (item & evs & _ & ->); [lia|].
    cbn [bind].
    edestruct IH as (s2 & E2 & L2 & C2 & I2); [| |exists s2; split; [exact E2|]].
    + cbn [history_index]. lia.
    + cbn [history_index]. lia.
    + cbn [current_line_backup] in L2. auto.
Qed.

Lemma press_up_empty (k : nat) (st : state) : press (up []) k st = Some st.
Proof. induction k as [|k IH]; cbn [press up bind]; auto. Qed.

(** [k] Ups from outside navigation, with a history that is not empty. *)
Lemma press_up_fresh (history : list string) (k : nat) (st : state) :
  history <> [] -> history_index st = (-1)%Z ->
  exists s1,
    press (up history) (S k) st = Some s1
    /\ history_index s1
       = Z.max 0 (Z.of_nat (List.length history) - 1 - Z.of_nat k)
    /\ current_line_backup s1 = line st
    /\ vec_at history (history_index s1) = Some (line s1)
    /\ cursor_pos s1 = size (line s1).
Proof.
  intros H I. cbn [press].
  destruct (up_enters_navigation history st H I) as (item & evs & V & ->).
  cbn [bind].
  assert (N : 0 < List.length history) by (destruct history; [congruence | cbn; lia]).
  edestruct (press_up_navigating history k) as (s1 & E & I1 & B1 & V1 & C1);
    [| | |exists s1; split; [exact E|]].
  - cbn [history_index]. lia.
  - cbn [history_index line]. exact V.
  - reflexivity.
  - cbn [history_index current_line_backup] in I1, B1. auto.
Qed.

End RecallFacts.

(** X5. A unique completion only adds characters: when Tab (not preceded
    by Tab) finds exactly one candidate, the candidate continues the word
    being completed, the new buffer is the old buffer followed by the
    missing characters, so everything typed so far stays in place, and the
    cursor goes to the end. *)
Theorem unique_completion_extends_line
        (cwd : option (list string)) (st : Editor.state)
        (w candidate : string) :
  Editor.word_to_complete (Editor.line st) = Some w ->
  Editor.lst st <> 9%Z ->
  Completion.find_completion cwd w = [candidate] ->
  exists st' rest,
    Editor.tab cwd st = Some st'
    /\ candidate = w ++ rest
    /\ Editor.line st' = Editor.line st ++ rest
    /\ Editor.cursor_pos st' = Str.size (Editor.line st').
Proof.
  intros W L F.
  assert (P : exists rest, candidate = w ++ rest).
  { apply has_prefix_iff.
    pose proof (find_completion_has_prefix cwd w) as A.
    rewrite F in A. now inversion A. }
  destruct P as [rest ->].
  assert (U : Editor.unique_match (Completion.find_completion cwd w) w = true)
    by (apply unique_match_single; now rewrite F).
  unfold Editor.tab. rewrite W. cbn [bind]. unfold Editor.tab_dispatch.
  apply Z.eqb_neq in L. rewrite L, U, F. cbn [nth_error bind].
  eexists. exists rest. split; [reflexivity|]. split; [reflexivity|].
  unfold Editor.emit, Editor.set_line. cbn [Editor.line Editor.cursor_pos].
  split; [|reflexivity].
  rewrite word_to_complete_rfind in W. injection W as W.
  destruct (Str.rfind " " (Editor.line st)) as [p|].
  - rewrite <- W, <- app_assoc. now rewrite take_drop.
  - now rewrite <- W.
Qed.

Lemma unique_completion_extends_line_witness :
  exists st' rest,
    Editor.tab None (Editor.mkState "type ec" 7 (-1) "" 99 []) = Some st'
    /\ "echo" = "ec" ++ rest
    /\ Editor.line st' = "type ec" ++ rest
    /\ Editor.cursor_pos st' = Str.size (Editor.line st').
Proof.
  apply (unique_completion_extends_line None
           (Editor.mkState "type ec" 7 (-1) "" 99 []) "ec" "echo").
  - reflexivity.
  - discriminate.
  - reflexivity.
Defined.

(** X6. Pressing Up any number of times and then Down the same number of
    times, starting outside navigation, gives the buffer back and leaves
    navigation, whatever the history holds. *)
Theorem ups_then_downs_restore_buffer
        (history : list string) (k : nat) (st : Editor.state) :
  Editor.history_index st = (-1)%Z ->
  exists s1 s2,
    Notions.press (Editor.up history) k st = Some s1
    /\ Notions.press (Editor.down history) k s1 = Some s2
    /\ Editor.line s2 = Editor.line st
    /\ Editor.history_index s2 = (-1)%Z.
Proof.
  intros I. destruct k as [|k].
  { exists st, st. cbn. auto. }
  destruct history as [|h0 hs].
  { exists st, st. rewrite press_up_empty, press_down_idle by exact I. auto. }
  destruct (press_up_fresh (h0 :: hs) k st) as (s1 & E & I1 & B1 & _ & _);
    [discriminate | exact I |].
  destruct (press_down_leaves (h0 :: hs) (S k) s1) as (s2 & E2 & L2 & _ & I2).
  - rewrite I1. cbn [List.length]. lia.
  - rewrite I1. cbn [List.length]. lia.
  - exists s1, s2. rewrite L2, B1. auto.
Qed.

Lemma ups_then_downs_restore_buffer_witness :
  exists s1 s2,
    Notions.press (Editor.up ["cd /tmp"; "ls -a"]) 5
                  (Editor.mkState "ec" 1 (-1) "" 0 []) = Some s1
    /\ Notions.press (Editor.down ["cd /tmp"; "ls -a"]) 5 s1 = Some s2
    /\ Editor.line s2 = "ec"
    /\ Editor.history_index s2 = (-1)%Z.
Proof.
  apply (ups_then_downs_restore_buffer ["cd /tmp"; "ls -a"] 5
           (Editor.mkState "ec" 1 (-1) "" 0 [])).
  reflexivity.
Defined.

(** X7. The [k]-th Up of a session ([k] at least 1) shows the [k]-th
    newest entry, or the oldest one once [k] exceeds the number of
    entries, with the cursor at its end, while the buffer as it was
    before the first Up stays saved. *)
Theorem ups_recall_entry
        (history : list string) (k : nat) (st : Editor.state) :
  history <> [] -> Editor.history_index st = (-1)%Z -> 1 <= k ->
  exists s1,
    Notions.press (Editor.up history) k st = Some s1
    /\ nth_error history (List.length history - k) = Some (Editor.line s1)
    /\ Editor.history_index s1 = Z.of_nat (List.length history - k)
    /\ Editor.cursor_pos s1 = Str.size (Editor.line s1)
    /\ Editor.current_line_backup s1 = Editor.line st.
Proof.
  intros H I K. destruct k as [|k]; [lia|].
  destruct (press_up_fresh history k st H I) as (s1 & E & I1 & B1 & V1 & C1).
  exists s1. split; [exact E|].
  assert (X : Editor.history_index s1 = Z.of_nat (List.length history - S k))
    by lia.
  rewrite X in V1. rewrite vec_at_nth in V1. auto.
Qed.

Lemma ups_recall_entry_witness :
  exists s1,
    Notions.press (Editor.up ["pwd"; "cd /tmp"; "ls -a"]) 2
                  (Editor.mkState "ec" 1 (-1) "" 0 []) = Some s1
    /\ nth_error ["pwd"; "cd /tmp"; "ls -a"] (3 - 2) = Some (Editor.line s1)
    /\ Editor.history_index s1 = Z.of_nat (3 - 2)
    /\ Editor.cursor_pos s1 = Str.size (Editor.line s1)
    /\ Editor.current_line_backup s1 = "ec".
Proof.
  apply (ups_recall_entry ["pwd"; "cd /tmp"; "ls -a"] 2
           (Editor.mkState "ec" 1 (-1) "" 0 [])).
  - discriminate.
  - reflexivity.
  - lia.
Defined.

(** ** The bell *)

Section BellFacts.

Import Str Completion Editor Props Notions.

Lemma beeps_app (a b : list term_event) :
  beeps (a ++ b) = beeps a + beeps b.
Proof.
  induction a as [|e a IH]; cbn [app beeps]; [reflexivity|].
  destruct e; rewrite IH; reflexivity.
Qed.

Lemma beeps_repeat_write (text : string) (n : nat) :
  beeps (repeat (Write text) n) = 0.
Proof. induction n as [|n IH]; cbn [repeat beeps]; auto. Qed.

Lemma beeps_candidates (completion : list string) :
  beeps (flat_map (fun cmd => [Write cmd; Write "    "]) completion) = 0.
Proof. induction completion as [|c l IH]; cbn [flat_map app beeps]; auto. Qed.

Ltac silent :=
  cbn [screen emit set_line set_cursor];
  repeat (progress (rewrite ?beeps_app, ?beeps_repeat_write, ?beeps_candidates;
                    cbn [beeps]));
  lia.

Lemma backspace_silent (st st' : state) :
  backspace st = Some st' -> beeps (screen st') = beeps (screen st).
Proof.
  unfold backspace. destruct (_ && _); [|now intros [= <-]].
  destruct (erase1 _ _); [|discriminate]. cbn [bind].
  destruct (substr_from _ _); [|discriminate]. cbn [bind].
  intros [= <-]. silent.
Qed.

Lemma delete_silent (st st' : state) :
  delete st = Some st' -> beeps (screen st') = beeps (screen st).
Proof.
  unfold delete. destruct (_ && _); [|now intros [= <-]].
  destruct (erase1 _ _); [|discriminate]. cbn [bind].
  destruct (substr_from _ _); [|discriminate]. cbn [bind].
  intros [= <-]. silent.
Qed.

Lemma insert_char_silent (ch : Z) (st st' : state) :
  insert_char ch st = Some st' -> beeps (screen st') = beeps (screen st).
Proof.
  unfold insert_char.
  destruct (insert1 _ _ _); [|discriminate]. cbn [bind].
  destruct (substr_from _ _); [|discriminate]. cbn [bind].
  intros [= <-]. silent.
Qed.

Lemma left_silent (st st' : state) :
  left st = Some st' -> beeps (screen st') = beeps (screen st).
Proof.
  unfold left. destruct (0 <? _)%Z; intros [= <-]; [silent | reflexivity].
Qed.

Lemma right_silent (st st' : state) :
  right st = Some st' -> beeps (screen st') = beeps (screen st).
Proof.
  unfold right. destruct (_ <? _)%Z; [|now intros [= <-]].
  destruct (at_ _ _); [|discriminate]. cbn [bind]. intros [= <-]. silent.
Qed.

Lemma up_silent (history : list string) (st st' : state) :
  up history st = Some st' -> beeps (screen st') = beeps (screen st).
Proof.
  unfold up. destruct history as [|h0 hs]; [now intros [= <-]|].
  destruct (if (history_index st =? -1)%Z then _ else _) as [backup index].
  destruct (vec_at _ _); [|discriminate]. cbn [bind]. intros [= <-]. silent.
Qed.

Lemma down_silent (history : list string) (st st' : state) :
  down history st = Some st' -> beeps (screen st') = beeps (screen st).
Proof.
  unfold down. destruct (negb _); [|now intros [= <-]].
  destruct (if (history_index st <? _)%Z then _ else _) as [[index l']|];
    [|discriminate].
  cbn [bind]. intros [= <-]. silent.
Qed.

Lemma tab_one_beep (cwd : option (list string)) (st st' : state) :
  tab cwd st = Some st' -> beeps (screen st') <= S (beeps (screen st)).
Proof.
  unfold tab. destruct (word_to_complete _) as [w|]; [|discriminate].
  cbn [bind]. destruct (tab_dispatch _ _ _).
  - intros [= <-]. silent.
  - intros [= <-]. lia.
  - destruct (nth_error _ 0); [|discriminate]. cbn [bind].
    intros [= <-]. silent.
  - intros [= <-]. silent.
Qed.

Lemma arrow_silent (history : list string) (ch : Z) (st st' : state) :
  (if (ch =? 72)%Z then up history st
   else if (ch =? 80)%Z then down history st
   else if (ch =? 75)%Z then left st
   else if (ch =? 77)%Z then right st
   else if (ch =? 83)%Z then delete st
   else Some st) = Some st' ->
  beeps (screen st') = beeps (screen st).
Proof.
  destruct (ch =? 72)%Z; [apply up_silent|].
  destruct (ch =? 80)%Z; [apply down_silent|].
  destruct (ch =? 75)%Z; [apply left_silent|].
  destruct (ch =? 77)%Z; [apply right_silent|].
  destruct (ch =? 83)%Z; [apply delete_silent|].
  now intros [= <-].
Qed.

(** The number of Tab characters among the keys. *)
Lemma readline_body_beeps cwd history st input st' rest :
  readline_body cwd history st input = Next st' rest ->
  beeps (screen st') + count_occ Z.eq_dec (map to_char rest) 9%Z
  <= beeps (screen st) + count_occ Z.eq_dec (map to_char input) 9%Z.
Proof.
  unfold readline_body.
  destruct input as [|k input]; [discriminate|].
  cbn [map count_occ].
  destruct (Z.eqb_spec (to_char k) 13); [discriminate|].
  destruct (_ || _).
  { intros E. apply continue_next in E. destruct E as (s1 & E & -> & ->).
    apply backspace_silent in E. cbn [screen set_lst].
    destruct (Z.eq_dec (to_char k) 9); lia. }
  destruct (Z.eqb_spec (to_char k) 9) as [T|T].
  { intros E. apply continue_next in E. destruct E as (s1 & E & -> & ->).
    apply tab_one_beep in E. cbn [screen set_lst].
    destruct (Z.eq_dec (to_char k) 9); [lia | contradiction]. }
  destruct (_ || _).
  { destruct input as [|k2 input]; [discriminate|].
    intros E. apply continue_next in E. destruct E as (s1 & E & -> & ->).
    apply arrow_silent in E. cbn [screen set_lst map count_occ].
    destruct (Z.eq_dec (to_char k) 9); destruct (Z.eq_dec (to_char k2) 9); lia. }
  destruct (_ && _).
  { intros E. apply continue_next in E. destruct E as (s1 & E & -> & ->).
    apply insert_char_silent in E. cbn [screen set_lst].
    destruct (Z.eq_dec (to_char k) 9); lia. }
  destruct (to_char k =? 4)%Z; [discriminate|].
  intros E. apply continue_next in E. destruct E as (s1 & [= <-] & -> & ->).
  cbn [screen set_lst]. destruct (Z.eq_dec (to_char k) 9); lia.
Qed.

Lemma readline_body_final cwd history st input :
  match readline_body cwd history st input with
  | Returned _ st' => beeps (screen st') = beeps (screen st)
  | Waiting st' => st' = st
  | _ => True
  end.
Proof.
  unfold readline_body.
  destruct input as [|k input]; [reflexivity|].
  destruct (to_char k =? 13)%Z.
  { cbn [screen emit]. rewrite beeps_app. cbn [beeps]. lia. }
  destruct (_ || _); [destruct (backspace st); exact I|].
  destruct (to_char k =? 9)%Z; [destruct (tab cwd st); exact I|].
  destruct (_ || _).
  { destruct input as [|k2 input]; [reflexivity|].
    destruct (if (to_char k2 =? 72)%Z then _ else _); exact I. }
  destruct (_ && _); [destruct (insert_char _ st); exact I|].
  destruct (to_char k =? 4)%Z; exact I.
Qed.

Lemma readline_loop_beeps cwd history fuel :
  forall st input,
    match readline_loop fuel cwd history st input with
    | Returned _ st' | Waiting st' =>
        beeps (screen st')
        <= beeps (screen st) + count_occ Z.eq_dec (map to_char input) 9%Z
    | _ => True
    end.
Proof.
  induction fuel as [|fuel IH]; intros st input; cbn [readline_loop]; [exact I|].
  pose proof (readline_body_final cwd history st input) as F.
  destruct (readline_body cwd history st input) as [s1 rest|r s1|c|s1|] eqn:B;
    try exact I.
  - apply readline_body_beeps in B. specialize (IH s1 rest).
    destruct (readline_loop fuel cwd history s1 rest); try exact I; lia.
  - lia.
  - subst. lia.
Qed.

End BellFacts.

(** X8. The bell rings only for Tab: in a whole run of [readline], the
    number of bells rung when it returns the line, or while it waits for
    the next key, is never more than the number of Tab characters among
    the keys read. *)
Theorem bell_rings_only_for_tab
        (cwd : option (list string)) (history : list string) (lst0 : Z)
        (input : list Z) (st : Editor.state) :
  (Editor.readline cwd history lst0 input = Editor.Waiting st
   \/ exists result,
       Editor.readline cwd history lst0 input = Editor.Returned result st) ->
  Notions.beeps (Editor.screen st)
  <= count_occ Z.eq_dec (map Editor.to_char input) 9%Z.
Proof.
  intros H.
  pose proof (readline_loop_beeps cwd history (S (List.length input))
                (Editor.initial lst0) input) as B.
  unfold Editor.readline in H. destruct H as [H|[r H]]; rewrite H in B;
    cbn [Editor.initial Editor.screen Notions.beeps] in B; lia.
Qed.

Lemma bell_rings_only_for_tab_witness :
  Notions.beeps
    [Editor.Write "z"; Editor.Beep; Editor.Write "z"; Editor.Write Editor.NL]
  <= count_occ Z.eq_dec (map Editor.to_char [122; 9; 122; 13]%Z) 9%Z.
Proof.
  apply (bell_rings_only_for_tab (Some []) [] 0 [122; 9; 122; 13]%Z
           (Editor.mkState "zz" 2 (-1) "" 122
              [Editor.Write "z"; Editor.Beep; Editor.Write "z";
               Editor.Write Editor.NL])).
  right. exists "zz". reflexivity.
Defined.

(** ** Library functions of the built-ins *)

Section TextFacts.

Import Str Text Completion Shell Notions.

Lemma prefix_iff (p s : string) :
  prefix p s = true <-> exists rest, s = p ++ rest.
Proof. rewrite <- has_prefix_prefix. apply has_prefix_iff. Qed.

(** [find] returns the place of an occurrence. *)
Lemma find_str_some (pat s : string) (n : nat) :
  find_str pat s = Some n ->
  exists post, drop n s = pat ++ post /\ n <= String.length s.
Proof.
  revert n; induction s as [|a s IH]; intros n; cbn [find_str].
  - destruct (prefix pat "") eqn:P; [|discriminate].
    intros [= <-]. apply prefix_iff in P. destruct P as [rest P].
    exists rest. cbn [drop String.length]. split; [exact P | lia].
  - destruct (prefix pat (String a s)) eqn:P.
    + intros [= <-]. apply prefix_iff in P. destruct P as [rest P].
      exists rest. cbn [drop String.length]. split; [exact P | lia].
    + destruct (find_str pat s) as [i|]; [|discriminate].
      intros [= <-]. destruct (IH i eq_refl) as (post & D & L).
      exists post. cbn [drop String.length]. split; [exact D | lia].
Qed.

(** [find] succeeds on every string that holds the pattern. *)
Lemma contains_intro (pat pre post : string) :
  contains pat (pre ++ pat ++ post) = true.
Proof.
  unfold contains. induction pre as [|a pre IH]; cbn [append].
  - assert (P : prefix pat (pat ++ post) = true) by (apply prefix_iff; eauto).
    destruct (pat ++ post); cbn [find_str]; rewrite P; reflexivity.
  - cbn [find_str]. destruct (prefix pat (String a (pre ++ pat ++ post)));
      [reflexivity|].
    destruct (find_str pat (pre ++ pat ++ post)); [reflexivity | discriminate].
Qed.

Lemma contains_elim (pat s : string) :
  contains pat s = true -> exists pre post, s = pre ++ pat ++ post.
Proof.
  unfold contains. destruct (find_str pat s) as [n|] eqn:F; [|discriminate].
  intros _. destruct (find_str_some _ _ _ F) as (post & D & _).
  exists (take n s), post. rewrite <- D. symmetry. apply take_drop.
Qed.

Lemma contains_char (c : ascii) (s : string) :
  contains (String c "") s = mem c s.
Proof.
  unfold contains. induction s as [|a s IH]; [reflexivity|].
  cbn [find_str prefix mem].
  destruct (ascii_dec c a) as [E|N].
  - subst. rewrite Ascii.eqb_refl. now destruct s.
  - destruct (Ascii.eqb_spec a c) as [E|_]; [congruence|].
    cbn [orb]. rewrite <- IH. now destruct (find_str (String c "") s).
Qed.

(** The splitting loop. *)
Lemma split_loop_parts (sep : ascii) (s cur : string) (parts : list string) :
  split_loop sep s cur parts = (parts ++ split_loop sep s cur [])%list.
Proof.
  revert cur parts; induction s as [|c s IH]; intros cur parts;
    cbn [split_loop]; [reflexivity|].
  destruct (Ascii.eqb c sep).
  - rewrite IH. rewrite (IH "" ([] ++ [cur])%list).
    now rewrite <- List.app_assoc.
  - apply IH.
Qed.

Lemma split_loop_first (sep : ascii) (s cur : string) :
  exists first others, split_loop sep s cur [] = first :: others.
Proof.
  revert cur; induction s as [|c s IH]; intros cur; cbn [split_loop app].
  - eauto.
  - destruct (Ascii.eqb c sep); [|apply IH].
    rewrite split_loop_parts. cbn [app]. eauto.
Qed.

Lemma split_loop_join (sep : ascii) (s cur : string) :
  concat (String sep "") (split_loop sep s cur []) = cur ++ s.
Proof.
  revert cur; induction s as [|c s IH]; intros cur; cbn [split_loop app].
  - cbn [concat]. now rewrite app_empty_r.
  - destruct (Ascii.eqb_spec c sep) as [->|N].
    + rewrite split_loop_parts. cbn [app].
      destruct (split_loop_first sep s "") as (f & o & E).
      pose proof (IH "") as J. rewrite E in J |- *.
      change (concat (String sep "") (cur :: f :: o))
        with (cur ++ String sep "" ++ concat (String sep "") (f :: o)).
      rewrite J. reflexivity.
    + rewrite IH. now rewrite app_assoc.
Qed.

Lemma split_loop_clean (sep : ascii) (s cur : string) :
  mem sep cur = false ->
  Forall (fun part => mem sep part = false) (split_loop sep s cur []).
Proof.
  revert cur; induction s as [|c s IH]; intros cur C; cbn [split_loop app].
  - cbn [app]. auto.
  - destruct (Ascii.eqb_spec c sep) as [->|N].
    + rewrite split_loop_parts. cbn [app]. constructor; [exact C|].
      now apply IH.
    + apply IH. rewrite mem_app, C. cbn [mem orb].
      destruct (Ascii.eqb_spec c sep); [contradiction | reflexivity].
Qed.

(** A string without the separator is its own single part. *)
Lemma split_loop_single (sep : ascii) (s cur : string) :
  mem sep s = false -> split_loop sep s cur [] = [cur ++ s].
Proof.
  revert cur; induction s as [|c s IH]; intros cur M; cbn [split_loop app].
  - now rewrite app_empty_r.
  - cbn [mem] in M. apply orb_false_iff in M. destruct M as [M1 M2].
    rewrite M1. rewrite IH by exact M2. now rewrite app_assoc.
Qed.

(** The part before the first separator. *)
Lemma split_loop_head (sep : ascii) (a b cur : string) :
  mem sep a = false ->
  exists others,
    split_loop sep (a ++ String sep b) cur [] = (cur ++ a) :: others.
Proof.
  revert cur; induction a as [|c a IH]; intros cur M; cbn [append split_loop app].
  - rewrite Ascii.eqb_refl. rewrite split_loop_parts. cbn [app].
    rewrite app_empty_r. eauto.
  - cbn [mem] in M. apply orb_false_iff in M. destruct M as [M1 M2].
    rewrite M1. destruct (IH (cur ++ String c "") M2) as [others E].
    rewrite E. rewrite app_assoc. eauto.
Qed.

(** Reading lines. *)
Lemma terminated_cons (c : ascii) (s : string) :
  s <> "" -> terminated (String c s) = terminated s.
Proof. destruct s; [congruence | reflexivity]. Qed.

Lemma getlines_loop_app (old rest : string) :
  forall line fresh,
    terminated old = true ->
    (old = "" -> fresh = true /\ line = "") ->
    getlines_loop (old ++ rest) line fresh
    = (getlines_loop old line fresh ++ getlines_loop rest "" true)%list.
Proof.
  induction old as [|c old IH]; intros line fresh T E.
  - destruct (E eq_refl) as [-> ->]. reflexivity.
  - cbn [append getlines_loop].
    destruct old as [|d old'].
    + cbn [terminated] in T. rewrite T. cbn [append getlines_loop app].
      reflexivity.
    + rewrite terminated_cons in T by discriminate.
      destruct (Ascii.eqb c newline).
      * cbn [app]. f_equal. apply IH; [exact T | discriminate].
      * apply IH; [exact T | discriminate].
Qed.

Lemma getlines_loop_line (text line : string) (fresh : bool) :
  mem newline text = false ->
  getlines_loop (text ++ String newline "") line fresh = [line ++ text].
Proof.
  revert line fresh; induction text as [|c text IH]; intros line fresh M.
  - cbn [append getlines_loop]. rewrite Ascii.eqb_refl.
    now rewrite app_empty_r.
  - cbn [mem] in M. apply orb_false_iff in M. destruct M as [M1 M2].
    cbn [append getlines_loop]. rewrite M1. rewrite IH by exact M2.
    now rewrite app_assoc.
Qed.

(** The accumulation [contents += line + "\n"] over the lines read. *)
Lemma fold_lines (lines : list string) (acc : string) :
  fold_left (fun contents line => contents ++ (line ++ Builtins.NL)) lines acc
  = acc ++ fold_left (fun contents line => contents ++ (line ++ Builtins.NL))
                     lines "".
Proof.
  revert acc; induction lines as [|l lines IH]; intros acc; cbn [fold_left].
  - now rewrite app_empty_r.
  - rewrite IH. rewrite (IH ("" ++ (l ++ Builtins.NL))).
    cbn [append]. now rewrite app_assoc.
Qed.

Lemma getlines_loop_text (text : string) :
  forall line fresh,
    (text = "" -> fresh = true /\ line = "") ->
    fold_left (fun contents l => contents ++ (l ++ Builtins.NL))
              (getlines_loop text line fresh) ""
    = line ++ text ++ (if terminated text then "" else Builtins.NL).
Proof.
  induction text as [|c text IH]; intros line fresh E.
  - destruct (E eq_refl) as [-> ->]. reflexivity.
  - cbn [getlines_loop].
    destruct text as [|d text'].
    + cbn [terminated]. destruct (Ascii.eqb_spec c newline) as [->|N].
      * cbn [getlines_loop fold_left append]. reflexivity.
      * cbn [getlines_loop fold_left append]. unfold Builtins.NL.
        now rewrite app_assoc.
    + rewrite terminated_cons by discriminate.
      destruct (Ascii.eqb_spec c newline) as [->|N].
      * cbn [fold_left]. rewrite fold_lines. rewrite IH by discriminate.
        cbn [append]. unfold Builtins.NL. now rewrite app_assoc.
      * rewrite IH by discriminate. now rewrite app_assoc.
Qed.

End TextFacts.

(** X9. The splitting loop of [found2] (on [;]) and [cat] (on spaces)
    loses nothing: it always yields at least one part, no part holds the
    separator, and the parts joined with the separator give the string
    back. *)
Theorem split_then_join (sep : ascii) (s : string) :
  Text.split sep s <> []
  /\ Forall (fun part => Str.mem sep part = false) (Text.split sep s)
  /\ concat (String sep "") (Text.split sep s) = s.
Proof.
  unfold Text.split. split; [|split].
  - destruct (split_loop_first sep s "") as (f & o & ->). discriminate.
  - now apply split_loop_clean.
  - apply split_loop_join.
Qed.

(** X10. [found2] answers ["f"] exactly when no directory of PATH holds
    the command, with or without [.exe]; any other answer is a file that
    exists, made of a directory of PATH, a backslash and the command. *)
Theorem found2_finds_existing_file
        (path : string) (access : string -> bool) (input : string) :
  (Builtins.found2 path access input = "f"
   <-> forall p, In p (Text.split ";" path) ->
                 access (p ++ String Text.backslash "" ++ input ++ ".exe") = false
                 /\ access (p ++ String Text.backslash "" ++ input) = false)
  /\ (Builtins.found2 path access input <> "f" ->
      access (Builtins.found2 path access input) = true
      /\ exists p,
          In p (Text.split ";" path)
          /\ (Builtins.found2 path access input
              = p ++ String Text.backslash "" ++ input ++ ".exe"
              \/ Builtins.found2 path access input
                 = p ++ String Text.backslash "" ++ input)).
Proof.
  unfold Builtins.found2. generalize (Text.split ";" path) as paths.
  assert (NF : forall p rest, p ++ String Text.backslash rest <> "f").
  { intros p rest E. apply (f_equal (Str.mem Text.backslash)) in E.
    rewrite mem_app in E. cbn [Str.mem] in E.
    rewrite Ascii.eqb_refl in E. cbn [orb] in E.
    rewrite orb_true_r in E. discriminate. }
  induction paths as [|p paths [IH1 IH2]]; cbn [Builtins.found2_search].
  - split; [split; [intros _ q []|reflexivity]|congruence].
  - destruct (access (p ++ String Text.backslash "" ++ input ++ ".exe")) eqn:A1.
    { split.
      - split; [intros E; exfalso; revert E; apply NF|].
        intros H. destruct (H p (or_introl eq_refl)) as [H1 _]. congruence.
      - intros _. split; [exact A1|]. exists p. split; [now left | now left]. }
    destruct (access (p ++ String Text.backslash "" ++ input)) eqn:A2.
    { split.
      - split; [intros E; exfalso; revert E; apply NF|].
        intros H. destruct (H p (or_introl eq_refl)) as [_ H2]. congruence.
      - intros _. split; [exact A2|]. exists p. split; [now left | now right]. }
    split.
    + rewrite IH1. split.
      * intros H q [<-|Q]; [split; assumption | now apply H].
      * intros H q Q. apply H. now right.
    + intros N. destruct (IH2 N) as [A (q & Q & E)].
      split; [exact A|]. exists q. split; [now right | exact E].
Qed.

Lemma found2_finds_existing_file_witness :
  String.eqb (Builtins.found2 "C:\bin;D:\tools"
                (fun file => String.eqb file "D:\tools\ls") "ls")
             "D:\tools\ls" = true
  /\ exists p,
      In p (Text.split ";" "C:\bin;D:\tools")
      /\ (Builtins.found2 "C:\bin;D:\tools"
            (fun file => String.eqb file "D:\tools\ls") "ls"
          = p ++ String Text.backslash "" ++ "ls" ++ ".exe"
          \/ Builtins.found2 "C:\bin;D:\tools"
               (fun file => String.eqb file "D:\tools\ls") "ls"
             = p ++ String Text.backslash "" ++ "ls").
Proof.
  apply (proj2 (found2_finds_existing_file "C:\bin;D:\tools"
                  (fun file => String.eqb file "D:\tools\ls") "ls")).
  vm_compute. discriminate.
Defined.

(** ** Trimming and redirection *)

Section RedirectFacts.

Import Str Text Completion Shell Builtins Notions.

Lemma find_first_not_of_split (set s : string) :
  match find_first_not_of set s with
  | Some n =>
      only set (take n s) = true
      /\ exists a rest, drop n s = String a rest /\ mem a set = false
  | None => only set s = true
  end.
Proof.
  induction s as [|a s IH]; cbn [find_first_not_of]; [reflexivity|].
  destruct (mem a set) eqn:M.
  - destruct (find_first_not_of set s) as [i|].
    + destruct IH as (O & b & rest & D & B). cbn [take drop only].
      rewrite M. split; [exact O|]. eauto.
    + cbn [only]. now rewrite M.
  - cbn [take drop only]. split; [reflexivity|]. eauto.
Qed.

Lemma find_last_not_of_split (set s : string) :
  match find_last_not_of set s with
  | Some n =>
      only set (drop (S n) s) = true
      /\ exists body a, take (S n) s = body ++ String a "" /\ mem a set = false
  | None => only set s = true
  end.
Proof.
  induction s as [|a s IH]; cbn [find_last_not_of]; [reflexivity|].
  destruct (find_last_not_of set s) as [i|].
  - destruct IH as (O & body & b & T & B).
    change (drop (S (S i)) (String a s)) with (drop (S i) s).
    change (take (S (S i)) (String a s)) with (String a (take (S i) s)).
    split; [exact O|]. exists (String a body), b. rewrite T. auto.
  - destruct (mem a set) eqn:M.
    + cbn [only]. now rewrite M.
    + change (drop 1 (String a s)) with s.
      change (take 1 (String a s)) with (String a (take 0 s)).
      split; [exact IH|]. exists "", a. split; [now destruct s | exact M].
Qed.

Lemma find_last_not_of_end (set body : string) (a : ascii) :
  mem a set = false ->
  find_last_not_of set (body ++ String a "") = Some (String.length body).
Proof.
  intros M. induction body as [|b body IH]; cbn [String.append find_last_not_of].
  - now rewrite M.
  - now rewrite IH.
Qed.

Lemma last_char_unique (u v : string) (a b : ascii) :
  u ++ String a "" = v ++ String b "" -> a = b.
Proof.
  revert v; induction u as [|c u IH]; intros [|d v]; cbn [String.append]; intros E.
  - now inversion E.
  - inversion E. now destruct v.
  - inversion E. now destruct u.
  - inversion E. eapply IH; eassumption.
Qed.

(** The shape of a trimmed string. *)
Lemma trim_shape (s : string) :
  exists l r,
    s = l ++ trim s ++ r /\ only blanks l = true /\ only blanks r = true.
Proof.
  unfold trim.
  pose proof (find_first_not_of_split blanks s) as F.
  destruct (find_first_not_of blanks s) as [n|].
  - destruct F as (O & a & rest & D & B).
    pose proof (find_last_not_of_split blanks (drop n s)) as L.
    destruct (find_last_not_of blanks (drop n s)) as [m|].
    + destruct L as (O2 & _).
      exists (take n s), (drop (S m) (drop n s)).
      rewrite take_drop, take_drop. auto.
    + exists (take n s), (drop n s). cbn [take String.append].
      rewrite take_drop. auto.
  - exists s, "". cbn [find_last_not_of take String.append].
    rewrite app_empty_r. auto.
Qed.

(** Both ends of a trimmed string that is not empty. *)
Lemma trim_ends (s : string) :
  trim s = ""
  \/ exists a body b,
      trim s = String a body /\ mem a blanks = false
      /\ (exists front, trim s = front ++ String b "") /\ mem b blanks = false.
Proof.
  unfold trim.
  pose proof (find_first_not_of_split blanks s) as F.
  destruct (find_first_not_of blanks s) as [n|]; [|now left].
  destruct F as (_ & a & rest & D & B).
  destruct (find_last_not_of_head blanks a rest B) as [m E].
  rewrite D, E.
  pose proof (find_last_not_of_split blanks (String a rest)) as L.
  rewrite E in L. destruct L as (_ & front & b & T & B2).
  right. exists a, (take m rest), b. split; [reflexivity|].
  split; [exact B|]. split; [|exact B2]. exists front. exact T.
Qed.

Lemma trim_fixed (a : ascii) (body front : string) (b : ascii) :
  mem a blanks = false -> mem b blanks = false ->
  String a body = front ++ String b "" ->
  trim (String a body) = String a body.
Proof.
  intros A B E. unfold trim. cbn [find_first_not_of]. rewrite A. cbn [drop].
  rewrite E, (find_last_not_of_end blanks front b B).
  replace (S (String.length front)) with (String.length (front ++ String b ""))
    by (rewrite length_append; cbn [String.length]; lia).
  apply take_all.
Qed.

(** Patterns that end in [>]. *)
Lemma contains_weaken (pat extra s : string) :
  contains (extra ++ pat) s = true -> contains pat s = true.
Proof.
  intros H. destruct (contains_elim _ _ H) as (pre & post & ->).
  rewrite app_assoc. rewrite <- (app_assoc pre extra (pat ++ post)).
  apply contains_intro.
Qed.

Lemma contains_shorten (pat extra s : string) :
  contains (pat ++ extra) s = true -> contains pat s = true.
Proof.
  intros H. destruct (contains_elim _ _ H) as (pre & post & ->).
  rewrite app_assoc. apply contains_intro.
Qed.

End RedirectFacts.

(** X11. The trimming idiom of [main], [cd], [cat], [put] and [append]
    removes blanks (spaces and tabs) from both ends and nothing else: the
    original is the trimmed string between two runs of blanks, a trimmed
    string that is not empty neither starts nor ends with a blank, and
    trimming twice changes nothing more. *)
Theorem trim_strips_both_ends (s : string) :
  (exists l r,
      s = l ++ Shell.trim s ++ r
      /\ Notions.only Shell.blanks l = true
      /\ Notions.only Shell.blanks r = true)
  /\ (forall a rest, Shell.trim s = String a rest ->
                     Str.mem a Shell.blanks = false)
  /\ (forall front b, Shell.trim s = front ++ String b "" ->
                      Str.mem b Shell.blanks = false)
  /\ Shell.trim (Shell.trim s) = Shell.trim s.
Proof.
  split; [|split; [|split]].
  - apply trim_shape.
  - intros a rest E. destruct (trim_ends s) as [Z|(a' & body & b & E1 & A & _)];
      congruence.
  - intros front b E.
    destruct (trim_ends s) as [Z|(a' & body & b' & _ & _ & [front' E2] & B)].
    + rewrite Z in E. destruct front; discriminate.
    + rewrite E in E2. apply last_char_unique in E2. now subst.
  - destruct (trim_ends s) as [->|(a & body & b & E1 & A & [front E2] & B)];
      [reflexivity|].
    rewrite E1. rewrite E1 in E2. eapply trim_fixed; eassumption.
Qed.


Lemma trim_strips_both_ends_witness :
  Str.mem "l"%char Shell.blanks = false.
Proof.
  apply (proj1 (proj2 (trim_strips_both_ends "  ls -a ")) "l"%char "s -a").
  reflexivity.
Defined.

(** ** Files: history.txt, [cat], [ls] and the redirected output *)

Section FileFacts.

Import Str Text Completion Shell Builtins Notions.

Lemma terminated_ends (s : string) :
  terminated s = true -> s <> "" -> exists body, s = body ++ Builtins.NL.
Proof.
  induction s as [|c s IH]; intros T N; [congruence|].
  destruct s as [|d s].
  - cbn [terminated] in T. apply Ascii.eqb_eq in T. subst c.
    exists "". reflexivity.
  - destruct IH as [body E]; [exact T | discriminate|].
    exists (String c body). cbn [String.append]. now rewrite <- E.
Qed.

Lemma terminated_app_nl (s : string) :
  terminated (s ++ String newline "") = true.
Proof.
  induction s as [|c s IH]; cbn [String.append terminated].
  - apply Ascii.eqb_refl.
  - destruct (s ++ String newline "") eqn:E; [now destruct s | exact IH].
Qed.

Lemma terminated_app (s t : string) :
  t <> "" -> terminated (s ++ t) = terminated t.
Proof.
  intros N. induction s as [|c s IH]; cbn [String.append]; [reflexivity|].
  rewrite terminated_cons; [exact IH|]. destruct s; [exact N | discriminate].
Qed.

Lemma filter_app_last {A} (f : A -> bool) (l : list A) (x : A) :
  f x = true -> filter f (l ++ [x]) = (filter f l ++ [x])%list.
Proof.
  intros H. induction l as [|y l IH]; cbn [app filter].
  - now rewrite H.
  - rewrite IH. now destruct (f y).
Qed.

(** A pattern with a character the string lacks is not found. *)
Lemma find_str_absent (pat s : string) (c : ascii) :
  mem c pat = true -> mem c s = false -> find_str pat s = None.
Proof.
  intros P S. destruct (find_str pat s) as [n|] eqn:F; [|reflexivity].
  assert (C : contains pat s = true) by (unfold contains; now rewrite F).
  destruct (contains_elim _ _ C) as (pre & post & ->).
  rewrite !mem_app, P in S. rewrite orb_true_l, orb_true_r in S. discriminate.
Qed.

Lemma substr_from_tail (head tail : string) :
  substr_from (head ++ tail) (Z.of_nat (String.length head)) = Some tail.
Proof.
  unfold substr_from. rewrite in_range_true.
  - now rewrite Nat2Z.id, drop_app_exact.
  - unfold size. rewrite length_append. lia.
Qed.

(** The accumulation of [ls] over the directory entries. *)
Lemma fold_names (entries : list string) (acc : string) :
  fold_left (fun contents name =>
               if hidden name then contents else (contents ++ name) ++ NL)
            entries acc
  = acc ++ fold_left (fun contents name =>
                        if hidden name then contents
                        else (contents ++ name) ++ NL)
                     entries "".
Proof.
  revert acc; induction entries as [|e entries IH]; intros acc; cbn [fold_left].
  - now rewrite app_empty_r.
  - destruct (hidden e); [apply IH|].
    rewrite IH. rewrite (IH (("" ++ e) ++ NL)). cbn [String.append].
    now rewrite !app_assoc.
Qed.

Lemma listing_lines (entries : list string) :
  Forall (fun name => mem newline name = false) entries ->
  let text := fold_left (fun contents name =>
                           if hidden name then contents
                           else (contents ++ name) ++ NL)
                        entries "" in
  getlines text = filter (fun name => negb (hidden name)) entries
  /\ terminated text = true.
Proof.
  induction 1 as [|e entries E _ IH]; cbn [fold_left filter]; [auto|].
  destruct (hidden e); cbn [negb]; [exact IH|].
  rewrite fold_names. cbn [String.append]. cbv zeta in IH.
  destruct IH as [IH1 IH2].
  set (rest := fold_left _ entries "") in *. split.
  - unfold getlines. rewrite getlines_loop_app.
    + unfold NL. rewrite getlines_loop_line by exact E. cbn [app String.append].
      f_equal. exact IH1.
    + apply terminated_app_nl.
    + unfold NL. destruct e; discriminate.
  - destruct rest as [|c r] eqn:R.
    + rewrite app_empty_r. apply terminated_app_nl.
    + rewrite terminated_app by discriminate. exact IH2.
Qed.

(** The operators of [output_finder], one character at a time. *)
Lemma output_finder_char (s : string) :
  (output_finder s = "" <-> mem ">" s = false)
  /\ (output_finder s = ">>" \/ output_finder s = "1>>"
      <-> contains ">>" s = true)
  /\ (output_finder s = ">"
      <-> mem ">" s = true /\ contains ">>" s = false)
  /\ output_finder s <> "1>".
Proof.
  unfold output_finder.
  pose proof (contains_weaken ">>" "1" s) as W1.
  pose proof (contains_shorten ">" ">" s) as W2.
  pose proof (contains_weaken ">" "1" s) as W3.
  pose proof (contains_char ">" s) as C.
  cbn [String.append] in W1, W2, W3.
  destruct (contains "1>>" s).
  { rewrite W1 in * by reflexivity. rewrite W2 in C by reflexivity.
    rewrite <- C. repeat split; try discriminate; auto.
    intros [_ X]; discriminate. }
  destruct (contains ">>" s).
  { rewrite W2 in C by reflexivity. rewrite <- C.
    repeat split; try discriminate; auto. intros [_ X]; discriminate. }
  destruct (contains ">" s).
  { rewrite <- C. repeat split; try discriminate; auto.
    intros [X|X]; discriminate. }
  destruct (contains "1>" s); [specialize (W3 eq_refl); discriminate|].
  rewrite <- C. repeat split; try discriminate; auto.
  - intros [X|X]; discriminate.
  - intros [X _]; discriminate.
Qed.

End FileFacts.

(** X12. [output_finder] answers [""] exactly when the command holds no
    [>], answers an appending operator exactly when the command holds
    [>>], and never answers ["1>"]: a command with [1>] is reported as
    [>]. *)
Theorem output_finder_cases (s : string) :
  (Builtins.output_finder s = "" <-> Str.mem ">" s = false)
  /\ (Builtins.output_finder s = ">>" \/ Builtins.output_finder s = "1>>"
      <-> Text.contains ">>" s = true)
  /\ (Builtins.output_finder s = ">"
      <-> Str.mem ">" s = true /\ Text.contains ">>" s = false)
  /\ Builtins.output_finder s <> "1>".
Proof. exact (output_finder_char s). Qed.

(** X13. Saving a command with [add_history] and reading history.txt
    back with [get_history] agree: when the file is empty, missing or
    ends with a newline, and the command is not empty and holds no
    newline, the reloaded history is the previously loadable history
    followed by the command, and the file again ends with a newline. *)
Theorem history_file_reloads
        (w : Builtins.world) (files : string -> option string)
        (input : string) :
  let old := match files "history.txt" with
             | Some text => text
             | None => ""
             end in
  Builtins.writable w "history.txt" = true ->
  Notions.terminated old = true ->
  input <> "" ->
  Str.mem Text.newline input = false ->
  exists new,
    fold_left Builtins.after_effect (Builtins.add_history w input) files
              "history.txt" = Some new
    /\ Notions.terminated new = true
    /\ Shell.get_history (Some (Text.getlines new))
       = (Shell.get_history (Some (Text.getlines old)) ++ [input])%list.
Proof.
  intros old W T N M. unfold Builtins.add_history. rewrite W.
  cbn [fold_left Builtins.after_effect]. rewrite String.eqb_refl.
  exists (old ++ input ++ Builtins.NL). split.
  - unfold old. destruct (files "history.txt"); reflexivity.
  - split.
    + rewrite <- app_assoc. apply terminated_app_nl.
    + unfold Text.getlines. rewrite getlines_loop_app.
      * unfold Builtins.NL. rewrite getlines_loop_line by exact M.
        cbn [String.append Shell.get_history].
        apply filter_app_last. destruct input; [congruence | reflexivity].
      * exact T.
      * auto.
Qed.

Lemma history_file_reloads_witness :
  exists new,
    fold_left Builtins.after_effect
      (Builtins.add_history
         (Builtins.mkWorld (fun _ => None) (fun _ => None) (fun _ => true)
                           (fun _ => false) None None "")
         "ls -a")
      (fun name => if String.eqb name "history.txt"
                   then Some ("pwd" ++ Builtins.NL) else None)
      "history.txt" = Some new
    /\ Notions.terminated new = true
    /\ Shell.get_history (Some (Text.getlines new))
       = (Shell.get_history (Some (Text.getlines ("pwd" ++ Builtins.NL)))
          ++ ["ls -a"])%list.
Proof.
  apply (history_file_reloads
           (Builtins.mkWorld (fun _ => None) (fun _ => None) (fun _ => true)
                             (fun _ => false) None None "")
           (fun name => if String.eqb name "history.txt"
                        then Some ("pwd" ++ Builtins.NL) else None)
           "ls -a"); try reflexivity.
  discriminate.
Defined.

(** X14. [cat] gives the file back: for a file name without spaces whose
    file opens, the returned text is the text of the file, with a newline
    added when its last line has none, and nothing is printed; only the
    first argument is read.  The result is empty exactly when the file
    is, and otherwise ends with a newline; it is never the failure mark
    ["-1"]. *)
Theorem cat_reproduces_file
        (w : Builtins.world) (f more text : string) :
  Str.mem " " f = false ->
  Builtins.file_text w (Shell.trim f) = Some text ->
  let result :=
    text ++ (if Notions.terminated text then "" else Builtins.NL) in
  Builtins.cat w ("cat " ++ f) = Some (result, [])
  /\ Builtins.cat w ("cat " ++ f ++ " " ++ more) = Some (result, [])
  /\ (result = "" <-> text = "")
  /\ (text <> "" -> exists body, result = body ++ Builtins.NL)
  /\ result <> "-1".
Proof.
  intros S F result.
  assert (T : Notions.terminated result = true).
  { unfold result. destruct (Notions.terminated text) eqn:E.
    - now rewrite app_empty_r.
    - apply terminated_app_nl. }
  assert (R : fold_left (fun contents line => contents ++ (line ++ Builtins.NL))
                        (Text.getlines text) "" = result).
  { unfold Text.getlines. rewrite getlines_loop_text by auto. reflexivity. }
  assert (Z : result = "" <-> text = "").
  { unfold result. split.
    - destruct text; [reflexivity | discriminate].
    - intros ->. reflexivity. }
  split; [|split; [|split; [|split]]].
  - unfold Builtins.cat.
    replace (Str.substr_from ("cat " ++ f) 4) with (Some f)
      by (symmetry; exact (substr_from_tail "cat " f)).
    cbn [bind].
    unfold Text.split. rewrite split_loop_single by exact S.
    cbn [String.append nth_error bind]. rewrite F, R. reflexivity.
  - unfold Builtins.cat.
    replace (Str.substr_from ("cat " ++ f ++ " " ++ more) 4)
      with (Some (f ++ " " ++ more))
      by (symmetry; exact (substr_from_tail "cat " (f ++ " " ++ more))).
    cbn [bind].
    unfold Text.split.
    change (f ++ " " ++ more) with (f ++ String " " more).
    destruct (split_loop_head " " f more "" S) as [others ->].
    cbn [String.append nth_error bind]. rewrite F, R. reflexivity.
  - exact Z.
  - intros N. apply terminated_ends; [exact T|].
    intros E. apply N. now apply Z.
  - intros E. rewrite E in T. discriminate.
Qed.

Lemma cat_reproduces_file_witness :
  Builtins.cat
    (Builtins.mkWorld (fun _ => None)
       (fun name => if String.eqb name "notes" then Some "a" else None)
       (fun _ => true) (fun _ => false) None None "")
    ("cat " ++ "notes") = Some ("a" ++ Builtins.NL, []).
Proof.
  apply (cat_reproduces_file
           (Builtins.mkWorld (fun _ => None)
              (fun name => if String.eqb name "notes" then Some "a" else None)
              (fun _ => true) (fun _ => false) None None "")
           "notes" "" "a"); reflexivity.
Defined.

(** X15. [ls] prints the entries that do not start with a dot, one per
    line, in directory order: for an argument without [>] whose
    directory opens and whose names hold no newline, the lines of the
    returned text are exactly those entries, the text is never the
    failure mark ["-1"], and what Tab completion offers from that
    directory for a partial no built-in starts with is the lines of this
    text that start with the partial. *)
Theorem ls_lists_visible_entries
        (w : Builtins.world) (d : string) (entries : list string) :
  Str.mem ">" d = false ->
  Builtins.dir_entries w (if Str.empty d then "." else d) = Some entries ->
  Forall (fun name => Str.mem Text.newline name = false) entries ->
  exists text,
    Builtins.ls w ("ls " ++ d) = Some (text, [])
    /\ Text.getlines text
       = filter (fun name => negb (Completion.hidden name)) entries
    /\ text <> "-1"
    /\ (forall partial,
          Completion.scan_commands partial = [] ->
          Completion.find_completion (Some entries) partial
          = filter (fun name => Completion.has_prefix name partial)
                   (Text.getlines text)).
Proof.
  intros G D N.
  destruct (listing_lines entries N) as [L T]. cbv zeta in L, T.
  eexists. split; [|split; [exact L|split]].
  - unfold Builtins.ls, Builtins.ls_path.
    replace (String.eqb ("ls " ++ d) "ls") with false by reflexivity.
    replace (Str.substr_from ("ls " ++ d) 3) with (Some d)
      by (symmetry; exact (substr_from_tail "ls " d)).
    cbn [bind].
    rewrite (find_str_absent "1>>" d ">"), (find_str_absent ">>" d ">"),
      (find_str_absent "1>" d ">"), (find_str_absent ">" d ">")
      by (reflexivity || exact G).
    rewrite D. reflexivity.
  - intros E. rewrite E in T. discriminate.
  - intros partial P. unfold Completion.find_completion. rewrite P, L.
    rewrite scan_dir_filter.
    assert (F : forall l,
               filter (fun name => negb (Completion.hidden name)
                                   && Completion.has_prefix name partial) l
               = filter (fun name => Completion.has_prefix name partial)
                        (filter (fun name => negb (Completion.hidden name)) l)).
    { induction l as [|x l IH]; cbn [filter]; [reflexivity|].
      destruct (Completion.hidden x); cbn [negb andb filter]; [exact IH|].
      now rewrite IH. }
    rewrite F. now destruct (filter _ (filter _ entries)).
Qed.

Lemma ls_lists_visible_entries_witness :
  exists text,
    Builtins.ls
      (Builtins.mkWorld
         (fun path => if String.eqb path "src" then Some ["main.cpp"; ".git"]
                      else None)
         (fun _ => None) (fun _ => true) (fun _ => false) None None "")
      ("ls " ++ "src") = Some (text, [])
    /\ Text.getlines text
       = filter (fun name => negb (Completion.hidden name)) ["main.cpp"; ".git"]
    /\ text <> "-1"
    /\ (forall partial,
          Completion.scan_commands partial = [] ->
          Completion.find_completion (Some ["main.cpp"; ".git"]) partial
          = filter (fun name => Completion.has_prefix name partial)
                   (Text.getlines text)).
Proof.
  apply (ls_lists_visible_entries
           (Builtins.mkWorld
              (fun path => if String.eqb path "src"
                           then Some ["main.cpp"; ".git"] else None)
              (fun _ => None) (fun _ => true) (fun _ => false) None None "")
           "src" ["main.cpp"; ".git"]).
  - reflexivity.
  - reflexivity.
  - repeat constructor.
Defined.

(** X16. Where the output of [ls] and [cat] goes: with no [>] in the
    command it is printed; with [>>] somewhere it is appended, followed
    by a newline, to the file named after the first [>>]; otherwise it
    replaces the file named after the first [>]; the file name is
    trimmed.  The failure mark ["-1"], which is never written, is left
    aside. *)
Theorem redirection_target
        (w : Builtins.world) (contents input : string) :
  contents <> "-1" ->
  (Str.mem ">" input = false ->
   Builtins.deliver w contents input = [Builtins.Stdout contents])
  /\ (forall n,
         Text.find_str ">>" input = Some n ->
         Builtins.writable w (Shell.trim (Str.drop (n + 2) input)) = true ->
         Builtins.deliver w contents input
         = [Builtins.Append (Shell.trim (Str.drop (n + 2) input))
                            (contents ++ Builtins.NL)])
  /\ (forall n,
         Text.find_str ">>" input = None ->
         Text.find_str ">" input = Some n ->
         Builtins.writable w (Shell.trim (Str.drop (n + 1) input)) = true ->
         Builtins.deliver w contents input
         = [Builtins.Truncate (Shell.trim (Str.drop (n + 1) input)) contents]).
Proof.
  intros C. apply String.eqb_neq in C.
  destruct (output_finder_char input) as (O1 & O2 & O3 & O4).
  unfold Builtins.deliver. split; [|split].
  - intros M. apply O1 in M. now rewrite M.
  - intros n F W.
    assert (K : Text.contains ">>" input = true)
      by (unfold Text.contains; now rewrite F).
    apply O2 in K.
    replace (String.eqb (Builtins.output_finder input) "") with false
      by (destruct K as [-> | ->]; reflexivity).
    replace (String.eqb (Builtins.output_finder input) "1>>"
             || String.eqb (Builtins.output_finder input) ">>") with true
      by (destruct K as [-> | ->]; reflexivity).
    unfold Builtins.append. rewrite C, F, W. reflexivity.
  - intros n F1 F2 W.
    assert (K : Builtins.output_finder input = ">").
    { apply O3. split.
      - rewrite <- contains_char. unfold Text.contains. now rewrite F2.
      - unfold Text.contains. now rewrite F1. }
    rewrite K. cbn [String.eqb Ascii.eqb Bool.eqb orb].
    unfold Builtins.put. rewrite C, F2.
    replace (Z.to_nat (Z.of_nat n + 1)) with (n + 1) by lia.
    rewrite W. reflexivity.
Qed.

Lemma redirection_target_witness :
  Builtins.deliver
    (Builtins.mkWorld (fun _ => None) (fun _ => None) (fun _ => true)
                      (fun _ => false) None None "")
    "a.txt" "ls >> out.txt"
  = [Builtins.Append "out.txt" ("a.txt" ++ Builtins.NL)].
Proof.
  apply (proj1 (proj2 (redirection_target
                         (Builtins.mkWorld (fun _ => None) (fun _ => None)
                            (fun _ => true) (fun _ => false) None None "")
                         "a.txt" "ls >> out.txt" ltac:(discriminate))) 3);
    reflexivity.
Defined.

(** X17. A failed [cat] or [ls] never touches the redirection target.
    When the file named by the first argument of [cat] does not open,
    whatever follows it on the line, or the directory of [ls] does not
    open, the command prints its error message and nothing is written to
    any file: with a [>] anywhere on the line that is all, and without
    one the failure mark ["-1"] is printed as it is. *)
Theorem failed_command_writes_nothing
        (w : Builtins.world) (history : list string)
        (f more path input : string) :
  (Str.mem " " f = false ->
   Builtins.file_text w (Shell.trim f) = None ->
   input = "cat " ++ f \/ input = "cat " ++ f ++ " " ++ more ->
   Builtins.dispatch w history "cat" input
   = Some ([Builtins.Stdout "Error: Could not open file ";
            Builtins.Stdout (Shell.trim f);
            Builtins.Stdout Builtins.NL]
           ++ (if Str.mem ">" input then []
               else [Builtins.Stdout "-1"]))%list)
  /\ (Builtins.ls_path input = Some path ->
      Builtins.dir_entries w path = None ->
      Builtins.dispatch w history "ls" input
      = Some ([Builtins.Stderr "ls: "; Builtins.Stderr path;
               Builtins.Stderr ": No such file or directory";
               Builtins.Stderr Builtins.NL]
              ++ (if Str.mem ">" input then []
                  else [Builtins.Stdout "-1"]))%list)
  /\ Builtins.deliver w "-1" input
     = (if Str.mem ">" input then [] else [Builtins.Stdout "-1"]).
Proof.
  assert (D : Builtins.deliver w "-1" input
              = (if Str.mem ">" input then [] else [Builtins.Stdout "-1"])).
  { destruct (output_finder_char input) as (O1 & _).
    unfold Builtins.deliver.
    destruct (Str.mem ">" input) eqn:M.
    + destruct (String.eqb_spec (Builtins.output_finder input) "") as [E|_].
      * apply O1 in E. congruence.
      * destruct (_ || _); reflexivity.
    + destruct O1 as [_ O1]. now rewrite (O1 eq_refl). }
  split; [|split; [|exact D]].
  - intros S F I.
    assert (C : Builtins.cat w input
                = Some ("-1", [Builtins.Stdout "Error: Could not open file ";
                               Builtins.Stdout (Shell.trim f);
                               Builtins.Stdout Builtins.NL])).
    { destruct I as [-> | ->]; unfold Builtins.cat.
      - replace (Str.substr_from ("cat " ++ f) 4) with (Some f)
          by (symmetry; exact (substr_from_tail "cat " f)).
        cbn [bind].
        unfold Text.split. rewrite split_loop_single by exact S.
        cbn [String.append nth_error bind]. rewrite F. reflexivity.
      - replace (Str.substr_from ("cat " ++ f ++ " " ++ more) 4)
          with (Some (f ++ " " ++ more))
          by (symmetry; exact (substr_from_tail "cat " (f ++ " " ++ more))).
        cbn [bind].
        unfold Text.split.
        change (f ++ " " ++ more) with (f ++ String " " more).
        destruct (split_loop_head " " f more "" S) as [others ->].
        cbn [String.append nth_error bind]. rewrite F. reflexivity. }
    change (Builtins.dispatch w history "cat" input)
      with (r <- Builtins.cat w input ;;
            Some (snd r ++ Builtins.deliver w (fst r) input)%list).
    rewrite C. cbn [bind fst snd]. now rewrite D.
  - intros P E.
    change (Builtins.dispatch w history "ls" input)
      with (r <- Builtins.ls w input ;;
            Some (snd r ++ Builtins.deliver w (fst r) input)%list).
    unfold Builtins.ls. rewrite P. cbn [bind]. rewrite E.
    cbn [bind fst snd]. now rewrite D.
Qed.

(** [cat missing > out.txt], where [missing] does not open: the error
    message and nothing else. *)
Lemma failed_command_writes_nothing_witness :
  Builtins.dispatch
    (Builtins.mkWorld (fun _ => None) (fun _ => None) (fun _ => true)
                      (fun _ => false) None None "")
    ["pwd"] "cat" "cat missing > out.txt"
  = Some [Builtins.Stdout "Error: Could not open file ";
          Builtins.Stdout "missing"; Builtins.Stdout Builtins.NL].
Proof.
  apply (proj1 (failed_command_writes_nothing
                  (Builtins.mkWorld (fun _ => None) (fun _ => None)
                     (fun _ => true) (fun _ => false) None None "")
                  ["pwd"] "missing" "> out.txt" "."
                  "cat missing > out.txt")).
  - reflexivity.
  - reflexivity.
  - right. reflexivity.
Defined.

(** ** [echo] *)

Section EchoFacts.

Import Str Text Completion Shell Builtins Notions.

Lemma squeeze_cons (a : ascii) (s : string) :
  Ascii.eqb a " " = false -> squeeze (String a s) = String a (squeeze s).
Proof. intros A. destruct s; cbn [squeeze]; [reflexivity | now rewrite A]. Qed.

Lemma squeeze_space_space (s : string) :
  squeeze (String " " (String " " s)) = squeeze (String " " s).
Proof. reflexivity. Qed.

Lemma squeeze_space_cons (a : ascii) (s : string) :
  Ascii.eqb a " " = false ->
  squeeze (String " " (String a s)) = String " " (String a (squeeze s)).
Proof.
  intros A. change (squeeze (String " " (String a s)))
    with (if Ascii.eqb " " " " && Ascii.eqb a " "
          then squeeze (String a s) else String " " (squeeze (String a s))).
  rewrite A. cbn [Ascii.eqb Bool.eqb andb]. now rewrite squeeze_cons.
Qed.

Lemma mem_cons_false (c a : ascii) (s : string) :
  mem c (String a s) = false -> Ascii.eqb a c = false /\ mem c s = false.
Proof. cbn [mem]. apply orb_false_iff. Qed.

Lemma plain_cons (a : ascii) (s : string) :
  plain (String a s) ->
  Ascii.eqb a "'" = false /\ Ascii.eqb a dquote = false
  /\ Ascii.eqb a backslash = false /\ Ascii.eqb a ">" = false /\ plain s.
Proof.
  intros (P1 & P2 & P3 & P4).
  apply mem_cons_false in P1, P2, P3, P4. unfold plain. tauto.
Qed.

Lemma head_not_gt (s k : string) :
  mem ">" s = false -> s <> "" ->
  match s ++ k with
  | String n _ => Ascii.eqb n ">"
  | EmptyString => false
  end = false.
Proof.
  destruct s as [|a s]; [congruence|]. intros M _.
  apply mem_cons_false in M. cbn [String.append]. tauto.
Qed.

(** The loop over plain text [m], followed by anything: spaces after a
    space are dropped, every other character is copied, and the loop goes
    on with what follows.  A [1] must not stand right before a [>]. *)
Lemma echo_loop_plain (m k : string) :
  forall i c prev result,
    plain m ->
    Ascii.eqb prev backslash = false ->
    (forall k', k = String ">" k' -> forall u, m <> u ++ "1") ->
    exists prev' t,
      echo_loop (m ++ k) i 0 c prev result
      = echo_loop k (i + Z.of_nat (String.length m)) 0 c prev' (result ++ t)
      /\ (Ascii.eqb prev " " = false -> t = squeeze m)
      /\ (Ascii.eqb prev " " = true -> String " " t = squeeze (String " " m)).
Proof.
  induction m as [|a m IH]; intros i c prev result P B K.
  - exists prev, "". cbn [String.append String.length].
    rewrite app_empty_r, Z.add_0_r. auto.
  - destruct (plain_cons a m P) as (A1 & A2 & A3 & A4 & P').
    assert (G : (Ascii.eqb a "1"
                 && match m ++ k with
                    | String n _ => Ascii.eqb n ">"
                    | EmptyString => false
                    end) = false).
    { destruct m as [|b m'].
      - cbn [String.append]. destruct k as [|n k']; [apply andb_false_r|].
        destruct (Ascii.eqb_spec n ">") as [->|]; [|apply andb_false_r].
        destruct (Ascii.eqb_spec a "1") as [->|]; [|reflexivity].
        exfalso. apply (K k' eq_refl ""). reflexivity.
      - rewrite head_not_gt; [apply andb_false_r | apply P' | discriminate]. }
    assert (K' : forall k', k = String ">" k' -> forall u, m <> u ++ "1").
    { intros k' E u F. apply (K k' E (String a u)). cbn [String.append].
      now rewrite F. }
    cbn [String.append echo_loop]. cbn [Z.eqb].
    rewrite G, A4. cbn [orb].
    destruct (Ascii.eqb a " ") eqn:S.
    + apply Ascii.eqb_eq in S. subst a.
      destruct (IH (i + 1)%Z c " "%char
                   (if negb (Ascii.eqb prev " ") then result ++ " " else result)
                   P' eq_refl K') as (prev' & t & E & _ & T).
      specialize (T eq_refl). rewrite E.
      cbn [String.length]. rewrite Nat2Z.inj_succ.
      replace (i + Z.succ (Z.of_nat (String.length m)))%Z
        with (i + 1 + Z.of_nat (String.length m))%Z by lia.
      destruct (Ascii.eqb prev " ") eqn:Q; cbn [negb].
      * exists prev', t. split; [reflexivity|]. split; [discriminate|].
        intros _. now rewrite squeeze_space_space.
      * exists prev', (String " " t). split.
        { now rewrite app_assoc. }
        split; [intros _; exact T | discriminate].
    + rewrite B, A1, A2, A3. cbn [orb negb].
      destruct (IH (i + 1)%Z c a (result ++ String a "") P' A3 K')
        as (prev' & t & E & T & _).
      specialize (T S). rewrite E.
      cbn [String.length]. rewrite Nat2Z.inj_succ.
      replace (i + Z.succ (Z.of_nat (String.length m)))%Z
        with (i + 1 + Z.of_nat (String.length m))%Z by lia.
      exists prev', (String a t). split.
      { now rewrite app_assoc. }
      rewrite T. split; intros _.
      * now rewrite squeeze_cons.
      * now rewrite squeeze_space_cons.
Qed.

(** Inside single quotes everything up to the closing quote is copied. *)
Lemma echo_loop_single_quoted (x : string) :
  forall i prev result,
    mem "'" x = false ->
    echo_loop (x ++ "'") i 1 "'" prev result = (result ++ x, "", (-1)%Z).
Proof.
  induction x as [|a x IH]; intros i prev result M.
  - cbn [String.append echo_loop]. cbn. now rewrite app_empty_r.
  - apply mem_cons_false in M. destruct M as [A M].
    cbn [String.append echo_loop]. cbn [Z.eqb Pos.eqb].
    replace (Ascii.eqb "'" dquote) with false by reflexivity.
    rewrite A. cbn [andb negb orb]. rewrite andb_false_r.
    rewrite IH by exact M. now rewrite app_assoc.
Qed.

(** Inside double quotes, text without backslash is copied likewise. *)
Lemma echo_loop_double_quoted (x : string) :
  forall i prev result,
    mem dquote x = false -> mem backslash x = false ->
    Ascii.eqb prev backslash = false ->
    echo_loop (x ++ String dquote "") i 1 dquote prev result
    = (result ++ x, "", (-1)%Z).
Proof.
  induction x as [|a x IH]; intros i prev result M1 M2 B.
  - cbn [String.append echo_loop]. cbn [Z.eqb Pos.eqb]. rewrite B.
    rewrite andb_false_r.
    replace (Ascii.eqb dquote "'") with false by reflexivity.
    rewrite Ascii.eqb_refl. cbn [andb]. now rewrite app_empty_r.
  - apply mem_cons_false in M1, M2. destruct M1 as [A1 M1], M2 as [A2 M2].
    cbn [String.append echo_loop]. cbn [Z.eqb Pos.eqb]. rewrite B.
    rewrite andb_false_r.
    replace (Ascii.eqb dquote "'") with false by reflexivity.
    rewrite andb_false_r, A1, A2, Ascii.eqb_refl. cbn [andb negb orb].
    rewrite IH by assumption. now rewrite app_assoc.
Qed.

(** What the loop leaves in [ap] and [fnd]. *)
Lemma echo_loop_report (message : string) :
  forall i token c prev result r a f,
    echo_loop message i token c prev result = (r, a, f) ->
    (a = "" /\ f = (-1)%Z)
    \/ (a = ">" /\ (i + 5 <= f <= i + 4 + Z.of_nat (String.length message))%Z)
    \/ (a = ">>"
        /\ (i + 6 <= f <= i + 4 + Z.of_nat (String.length message))%Z)
    \/ (a = "1>>"
        /\ (i + 7 <= f <= i + 5 + Z.of_nat (String.length message))%Z).
Proof.
  induction message as [|m rest IH]; intros i token c prev result r a f;
    cbn [echo_loop].
  - intros [= <- <- <-]. auto.
  - assert (N : forall token' c' prev' result',
               echo_loop rest (i + 1) token' c' prev' result' = (r, a, f) ->
               (a = "" /\ f = (-1)%Z)
               \/ (a = ">" /\ (i + 5 <= f
                               <= i + 4 + Z.of_nat (String.length (String m rest)))%Z)
               \/ (a = ">>" /\ (i + 6 <= f
                                <= i + 4 + Z.of_nat (String.length (String m rest)))%Z)
               \/ (a = "1>>" /\ (i + 7 <= f
                                 <= i + 5 + Z.of_nat (String.length (String m rest)))%Z)).
    { intros token' c' prev' result' E. apply IH in E.
      cbn [String.length]. rewrite Nat2Z.inj_succ.
      destruct E as [E|[(E & B)|[(E & B)|(E & B)]]]; auto;
        [right; left | right; right; left | right; right; right];
        (split; [exact E | lia]). }
    destruct (token =? 1)%Z.
    + destruct (_ && _); [apply N|].
      destruct (_ && _); [apply N|].
      destruct (_ && _); [apply N|].
      destruct (_ || _); apply N.
    + destruct rest as [|n rest']; cbv beta iota zeta.
      * rewrite andb_false_r. cbn [orb].
        destruct (Ascii.eqb m ">") eqn:G.
        { destruct (Ascii.eqb m "1") eqn:O.
          - apply Ascii.eqb_eq in G, O. congruence.
          - intros [= <- <- <-]. right. left. cbn [String.length].
            split; [reflexivity | lia]. }
        destruct (Ascii.eqb m " "); [apply N|].
        destruct (Ascii.eqb prev backslash); [apply N|].
        destruct (_ || _); [apply N|].
        destruct (negb _); apply N.
      * destruct ((Ascii.eqb m "1" && Ascii.eqb n ">") || Ascii.eqb m ">") eqn:G.
        { cbn [String.length]. rewrite !Nat2Z.inj_succ.
          destruct (Ascii.eqb m "1") eqn:O.
          - cbn [andb orb] in G.
            destruct (Ascii.eqb n ">") eqn:Q.
            + intros [= <- <- <-]. right. right. right.
              split; [reflexivity | lia].
            + apply Ascii.eqb_eq in O. subst m. discriminate G.
          - destruct (Ascii.eqb n ">").
            + intros [= <- <- <-]. right. right. left.
              split; [reflexivity | lia].
            + intros [= <- <- <-]. right. left. split; [reflexivity | lia]. }
        clear G.
        destruct (Ascii.eqb m " "); [apply N|].
        destruct (Ascii.eqb prev backslash); [apply N|].
        destruct (_ || _); [apply N|].
        destruct (negb _); apply N.
Qed.

Lemma echo_long (input : string) :
  (5 <= size input)%Z ->
  echo input
  = let '(result, ap_, fnd_) := echo_loop (drop 5 input) 0 0 zero "-" "" in
    mkEcho result ap_ fnd_ false.
Proof.
  intros H. unfold echo.
  now replace (size input <? 5)%Z with false by (symmetry; apply Z.ltb_ge; lia).
Qed.

Lemma last_char (s : string) :
  s <> "" -> exists u c, s = u ++ String c "".
Proof.
  induction s as [|a s IH]; [congruence|]. intros _.
  destruct s as [|b s'].
  - exists "", a. reflexivity.
  - destruct IH as (u & c & E); [discriminate|].
    exists (String a u), c. cbn [String.append]. now rewrite E.
Qed.

Lemma squeeze_last (u : string) (c : ascii) :
  exists v, squeeze (u ++ String c "") = v ++ String c "".
Proof.
  induction u as [|a u IH]; cbn [String.append].
  - exists "". reflexivity.
  - destruct IH as [v E].
    destruct (u ++ String c "") as [|b r] eqn:R; [now destruct u|].
    change (squeeze (String a (String b r)))
      with (if Ascii.eqb a " " && Ascii.eqb b " "
            then squeeze (String b r) else String a (squeeze (String b r))).
    destruct (_ && _).
    + exists v. exact E.
    + exists (String a v). cbn [String.append]. now rewrite E.
Qed.

End EchoFacts.

(** X18. [echo] prints a single-quoted text as it stands: for any text
    without a single quote, [echo 'text'] returns the text, spaces,
    double quotes, backslashes and [>] included, and reports no
    redirection. *)
Theorem echo_single_quoted (x : string) :
  Str.mem "'" x = false ->
  Builtins.echo ("echo '" ++ x ++ "'") = Builtins.mkEcho x "" (-1) false.
Proof.
  intros M. rewrite echo_long.
  2:{ unfold Str.size. cbn [String.append String.length]. lia. }
  change (Str.drop 5 ("echo '" ++ x ++ "'")) with (String "'" (x ++ "'")).
  cbn [Builtins.echo_loop]. cbn [Z.eqb].
  replace (Ascii.eqb "'" "1") with false by reflexivity.
  replace (Ascii.eqb "'" ">") with false by reflexivity.
  replace (Ascii.eqb "'" " ") with false by reflexivity.
  replace (Ascii.eqb "-" Text.backslash) with false by reflexivity.
  rewrite Ascii.eqb_refl. cbn [andb orb].
  rewrite echo_loop_single_quoted by exact M. reflexivity.
Qed.

Lemma echo_single_quoted_witness :
  Builtins.echo ("echo '" ++ "a  > b" ++ "'")
  = Builtins.mkEcho "a  > b" "" (-1) false.
Proof. apply (echo_single_quoted "a  > b"). reflexivity. Defined.

(** X19. [echo] prints a double-quoted text as it stands when the text
    holds neither a double quote nor a backslash: spaces, single quotes
    and [>] are kept and no redirection is reported. *)
Theorem echo_double_quoted (x : string) :
  Str.mem Text.dquote x = false ->
  Str.mem Text.backslash x = false ->
  Builtins.echo ("echo " ++ String Text.dquote (x ++ String Text.dquote ""))
  = Builtins.mkEcho x "" (-1) false.
Proof.
  intros M1 M2. rewrite echo_long.
  2:{ unfold Str.size. cbn [String.append String.length]. lia. }
  change (Str.drop 5 ("echo " ++ String Text.dquote (x ++ String Text.dquote "")))
    with (String Text.dquote (x ++ String Text.dquote "")).
  cbn [Builtins.echo_loop]. cbn [Z.eqb].
  replace (Ascii.eqb Text.dquote "1") with false by reflexivity.
  replace (Ascii.eqb Text.dquote ">") with false by reflexivity.
  replace (Ascii.eqb Text.dquote " ") with false by reflexivity.
  replace (Ascii.eqb "-" Text.backslash) with false by reflexivity.
  rewrite Ascii.eqb_refl, orb_true_r. cbn [andb orb].
  rewrite echo_loop_double_quoted by (assumption || reflexivity).
  reflexivity.
Qed.

Lemma echo_double_quoted_witness :
  Builtins.echo ("echo " ++ String Text.dquote ("it's  >" ++ String Text.dquote ""))
  = Builtins.mkEcho "it's  >" "" (-1) false.
Proof. apply (echo_double_quoted "it's  >"); reflexivity. Defined.

(** X20. [echo] prints plain words with every run of spaces reduced to
    one space: for a text without quote, backslash and [>], the result is
    the text squeezed in this way (a leading run keeps one space) and no
    redirection is reported. *)
Theorem echo_squeezes_spaces (m : string) :
  Notions.plain m ->
  Builtins.echo ("echo " ++ m) = Builtins.mkEcho (Notions.squeeze m) "" (-1) false.
Proof.
  intros P. rewrite echo_long.
  2:{ unfold Str.size. cbn [String.append String.length]. lia. }
  change (Str.drop 5 ("echo " ++ m)) with m.
  destruct (echo_loop_plain m "" 0 zero "-" "" P eq_refl) as (p & t & E & T & _).
  { discriminate. }
  rewrite app_empty_r in E. rewrite E. cbn [Builtins.echo_loop String.append].
  now rewrite (T eq_refl).
Qed.

Lemma echo_squeezes_spaces_witness :
  Builtins.echo ("echo " ++ "a   b  c") = Builtins.mkEcho "a b c" "" (-1) false.
Proof.
  apply (echo_squeezes_spaces "a   b  c"). repeat split.
Defined.

(** X21. What [echo] reports about a redirection.  It never reports
    the operator ["1>"]: after plain words, a [1] directly followed by
    [>] is reported as the appending ["1>>"], whether one [>] follows or
    two, with [fnd] two characters past the [1] and the words before it
    as the text.  It reports no operator exactly when it leaves [fnd] at
    [-1], and the position where [main] then cuts the command ([fnd] for
    [>], [fnd - 1] for the appending operators) lies inside the command,
    after ["echo "]. *)
Theorem echo_redirection_report (input : string) :
  Builtins.ap (Builtins.echo input) <> "1>"
  /\ (Builtins.ap (Builtins.echo input) = ""
      <-> Builtins.fnd (Builtins.echo input) = (-1)%Z)
  /\ (Builtins.ap (Builtins.echo input) = ">" ->
      (5 <= Builtins.fnd (Builtins.echo input) < Str.size input)%Z)
  /\ (Builtins.ap (Builtins.echo input) <> "" ->
      Builtins.ap (Builtins.echo input) <> ">" ->
      (5 <= Builtins.fnd (Builtins.echo input) - 1 < Str.size input)%Z)
  /\ (forall m t,
         Notions.plain m ->
         input = "echo " ++ m ++ "1>" ++ t ->
         Builtins.echo input
         = Builtins.mkEcho (Notions.squeeze m) "1>>" (Str.size m + 7) false).
Proof.
  assert (New : forall m t,
             Notions.plain m ->
             input = "echo " ++ m ++ "1>" ++ t ->
             Builtins.echo input
             = Builtins.mkEcho (Notions.squeeze m) "1>>" (Str.size m + 7)
                               false).
  { intros m t P ->. rewrite echo_long.
    2:{ unfold Str.size. cbn [String.append String.length]. lia. }
    change (Str.drop 5 ("echo " ++ m ++ "1>" ++ t)) with (m ++ "1>" ++ t).
    destruct (echo_loop_plain m ("1>" ++ t) 0 zero "-" "" P eq_refl)
      as (p & t0 & E & T & _).
    { intros k' K. discriminate K. }
    rewrite E, (T eq_refl). reflexivity. }
  unfold Builtins.echo in *. destruct (Str.size input <? 5)%Z eqn:L.
  { cbn [Builtins.ap Builtins.fnd]. repeat split; try congruence.
    intros m t P I. specialize (New m t P I). discriminate New. }
  apply Z.ltb_ge in L.
  destruct (Builtins.echo_loop (Str.drop 5 input) 0 0 zero "-" "")
    as [[r a] f] eqn:E.
  apply echo_loop_report in E. cbn [Builtins.ap Builtins.fnd].
  rewrite length_drop in E. unfold Str.size in *.
  destruct E as [[-> ->]|[[-> B]|[[-> B]|[-> B]]]];
    (split; [discriminate|]); (split; [split; intros; (congruence || lia)|]);
    (split; [intros; try congruence; lia|]);
    (split; [intros; try congruence; lia | exact New]).
Qed.

Lemma echo_redirection_report_witness :
  (5 <= Builtins.fnd (Builtins.echo "echo hi > f") < Str.size "echo hi > f")%Z
  /\ Builtins.echo "echo hi 1> f" = Builtins.mkEcho "hi " "1>>" 10 false.
Proof.
  split.
  - apply (proj1 (proj2 (proj2 (echo_redirection_report "echo hi > f")))).
    reflexivity.
  - apply (proj2 (proj2 (proj2 (proj2
             (echo_redirection_report "echo hi 1> f")))) "hi " " f");
      [repeat split | reflexivity].
Defined.

(** ** The commands of [main] *)

Section DispatchFacts.

Import Str Text Completion Shell Builtins Notions.

Lemma find_char_some (c : ascii) (s : string) (n : nat) :
  find c s = Some n ->
  exists rest, s = take n s ++ String c rest /\ mem c (take n s) = false.
Proof.
  revert n; induction s as [|a s IH]; intros n; cbn [find]; [discriminate|].
  destruct (Ascii.eqb_spec a c) as [->|N].
  - intros [= <-]. exists s. split; reflexivity.
  - destruct (find c s) as [i|]; [|discriminate]. intros [= <-].
    destruct (IH i eq_refl) as (rest & E & M). exists rest.
    change (take (S i) (String a s)) with (String a (take i s)).
    cbn [String.append mem]. rewrite <- E, M.
    destruct (Ascii.eqb_spec a c); [contradiction | auto].
Qed.

(** A command line is its command, or its command, a space and more. *)
Lemma command_of_split (input : string) :
  input = command_of input
  \/ exists rest, input = command_of input ++ String " " rest.
Proof.
  unfold command_of. destruct (find " " input) as [n|] eqn:F; [|now left].
  right. destruct (find_char_some _ _ _ F) as (rest & E & _). eauto.
Qed.

Lemma substr_from_some (s : string) (pos : Z) :
  (0 <= pos <= size s)%Z -> exists t, substr_from s pos = Some t.
Proof. intros H. unfold substr_from. rewrite in_range_true by exact H. eauto. Qed.

Lemma substr_from_none (s : string) (pos : Z) :
  (size s < pos)%Z -> substr_from s pos = None.
Proof.
  intros H. unfold substr_from, in_range.
  replace (pos <=? size s)%Z with false by (symmetry; apply Z.leb_gt; lia).
  now rewrite andb_false_r.
Qed.

Lemma size_command_more (command rest : string) :
  size (command ++ String " " rest)
  = (size command + 1 + size rest)%Z.
Proof.
  unfold size. rewrite length_append. cbn [String.length]. lia.
Qed.

(** The printing loop of [history]. *)
Lemma history_loop_numbered (shown : list string) :
  forall older,
    history_loop (older ++ shown) (Z.of_nat (List.length older))
                 (List.length shown)
    = Some (numbered (S (List.length older)) shown).
Proof.
  induction shown as [|e shown IH]; intros older; cbn [List.length history_loop];
    [reflexivity|].
  rewrite vec_at_nth, nth_error_app2 by lia. rewrite Nat.sub_diag.
  cbn [nth_error bind].
  specialize (IH (older ++ [e])%list).
  rewrite <- List.app_assoc in IH. cbn [app] in IH.
  rewrite List.length_app in IH. cbn [List.length] in IH.
  replace (Z.of_nat (List.length older) + 1)%Z
    with (Z.of_nat (List.length older + 1)) by lia.
  rewrite IH. cbn [bind numbered app].
  replace (List.length older + 1) with (S (List.length older)) by lia.
  reflexivity.
Qed.

Lemma history_from_numbered (history : list string) (k : nat) :
  k <= List.length history ->
  history_from history (Z.of_nat k)
  = Some (numbered (S k) (skipn k history)).
Proof.
  intros K. unfold history_from.
  pose proof (history_loop_numbered (skipn k history) (firstn k history)) as H.
  rewrite firstn_skipn in H. rewrite length_firstn in H.
  rewrite length_skipn in H.
  replace (Nat.min k (List.length history)) with k in H by lia.
  replace (Z.to_nat (Z.of_nat (List.length history) - Z.of_nat k))
    with (List.length history - k) by lia.
  exact H.
Qed.

(** [history] with an argument: a message, or the end of the list. *)
Lemma run_history_argument (history : list string) (num : string) :
  exists effects,
    run_history history "history" ("history " ++ num) = Some effects
    /\ (only_errors effects
        \/ exists k,
            k < List.length history
            /\ effects = numbered (S k) (skipn k history)).
Proof.
  unfold run_history.
  replace (String.eqb "history" ("history " ++ num)) with false by reflexivity.
  cbn [negb].
  replace (substr_from ("history " ++ num) 8) with (Some num)
    by (symmetry; exact (substr_from_tail "history " num)).
  cbn [bind].
  destruct (empty num).
  { eexists. split; [reflexivity|]. left. repeat constructor. }
  destruct (stoll num) as [v| |].
  - destruct (_ || _) eqn:C.
    + eexists. split; [reflexivity|]. left. repeat constructor.
    + apply orb_false_iff in C. destruct C as [C1 C2].
      apply Z.ltb_ge in C1, C2.
      pose proof (history_from_numbered history
                    (List.length history - Z.to_nat (to_int v))) as H.
      replace (Z.of_nat (List.length history - Z.to_nat (to_int v)))
        with (Z.of_nat (List.length history) - to_int v)%Z in H by lia.
      rewrite H by lia. eexists. split; [reflexivity|]. right.
      eexists. split; [|reflexivity]. lia.
  - eexists. split; [reflexivity|]. left. repeat constructor.
  - eexists. split; [reflexivity|]. left. repeat constructor.
Qed.

Lemma run_echo_total (w : world) (input : string) :
  exists effects, run_echo w input = Some effects.
Proof.
  unfold run_echo.
  assert (R : forall r a f,
             echo_loop (drop 5 input) 0 0 zero "-" "" = (r, a, f) ->
             (5 <= size input)%Z ->
             (a = "" /\ f = (-1)%Z)
             \/ (a = ">" /\ (0 <= f <= size input)%Z)
             \/ (a <> "1>" /\ a <> ">" /\ (0 <= f - 1 <= size input)%Z)).
  { intros r a f E L. apply echo_loop_report in E.
    rewrite length_drop in E. unfold size in *.
    destruct E as [E|[[-> B]|[[-> B]|[-> B]]]]; auto.
    - right. left. split; [reflexivity | lia].
    - right. right. repeat split; try discriminate; lia.
    - right. right. repeat split; try discriminate; lia. }
  unfold echo. destruct (size input <? 5)%Z eqn:L.
  { cbn [fnd ap echoed complained]. cbn. eauto. }
  apply Z.ltb_ge in L.
  destruct (echo_loop (drop 5 input) 0 0 zero "-" "") as [[r a] f] eqn:E.
  cbn [fnd ap echoed complained app].
  destruct (R r a f eq_refl L) as [[-> ->]|[[-> B]|(N1 & N2 & B)]].
  - cbn. eauto.
  - replace (negb (f =? -1)%Z) with true
      by (symmetry; apply negb_true_iff, Z.eqb_neq; lia).
    cbn [String.eqb Ascii.eqb Bool.eqb orb].
    destruct (substr_from_some input f B) as [t ->]. cbn [bind]. eauto.
  - destruct (negb (f =? -1)%Z); [|eauto].
    apply String.eqb_neq in N1, N2. rewrite N1, N2. cbn [orb].
    destruct (substr_from_some input (f - 1) B) as [t ->]. cbn [bind]. eauto.
Qed.

Lemma split_first (sep : ascii) (s : string) :
  exists first, nth_error (split sep s) 0 = Some first.
Proof.
  unfold split. destruct (split_loop_first sep s "") as (f & o & ->).
  cbn [nth_error]. eauto.
Qed.

(** Which command lines make their command throw. *)
Lemma dispatch_throws (w : world) (history : list string) (input : string) :
  dispatch w history (command_of input) input = None
  <-> input = "type" \/ input = "cat".
Proof.
  split.
  2:{ intros [-> | ->]; reflexivity. }
  unfold dispatch.
  destruct (found (command_of input)); [|discriminate].
  destruct (command_of_split input) as [E|[rest E]].
  - (* the command alone *)
    rewrite <- E.
    destruct (String.eqb_spec input "history") as [->|_].
    { unfold run_history. rewrite String.eqb_refl. cbn [negb].
      pose proof (history_from_numbered history 0 ltac:(lia)) as H.
      cbn [Z.of_nat] in H. rewrite H. discriminate. }
    destruct (String.eqb_spec input "echo") as [->|_].
    { destruct (run_echo_total w "echo") as [e ->]. discriminate. }
    destruct (String.eqb_spec input "type") as [->|_]; [auto|].
    destruct (String.eqb_spec input "pwd") as [->|_]; [discriminate|].
    destruct (String.eqb_spec input "cd") as [->|_].
    { unfold cd. cbn [String.eqb Ascii.eqb Bool.eqb].
      replace (substr_from "cd " 3) with (Some "") by reflexivity.
      cbn [bind]. destruct (String.eqb _ "~"); [|discriminate].
      destruct (userprofile w); [discriminate|].
      destruct (home w); discriminate. }
    destruct (String.eqb_spec input "ls") as [->|_].
    { unfold ls, ls_path. cbn [String.eqb Ascii.eqb Bool.eqb].
      replace (substr_from "ls " 3) with (Some "") by reflexivity.
      cbn [bind]. cbn. destruct (dir_entries w "."); discriminate. }
    destruct (String.eqb_spec input "cat") as [->|_]; [auto|].
    discriminate.
  - (* the command, a space, and more *)
    set (command := command_of input) in *.
    destruct (String.eqb_spec command "history") as [C|_].
    { rewrite E, C. change ("history" ++ String " " rest) with ("history " ++ rest).
      destruct (run_history_argument history rest) as (e & -> & _).
      discriminate. }
    destruct (String.eqb_spec command "echo") as [C|_].
    { destruct (run_echo_total w input) as [e ->]. discriminate. }
    destruct (String.eqb_spec command "type") as [C|_].
    { rewrite E, C. unfold type_.
      replace (substr_from ("type" ++ String " " rest) 5) with (Some rest)
        by (symmetry; exact (substr_from_tail "type " rest)).
      discriminate. }
    destruct (String.eqb_spec command "pwd") as [C|_]; [discriminate|].
    destruct (String.eqb_spec command "cd") as [C|_].
    { rewrite E, C. unfold cd.
      replace (String.eqb ("cd" ++ String " " rest) "cd") with false
        by reflexivity.
      replace (substr_from ("cd" ++ String " " rest) 3) with (Some rest)
        by (symmetry; exact (substr_from_tail "cd " rest)).
      cbn [bind]. destruct (String.eqb _ "~"); [|discriminate].
      destruct (userprofile w); [discriminate|].
      destruct (home w); discriminate. }
    destruct (String.eqb_spec command "ls") as [C|_].
    { rewrite E, C. unfold ls, ls_path.
      replace (String.eqb ("ls" ++ String " " rest) "ls") with false
        by reflexivity.
      replace (substr_from ("ls" ++ String " " rest) 3) with (Some rest)
        by (symmetry; exact (substr_from_tail "ls " rest)).
      cbn [bind]. destruct (dir_entries w _); discriminate. }
    destruct (String.eqb_spec command "cat") as [C|_]; [|discriminate].
    rewrite E, C. unfold cat.
    replace (substr_from ("cat" ++ String " " rest) 4) with (Some rest)
      by (symmetry; exact (substr_from_tail "cat " rest)).
    cbn [bind]. destruct (split_first " " rest) as [f ->]. cbn [bind].
    destruct (file_text w _); discriminate.
Qed.

End DispatchFacts.

(** X22. [echo TEXT > FILE] and [echo TEXT >> FILE]: for plain words
    that do not end with the digit 1 and a file name without [>] that
    can be opened, the first replaces the file by the words with their
    spaces squeezed, the second appends them followed by a newline; the
    file name is trimmed. *)
Theorem echo_writes_to_file (w : Builtins.world) (m t : string) :
  Notions.plain m ->
  (forall u, m <> u ++ "1") ->
  Str.mem ">" t = false ->
  Builtins.writable w (Shell.trim t) = true ->
  Builtins.run_echo w ("echo " ++ m ++ ">" ++ t)
  = Some [Builtins.Truncate (Shell.trim t) (Notions.squeeze m)]
  /\ Builtins.run_echo w ("echo " ++ m ++ ">>" ++ t)
     = Some [Builtins.Append (Shell.trim t) (Notions.squeeze m ++ Builtins.NL)].
Proof.
  intros P N G W.
  assert (S1 : String.eqb (Notions.squeeze m) "-1" = false).
  { apply String.eqb_neq. intros E. destruct m as [|a m'] eqn:M.
    - discriminate E.
    - destruct (last_char (String a m')) as (u & c & L); [discriminate|].
      destruct (squeeze_last u c) as [v V]. rewrite L in E. rewrite V in E.
      change "-1" with ("-" ++ String "1" "") in E.
      apply last_char_unique in E. subst c. exact (N u L). }
  assert (H : forall k, (5 <= Str.size ("echo " ++ m ++ k))%Z).
  { intros k. unfold Str.size. cbn [String.append String.length]. lia. }
  assert (T : forall k, Str.substr_from ("echo " ++ m ++ k)
                          (Z.of_nat (String.length m) + 5) = Some k).
  { intros k. rewrite <- app_assoc.
    replace (Z.of_nat (String.length m) + 5)%Z
      with (Z.of_nat (String.length ("echo " ++ m)))
      by (cbn [String.append String.length]; lia).
    apply substr_from_tail. }
  assert (F0 : forall pat post, Text.find_str pat (pat ++ post) = Some 0).
  { intros pat post.
    assert (Q : prefix pat (pat ++ post) = true) by (apply prefix_iff; eauto).
    destruct (pat ++ post); cbn [Text.find_str]; now rewrite Q. }
  pose proof (F0 ">" t) as F1. pose proof (F0 ">>" t) as F2.
  split.
  - destruct (echo_loop_plain m (String ">" t) 0 zero "-" "" P eq_refl)
      as (p & r & E & R & _).
    { intros k' _. exact N. }
    specialize (R eq_refl). subst r.
    unfold Builtins.run_echo. rewrite echo_long by apply H.
    change (Str.drop 5 ("echo " ++ m ++ ">" ++ t)) with (m ++ String ">" t).
    rewrite E. cbn [Builtins.echo_loop]. cbn [Z.eqb].
    replace (Ascii.eqb ">" "1") with false by reflexivity.
    rewrite Ascii.eqb_refl. cbn [andb orb String.append].
    replace (match t with
             | String n _ => Ascii.eqb n ">"
             | EmptyString => false
             end) with false
      by (destruct t as [|n t']; [reflexivity|];
          apply mem_cons_false in G; symmetry; apply G).
    cbn [Builtins.fnd Builtins.ap Builtins.echoed Builtins.complained app].
    replace (negb (0 + Z.of_nat (String.length m) + 5 =? -1)%Z) with true
      by (symmetry; apply negb_true_iff, Z.eqb_neq; lia).
    cbn [String.eqb Ascii.eqb Bool.eqb orb].
    replace (0 + Z.of_nat (String.length m) + 5)%Z
      with (Z.of_nat (String.length m) + 5)%Z by lia.
    pose proof (T (String ">" t)) as T1. cbn [String.append] in T1.
    rewrite T1. cbn [bind]. unfold Builtins.put.
    change (String ">" t) with (">" ++ t). rewrite S1, F1.
    change (Str.drop (Z.to_nat (Z.of_nat 0 + 1)) (">" ++ t)) with t.
    now rewrite W.
  - destruct (echo_loop_plain m (String ">" (String ">" t)) 0 zero "-" ""
                P eq_refl) as (p & r & E & R & _).
    { intros k' _. exact N. }
    specialize (R eq_refl). subst r.
    unfold Builtins.run_echo. rewrite echo_long by apply H.
    change (Str.drop 5 ("echo " ++ m ++ ">>" ++ t))
      with (m ++ String ">" (String ">" t)).
    rewrite E. cbn [Builtins.echo_loop]. cbn [Z.eqb].
    replace (Ascii.eqb ">" "1") with false by reflexivity.
    rewrite Ascii.eqb_refl. cbn [andb orb String.append].
    cbn [Builtins.fnd Builtins.ap Builtins.echoed Builtins.complained app].
    replace (negb (0 + Z.of_nat (String.length m) + 6 =? -1)%Z) with true
      by (symmetry; apply negb_true_iff, Z.eqb_neq; lia).
    cbn [String.eqb Ascii.eqb Bool.eqb orb andb].
    replace (0 + Z.of_nat (String.length m) + 6 - 1)%Z
      with (Z.of_nat (String.length m) + 5)%Z by lia.
    pose proof (T (String ">" (String ">" t))) as T1.
    cbn [String.append] in T1.
    rewrite T1. cbn [bind]. unfold Builtins.append.
    change (String ">" (String ">" t)) with (">>" ++ t). rewrite S1, F2.
    change (Str.drop (0 + 2) (">>" ++ t)) with t. now rewrite W.
Qed.

Lemma echo_writes_to_file_witness :
  Builtins.run_echo
    (Builtins.mkWorld (fun _ => None) (fun _ => None) (fun _ => true)
                      (fun _ => false) None None "")
    ("echo " ++ "hello   world" ++ ">" ++ " out.txt")
  = Some [Builtins.Truncate "out.txt" "hello world"].
Proof.
  apply (proj1 (echo_writes_to_file
                  (Builtins.mkWorld (fun _ => None) (fun _ => None)
                     (fun _ => true) (fun _ => false) None None "")
                  "hello   world" " out.txt"
                  ltac:(repeat split)
                  ltac:(intros u E;
                        change "hello   world"
                          with ("hello   worl" ++ String "d" "") in E;
                        apply last_char_unique in E; discriminate E)
                  eq_refl eq_refl)).
Defined.

(** X23. [type] names the built-ins: [type NAME] prints that NAME is a
    shell builtin exactly for the eight commands of the table and
    [NAME: not found] for anything else; the bare command [type], the
    only line starting with the command [type] that is shorter than five
    characters, makes it throw. *)
Theorem type_reports_builtins (input name : string) :
  (Shell.command_of input = "type" ->
   (Builtins.type_ input = None <-> input = "type"))
  /\ (In name Completion.commands ->
      Builtins.type_ ("type " ++ name)
      = Some [Builtins.Stdout name; Builtins.Stdout " is a shell builtin";
              Builtins.Stdout Builtins.NL])
  /\ (~ In name Completion.commands ->
      Builtins.type_ ("type " ++ name)
      = Some [Builtins.Stdout name;
              Builtins.Stdout (": not found" ++ Builtins.NL)]).
Proof.
  assert (T : forall n, Builtins.type_ ("type " ++ n)
                        = Some (Builtins.Stdout n
                                :: (if Builtins.found n
                                    then [Builtins.Stdout " is a shell builtin";
                                          Builtins.Stdout Builtins.NL]
                                    else [Builtins.Stdout
                                            (": not found" ++ Builtins.NL)]))).
  { intros n. unfold Builtins.type_.
    replace (Str.substr_from ("type " ++ n) 5) with (Some n)
      by (symmetry; exact (substr_from_tail "type " n)).
    reflexivity. }
  split; [|split].
  - intros C. destruct (command_of_split input) as [E|[rest E]];
      rewrite C in E.
    + subst input. split; [reflexivity|]. intros _. reflexivity.
    + subst input. change ("type" ++ String " " rest) with ("type " ++ rest).
      rewrite T. split; [discriminate|].
      intros E. apply (f_equal String.length) in E.
      cbn [String.append String.length] in E. lia.
  - intros I. rewrite T.
    replace (Builtins.found name) with true; [reflexivity|].
    symmetry. apply existsb_exists. exists name.
    split; [exact I | apply String.eqb_refl].
  - intros I. rewrite T.
    replace (Builtins.found name) with false; [reflexivity|].
    symmetry. apply not_true_iff_false. intros F.
    apply existsb_exists in F. destruct F as (x & X & E).
    apply String.eqb_eq in E. subst x. contradiction.
Qed.

Lemma type_reports_builtins_witness :
  Builtins.type_ ("type " ++ "pwd")
  = Some [Builtins.Stdout "pwd"; Builtins.Stdout " is a shell builtin";
          Builtins.Stdout Builtins.NL].
Proof.
  apply (proj1 (proj2 (type_reports_builtins "" "pwd"))).
  cbn. tauto.
Defined.

(** X24. [history N] lists the last N entries, each with its position in
    the whole history (counted from 1), oldest first; [history] alone
    lists them all.  The argument is what [stoll] reads from the text
    after the command; N must be at least 1 and at most the number of
    entries, which itself fits in an [int]. *)
Theorem history_lists_last_entries (older shown : list string) (num : string) :
  shown <> [] ->
  Text.stoll num = Text.Parsed (Z.of_nat (List.length shown)) ->
  (Z.of_nat (List.length shown) < 2 ^ 31)%Z ->
  Builtins.run_history (older ++ shown) "history" ("history " ++ num)
  = Some (Notions.numbered (S (List.length older)) shown)
  /\ Builtins.run_history (older ++ shown) "history" "history"
     = Some (Notions.numbered 1 (older ++ shown)).
Proof.
  intros N P B. split.
  - unfold Builtins.run_history.
    replace (String.eqb "history" ("history " ++ num)) with false by reflexivity.
    cbn [negb].
    replace (Str.substr_from ("history " ++ num) 8) with (Some num)
      by (symmetry; exact (substr_from_tail "history " num)).
    cbn [bind].
    destruct num as [|c num']; [discriminate P|]. cbn [Str.empty].
    rewrite P.
    assert (L : 0 < List.length shown) by (destruct shown; [congruence | cbn; lia]).
    replace (Text.to_int (Z.of_nat (List.length shown)))
      with (Z.of_nat (List.length shown))
      by (unfold Text.to_int; rewrite Z.mod_small; lia).
    rewrite List.length_app.
    replace (Z.of_nat (List.length shown) <? 1)%Z with false
      by (symmetry; apply Z.ltb_ge; lia).
    replace (Z.of_nat (List.length older + List.length shown)
             <? Z.of_nat (List.length shown))%Z with false
      by (symmetry; apply Z.ltb_ge; lia).
    cbn [orb]. unfold Builtins.history_from. rewrite List.length_app.
    replace (Z.of_nat (List.length older + List.length shown)
             - Z.of_nat (List.length shown))%Z
      with (Z.of_nat (List.length older)) by lia.
    replace (Z.to_nat (Z.of_nat (List.length older + List.length shown)
                       - Z.of_nat (List.length older)))
      with (List.length shown) by lia.
    apply history_loop_numbered.
  - unfold Builtins.run_history. rewrite String.eqb_refl. cbn [negb].
    pose proof (history_from_numbered (older ++ shown) 0 ltac:(lia)) as H.
    exact H.
Qed.

Lemma history_lists_last_entries_witness :
  Builtins.run_history (["pwd"] ++ ["ls"; "history 2"]) "history"
                       ("history " ++ "2")
  = Some (Notions.numbered 2 ["ls"; "history 2"]).
Proof.
  apply (proj1 (history_lists_last_entries ["pwd"] ["ls"; "history 2"] "2"
                  ltac:(discriminate) eq_refl ltac:(cbn; lia))).
Defined.

(** X25. Whatever follows [history ], the command does not throw and
    never shows anything but a tail of the history with the right
    numbers: it either prints only error messages, or lists the entries
    from some position to the end, numbered by their position. *)
Theorem history_prints_a_numbered_tail (history : list string) (num : string) :
  exists effects,
    Builtins.run_history history "history" ("history " ++ num) = Some effects
    /\ (Notions.only_errors effects
        \/ exists k,
            k < List.length history
            /\ effects = Notions.numbered (S k) (skipn k history)).
Proof. apply run_history_argument. Qed.

(** X26. The only lines that make [main] die of an uncaught exception
    are the bare commands [type] and [cat] (blanks around them or not):
    every other line is skipped, exits, or runs its command to the end.
    When it happens, the line is already in the history and saved. *)
Theorem only_bare_type_and_cat_throw
        (w : Builtins.world) (history : list string) (raw : string) :
  ((exists h e, Builtins.main_body w history raw = Builtins.Threw h e)
   <-> Shell.trim raw = "type" \/ Shell.trim raw = "cat")
  /\ (forall h e,
         Builtins.main_body w history raw = Builtins.Threw h e ->
         h = (history ++ [Shell.trim raw])%list
         /\ e = Builtins.add_history w (Shell.trim raw)).
Proof.
  unfold Builtins.main_body.
  destruct (trim_head raw) as [->|(a & rest & E & M)].
  { cbn [Str.empty]. split.
    - split; [intros (h & e & X); discriminate | intros [X|X]; discriminate].
    - discriminate. }
  rewrite E. cbn [Str.empty]. rewrite (command_of_nonempty a rest M).
  destruct (String.eqb_spec (String a rest) "exit 0") as [X|_].
  { split.
    - split; [intros (h & e & Y); discriminate|].
      rewrite X. intros [Y|Y]; discriminate.
    - discriminate. }
  pose proof (dispatch_throws w (history ++ [String a rest])%list
                (String a rest)) as D.
  destruct (Builtins.dispatch w _ _ (String a rest)) as [effects|].
  - split.
    + split; [intros (h & e & Y); discriminate|].
      intros Y. apply D in Y. discriminate.
    + discriminate.
  - split.
    + split; [intros _; now apply D | eauto].
    + intros h e [= <- <-]. auto.
Qed.

Lemma only_bare_type_and_cat_throw_witness :
  exists h e,
    Builtins.main_body
      (Builtins.mkWorld (fun _ => None) (fun _ => None) (fun _ => true)
                        (fun _ => false) None None "")
      ["pwd"] "  cat " = Builtins.Threw h e.
Proof.
  apply (proj2 (proj1 (only_bare_type_and_cat_throw
                         (Builtins.mkWorld (fun _ => None) (fun _ => None)
                            (fun _ => true) (fun _ => false) None None "")
                         ["pwd"] "  cat "))).
  right. reflexivity.
Defined.

(** ** The screen *)

Section ScreenFacts.

Import Str Editor Props Terminal.

Lemma chars_app (s t : string) :
  list_ascii_of_string (s ++ t)
  = (list_ascii_of_string s ++ list_ascii_of_string t)%list.
Proof.
  induction s as [|a s IH]; cbn [String.append list_ascii_of_string app];
    [reflexivity | now rewrite IH].
Qed.

Lemma chars_length (s : string) :
  List.length (list_ascii_of_string s) = String.length s.
Proof. induction s as [|a s IH]; cbn; [reflexivity | now rewrite IH]. Qed.

Lemma chars_take (n : nat) (s : string) :
  list_ascii_of_string (take n s) = firstn n (list_ascii_of_string s).
Proof.
  revert s; induction n as [|n IH]; intros [|a s]; cbn; try reflexivity.
  now rewrite IH.
Qed.

Lemma chars_drop (n : nat) (s : string) :
  list_ascii_of_string (drop n s) = skipn n (list_ascii_of_string s).
Proof.
  revert s; induction n as [|n IH]; intros [|a s]; cbn; try reflexivity.
  apply IH.
Qed.

Lemma overwrite_spec (n : nat) (c : ascii) (row : list ascii) :
  n <= List.length row ->
  overwrite n c row = (firstn n row ++ c :: skipn (S n) row)%list.
Proof.
  revert row; induction n as [|n IH]; intros [|a row] H; cbn in *;
    try reflexivity; try lia.
  f_equal. apply IH. lia.
Qed.

Lemma graphic_cons (c : ascii) (s : string) :
  graphic (String c s) = true ->
  Ascii.eqb c (ascii_of_nat 8) = false /\ graphic s = true.
Proof.
  cbn [graphic]. intros H. apply andb_true_iff in H. destruct H as [H G].
  apply andb_true_iff in H. destruct H as [L _]. apply Nat.leb_le in L.
  split; [|exact G]. apply Ascii.eqb_neq. intros ->.
  rewrite nat_ascii_embedding in L by lia. lia.
Qed.

Lemma graphic_app (s t : string) :
  graphic (s ++ t) = graphic s && graphic t.
Proof.
  induction s as [|a s IH]; cbn [String.append graphic]; [reflexivity|].
  rewrite IH. now rewrite andb_assoc.
Qed.

Lemma graphic_take (n : nat) (s : string) :
  graphic s = true -> graphic (take n s) = true.
Proof.
  revert s; induction n as [|n IH]; intros [|a s]; cbn [take graphic]; auto.
  intros H. apply andb_true_iff in H. destruct H as [H G].
  rewrite H. now apply IH.
Qed.

Lemma graphic_drop (n : nat) (s : string) :
  graphic s = true -> graphic (drop n s) = true.
Proof.
  revert s; induction n as [|n IH]; intros [|a s]; cbn [drop]; auto.
  intros H. cbn [graphic] in H. apply andb_true_iff in H. now apply IH.
Qed.

(** Writing graphic text at a column inside the line, or right at its
    end. *)
Lemma show_text_spec (s : string) :
  forall row k,
    graphic s = true -> k <= List.length row ->
    show_text (mkDisplay row k) s
    = mkDisplay (firstn k row ++ list_ascii_of_string s
                 ++ skipn (k + String.length s) row)%list
                (k + String.length s).
Proof.
  induction s as [|c s IH]; intros row k G K.
  - cbn [show_text list_ascii_of_string String.length app].
    rewrite Nat.add_0_r, firstn_skipn. reflexivity.
  - apply graphic_cons in G. destruct G as [B G].
    cbn [show_text]. unfold show_char. rewrite B. cbn [cells column].
    rewrite overwrite_spec by exact K.
    rewrite IH.
    2: exact G.
    2:{ rewrite List.length_app, length_firstn. cbn [List.length]. lia. }
    cbn [list_ascii_of_string String.length].
    f_equal; [|lia].
    assert (F : List.length (firstn k row) = k)
      by (rewrite length_firstn; lia).
    rewrite firstn_app, F.
    replace (S k - k) with 1 by lia.
    rewrite (firstn_all2 (n := S k)) by lia.
    cbn [firstn]. rewrite <- List.app_assoc. cbn [app]. f_equal. f_equal.
    f_equal.
    rewrite skipn_app, F.
    rewrite (skipn_all2 (n := S k + String.length s)) by lia.
    replace (S k + String.length s - k) with (S (String.length s)) by lia.
    rewrite List.app_nil_l, skipn_cons, skipn_skipn. f_equal. lia.
Qed.

Lemma render_app (d : display) (a b : list term_event) :
  render d (a ++ b) = render (render d a) b.
Proof. apply fold_left_app. Qed.

Lemma render_cons (d : display) (e : term_event) (l : list term_event) :
  render d (e :: l) = render (render d [e]) l.
Proof. reflexivity. Qed.

Lemma render_backspaces (row : list ascii) (k j : nat) :
  render (mkDisplay row k) (repeat (Write BS) j) = mkDisplay row (k - j).
Proof.
  revert k; induction j as [|j IH]; intros k; cbn [repeat render fold_left].
  - now rewrite Nat.sub_0_r.
  - change (fold_left show_event (repeat (Write BS) j)
                      (show_event (mkDisplay row k) (Write BS)))
      with (render (mkDisplay row (k - 1)) (repeat (Write BS) j)).
    rewrite IH. f_equal. lia.
Qed.

Lemma render_spaces (j : nat) :
  forall row k,
    k <= List.length row ->
    render (mkDisplay row k) (repeat (Write " ") j)
    = mkDisplay (firstn k row ++ repeat " "%char j ++ skipn (k + j) row)%list
                (k + j).
Proof.
  induction j as [|j IH]; intros row k K; cbn [repeat render fold_left].
  - cbn [app]. rewrite Nat.add_0_r, firstn_skipn. reflexivity.
  - change (fold_left show_event (repeat (Write " ") j)
                      (show_event (mkDisplay row k) (Write " ")))
      with (render (show_text (mkDisplay row k) " ") (repeat (Write " ") j)).
    rewrite show_text_spec by (reflexivity || exact K).
    cbn [list_ascii_of_string String.length app].
    assert (F : List.length (firstn k row) = k)
      by (rewrite length_firstn; lia).
    rewrite IH.
    2:{ rewrite List.length_app, F. cbn [List.length]. lia. }
    f_equal; [|lia].
    rewrite firstn_app, F. replace (k + 1 - k) with 1 by lia.
    rewrite (firstn_all2 (n := k + 1)) by lia.
    cbn [firstn]. rewrite <- List.app_assoc. cbn [app]. f_equal. f_equal.
    f_equal.
    rewrite skipn_app, F.
    rewrite (skipn_all2 (n := k + 1 + j)) by lia.
    replace (k + 1 + j - k) with (S j) by lia.
    rewrite List.app_nil_l, skipn_cons, skipn_skipn. f_equal. lia.
Qed.

Lemma render_write (row : list ascii) (k : nat) (s : string) :
  graphic s = true -> k <= List.length row ->
  render (mkDisplay row k) [Write s]
  = mkDisplay (firstn k row ++ list_ascii_of_string s
               ++ skipn (k + String.length s) row)%list
              (k + String.length s).
Proof. intros G K. cbn [render fold_left show_event]. now apply show_text_spec. Qed.

Lemma Forall_blank_skipn (n : nat) (pad : list ascii) :
  Forall (fun c => c = " "%char) pad ->
  Forall (fun c => c = " "%char) (skipn n pad).
Proof.
  intros H. rewrite <- (firstn_skipn n pad) in H.
  now apply Forall_app in H.
Qed.

Lemma Forall_blank_repeat (n : nat) :
  Forall (fun c => c = " "%char) (repeat " "%char n).
Proof. induction n; cbn [repeat]; auto. Qed.

Lemma firstn_app_exact (P R : list ascii) (k : nat) :
  k = List.length P -> firstn k (P ++ R) = P.
Proof.
  intros ->. rewrite firstn_app, Nat.sub_diag, firstn_all.
  cbn [firstn]. apply List.app_nil_r.
Qed.

Lemma skipn_app_more (P R : list ascii) (k j : nat) :
  k = List.length P + j -> skipn k (P ++ R) = skipn j R.
Proof.
  intros ->. rewrite skipn_app, skipn_all2 by lia.
  rewrite List.app_nil_l. f_equal. lia.
Qed.

(** The tail of the line redrawn one column to the left, as backspace and
    delete do it. *)
Lemma redraw_tail (A : string) (x : ascii) (B : string) (pad : list ascii) :
  graphic B = true ->
  render (mkDisplay (list_ascii_of_string A ++ x :: list_ascii_of_string B
                     ++ pad)%list (String.length A))
         ([Write B; Write " "] ++ repeat (Write BS) (String.length B + 1))
  = mkDisplay (list_ascii_of_string A ++ list_ascii_of_string B
               ++ " "%char :: pad)%list (String.length A).
Proof.
  intros G. rewrite render_app.
  change [Write B; Write " "] with ([Write B] ++ [Write " "])%list.
  rewrite render_app.
  rewrite render_write
    by (try exact G; rewrite List.length_app, chars_length; lia).
  rewrite firstn_app_exact by (rewrite chars_length; lia).
  rewrite (skipn_app_more _ _ _ (String.length B))
    by (rewrite chars_length; lia).
  set (T := skipn (String.length B) (x :: list_ascii_of_string B ++ pad)%list).
  assert (T1 : skipn 1 T = pad).
  { unfold T. rewrite skipn_skipn.
    replace (1 + String.length B) with (S (String.length B)) by lia.
    rewrite skipn_cons.
    rewrite (skipn_app_more _ _ _ 0) by (rewrite chars_length; lia).
    reflexivity. }
  rewrite render_write.
  2: reflexivity.
  2:{ rewrite !List.length_app, !chars_length. lia. }
  rewrite (List.app_assoc (list_ascii_of_string A) (list_ascii_of_string B) T).
  rewrite firstn_app_exact
    by (rewrite List.length_app, !chars_length; lia).
  rewrite (skipn_app_more _ _ _ 1)
    by (rewrite List.length_app, !chars_length; cbn [String.length]; lia).
  rewrite T1. rewrite render_backspaces. cbn [String.length].
  rewrite <- !List.app_assoc. cbn [list_ascii_of_string app].
  f_equal. lia.
Qed.

(** The whole line wiped and replaced, as the history keys do it. *)
Lemma redraw_line (L item : string) (pad : list ascii) (n : nat) :
  graphic item = true -> n <= String.length L ->
  render (mkDisplay (list_ascii_of_string L ++ pad)%list n)
         (repeat (Write BS) n
          ++ repeat (Write " ") (String.length L)
          ++ repeat (Write BS) (String.length L)
          ++ [Write item])
  = mkDisplay (list_ascii_of_string item
               ++ skipn (String.length item)
                        (repeat " "%char (String.length L) ++ pad))%list
              (String.length item).
Proof.
  intros G N. rewrite !render_app, render_backspaces, Nat.sub_diag.
  rewrite render_spaces by lia. cbn [firstn app Nat.add].
  rewrite (skipn_app_more _ _ _ 0) by (rewrite chars_length; lia).
  rewrite skipn_O.
  rewrite render_backspaces, Nat.sub_diag.
  rewrite render_write by (try exact G; lia).
  reflexivity.
Qed.

Lemma to_nat_size (s : string) : Z.to_nat (size s) = String.length s.
Proof. unfold size. apply Nat2Z.id. Qed.

Lemma drop_app_at (n : nat) (s t : string) :
  String.length s = n -> drop n (s ++ t) = t.
Proof. intros <-. apply drop_app_exact. Qed.

Lemma get_app_exact (s : string) (x : ascii) (t : string) :
  get (String.length s) (s ++ String x t) = Some x.
Proof. induction s as [|a s IH]; cbn; auto. Qed.

Lemma split_at (s : string) (n : nat) :
  n <= String.length s -> exists A B, s = A ++ B /\ String.length A = n.
Proof.
  intros H. exists (take n s), (drop n s). split.
  - symmetry. apply take_drop.
  - rewrite length_take. lia.
Qed.

Lemma split_char (s : string) (n : nat) :
  n < String.length s ->
  exists A x B, s = A ++ String x B /\ String.length A = n.
Proof.
  intros H. destruct (split_at s n ltac:(lia)) as (A & B & -> & L).
  destruct B as [|x B].
  - rewrite length_append in H. cbn [String.length] in H. lia.
  - eauto.
Qed.

(** The handlers at a buffer cut at the cursor. *)
Lemma insert_char_at (A B : string) (ch : Z) (st : state) :
  line st = A ++ B -> cursor_pos st = size A ->
  insert_char ch st
  = Some (mkState (A ++ String (char_byte ch) B) (size A + 1)
            (history_index st) (current_line_backup st) (lst st)
            (screen st ++ [Write (String (char_byte ch) B)]
             ++ repeat (Write BS) (String.length B))%list).
Proof.
  intros HL HC. unfold insert_char, insert1, substr_from.
  rewrite HL, HC.
  rewrite in_range_true by (rewrite size_app; unfold size; lia).
  cbn [bind]. rewrite to_nat_size, take_app_exact, drop_app_exact.
  rewrite in_range_true
    by (rewrite size_app; unfold size; cbn [String.length]; lia).
  cbn [bind]. replace (size A + 1 - 1)%Z with (size A) by lia.
  rewrite to_nat_size, drop_app_exact.
  unfold emit, set_line.
  cbn [line cursor_pos history_index current_line_backup lst screen
       String.length].
  replace (S (String.length B) - 1) with (String.length B) by lia.
  reflexivity.
Qed.

Lemma delete_at (A : string) (x : ascii) (B : string) (st : state) :
  line st = A ++ String x B -> cursor_pos st = size A ->
  delete st
  = Some (mkState (A ++ B) (size A)
            (history_index st) (current_line_backup st) (lst st)
            (screen st ++ [Write B; Write " "]
             ++ repeat (Write BS) (String.length B + 1))%list).
Proof.
  intros HL HC. unfold delete. rewrite HL, HC, empty_app_cons.
  replace (size A <? size (A ++ String x B))%Z with true
    by (symmetry; apply Z.ltb_lt; rewrite size_app; unfold size;
        cbn [String.length]; lia).
  cbn [negb andb].
  rewrite erase1_spec
    by (rewrite size_app; unfold size; cbn [String.length]; lia).
  cbn [bind]. rewrite to_nat_size, take_app_exact, drop_app_skip.
  unfold substr_from.
  rewrite in_range_true by (rewrite size_app; unfold size; lia).
  cbn [bind]. rewrite to_nat_size, drop_app_exact. reflexivity.
Qed.

Lemma backspace_at (A : string) (x : ascii) (B : string) (st : state) :
  line st = A ++ String x B -> cursor_pos st = (size A + 1)%Z ->
  backspace st
  = Some (mkState (A ++ B) (size A)
            (history_index st) (current_line_backup st) (lst st)
            (screen st ++ [Write BS; Write B; Write " "]
             ++ repeat (Write BS) (String.length B + 1))%list).
Proof.
  intros HL HC. unfold backspace. rewrite HL, HC, empty_app_cons.
  replace (0 <? size A + 1)%Z with true
    by (symmetry; apply Z.ltb_lt; unfold size; lia).
  cbn [negb andb]. replace (size A + 1 - 1)%Z with (size A) by lia.
  rewrite erase1_spec
    by (rewrite size_app; unfold size; cbn [String.length]; lia).
  cbn [bind]. rewrite to_nat_size, take_app_exact, drop_app_skip.
  unfold substr_from.
  rewrite in_range_true by (rewrite size_app; unfold size; lia).
  cbn [bind]. rewrite to_nat_size, drop_app_exact. reflexivity.
Qed.

Lemma right_at (A : string) (x : ascii) (B : string) (st : state) :
  line st = A ++ String x B -> cursor_pos st = size A ->
  right st
  = Some (mkState (line st) (size A + 1)
            (history_index st) (current_line_backup st) (lst st)
            (screen st ++ [Write (String x EmptyString)])%list).
Proof.
  intros HL HC. unfold right. rewrite HL, HC.
  replace (size A <? size (A ++ String x B))%Z with true
    by (symmetry; apply Z.ltb_lt; rewrite size_app; unfold size;
        cbn [String.length]; lia).
  unfold at_. replace (size A + 1 - 1)%Z with (size A) by lia.
  replace (0 <=? size A)%Z with true
    by (symmetry; apply Z.leb_le; unfold size; lia).
  rewrite to_nat_size, get_app_exact. cbn [bind].
  unfold emit, set_cursor.
  cbn [line cursor_pos history_index current_line_backup lst screen].
  now rewrite HL.
Qed.

Lemma char_byte_graphic (ch : Z) (B : string) :
  (32 <= ch <= 126)%Z -> graphic B = true ->
  graphic (String (char_byte ch) B) = true.
Proof.
  intros R G. cbn [graphic]. rewrite G, andb_true_r.
  unfold char_byte. rewrite Z.mod_small by lia.
  unfold nat_of_ascii. rewrite N_ascii_embedding by lia.
  apply andb_true_iff; split; apply Nat.leb_le; lia.
Qed.

Lemma mirrors_keep (d : display) (st : state) :
  mirrors d st ->
  exists evs, screen st = (screen st ++ evs)%list /\ mirrors (render d evs) st.
Proof. intros M. exists []. now rewrite List.app_nil_r. Qed.

Ltac open_mirror M d :=
  destruct M as (C & GL & GB & COL & pad & ROW & PAD);
  destruct d as [row col]; cbn [cells column] in *; unfold cursor_ok in C.

Lemma insert_char_mirrors (d : display) (ch : Z) (st st1 : state) :
  (32 <= ch <= 126)%Z -> mirrors d st -> insert_char ch st = Some st1 ->
  exists evs, screen st1 = (screen st ++ evs)%list /\ mirrors (render d evs) st1.
Proof.
  intros R M E. open_mirror M d.
  destruct (split_at (line st) col) as (A & B & HL & LA).
  { unfold size in C. lia. }
  assert (HC : cursor_pos st = size A) by (unfold size; lia).
  rewrite (insert_char_at A B ch st HL HC) in E.
  inversion E; subst st1; clear E.
  eexists. split; [reflexivity|].
  rewrite HL in *. rewrite graphic_app in GL.
  apply andb_true_iff in GL. destruct GL as [GA GT].
  pose proof (char_byte_graphic ch B R GT) as GC.
  subst row col.
  unfold mirrors, cursor_ok, shows.
  cbn [line cursor_pos current_line_backup].
  rewrite render_cons, render_write, render_backspaces.
  2: exact GC.
  2:{ rewrite List.length_app, chars_length, length_append. lia. }
  cbn [cells column].
  rewrite chars_app, <- List.app_assoc.
  rewrite firstn_app_exact by (rewrite chars_length; lia).
  rewrite (List.app_assoc (list_ascii_of_string A) (list_ascii_of_string B) pad).
  rewrite (skipn_app_more _ _ _ 1)
    by (rewrite List.length_app, !chars_length; cbn [String.length]; lia).
  repeat split.
  - unfold size; lia.
  - rewrite size_app. unfold size. cbn [String.length]. lia.
  - rewrite graphic_app, GA, GC. reflexivity.
  - exact GB.
  - cbn [String.length]. unfold size. lia.
  - exists (skipn 1 pad). split.
    + rewrite chars_app, <- !List.app_assoc. reflexivity.
    + now apply Forall_blank_skipn.
Qed.

Lemma erase_mirrors (A : string) (x : ascii) (B : string) (pad : list ascii)
      (backup : string) (index ch : Z) (evs : list term_event) :
  graphic (A ++ String x B) = true -> graphic backup = true ->
  Forall (fun c => c = " "%char) pad ->
  mirrors
    (mkDisplay (list_ascii_of_string A ++ list_ascii_of_string B
                ++ " "%char :: pad)%list (String.length A))
    (mkState (A ++ B) (size A) index backup ch evs).
Proof.
  intros GL GB PAD. rewrite graphic_app in GL.
  apply andb_true_iff in GL. destruct GL as [GA GT].
  apply graphic_cons in GT. destruct GT as [_ GT].
  unfold mirrors, cursor_ok, shows.
  cbn [line cursor_pos current_line_backup cells column].
  repeat split.
  - unfold size; lia.
  - rewrite size_app. unfold size. lia.
  - rewrite graphic_app, GA, GT. reflexivity.
  - exact GB.
  - exists (" "%char :: pad). split.
    + rewrite chars_app, <- !List.app_assoc. reflexivity.
    + constructor; auto.
Qed.

Lemma delete_mirrors (d : display) (st st1 : state) :
  mirrors d st -> delete st = Some st1 ->
  exists evs, screen st1 = (screen st ++ evs)%list /\ mirrors (render d evs) st1.
Proof.
  intros M E.
  destruct (negb (empty (line st)) && (cursor_pos st <? size (line st))%Z)
    eqn:Guard.
  2:{ unfold delete in E. rewrite Guard in E. inversion E; subst.
      now apply mirrors_keep. }
  apply andb_true_iff in Guard. destruct Guard as [_ P].
  apply Z.ltb_lt in P.
  open_mirror M d.
  destruct (split_char (line st) col) as (A & x & B & HL & LA).
  { unfold size in P. lia. }
  assert (HC : cursor_pos st = size A) by (unfold size; lia).
  rewrite (delete_at A x B st HL HC) in E.
  inversion E; subst st1; clear E.
  eexists. split; [reflexivity|].
  rewrite HL in *. subst row col.
  rewrite chars_app, <- List.app_assoc. cbn [list_ascii_of_string app].
  pose proof GL as GT. rewrite graphic_app in GT.
  apply andb_true_iff in GT. destruct GT as [_ GT].
  apply graphic_cons in GT. destruct GT as [_ GT].
  rewrite redraw_tail by exact GT.
  now apply erase_mirrors with (x := x).
Qed.

Lemma backspace_mirrors (d : display) (st st1 : state) :
  mirrors d st -> backspace st = Some st1 ->
  exists evs, screen st1 = (screen st ++ evs)%list /\ mirrors (render d evs) st1.
Proof.
  intros M E.
  destruct (negb (empty (line st)) && (0 <? cursor_pos st)%Z) eqn:Guard.
  2:{ unfold backspace in E. rewrite Guard in E. inversion E; subst.
      now apply mirrors_keep. }
  apply andb_true_iff in Guard. destruct Guard as [_ P].
  apply Z.ltb_lt in P.
  open_mirror M d.
  destruct (split_char (line st) (col - 1)) as (A & x & B & HL & LA).
  { unfold size in C. lia. }
  assert (HC : cursor_pos st = (size A + 1)%Z) by (unfold size; lia).
  rewrite (backspace_at A x B st HL HC) in E.
  inversion E; subst st1; clear E.
  eexists. split; [reflexivity|].
  rewrite HL in *. subst row.
  rewrite chars_app, <- List.app_assoc. cbn [list_ascii_of_string app].
  pose proof GL as GT. rewrite graphic_app in GT.
  apply andb_true_iff in GT. destruct GT as [_ GT].
  apply graphic_cons in GT. destruct GT as [_ GT].
  rewrite render_cons.
  change (render (mkDisplay ?r col) [Write BS])
    with (render (mkDisplay r col) (repeat (Write BS) 1)).
  rewrite render_backspaces.
  replace (col - 1) with (String.length A) by lia.
  rewrite redraw_tail by exact GT.
  now apply erase_mirrors with (x := x).
Qed.

Lemma left_mirrors (d : display) (st st1 : state) :
  mirrors d st -> left st = Some st1 ->
  exists evs, screen st1 = (screen st ++ evs)%list /\ mirrors (render d evs) st1.
Proof.
  intros M E. unfold left in E.
  destruct (0 <? cursor_pos st)%Z eqn:P.
  2:{ inversion E; subst. now apply mirrors_keep. }
  apply Z.ltb_lt in P. inversion E; subst st1; clear E.
  exists (repeat (Write BS) 1). split; [reflexivity|].
  open_mirror M d. rewrite render_backspaces.
  unfold mirrors, cursor_ok, shows, emit, set_cursor.
  cbn [line cursor_pos current_line_backup cells column].
  repeat split; try assumption; try lia.
  exists pad. auto.
Qed.

Lemma right_mirrors (d : display) (st st1 : state) :
  mirrors d st -> right st = Some st1 ->
  exists evs, screen st1 = (screen st ++ evs)%list /\ mirrors (render d evs) st1.
Proof.
  intros M E.
  destruct (cursor_pos st <? size (line st))%Z eqn:P.
  2:{ unfold right in E. rewrite P in E. inversion E; subst.
      now apply mirrors_keep. }
  apply Z.ltb_lt in P.
  open_mirror M d.
  destruct (split_char (line st) col) as (A & x & B & HL & LA).
  { unfold size in P. lia. }
  assert (HC : cursor_pos st = size A) by (unfold size; lia).
  rewrite (right_at A x B st HL HC) in E.
  inversion E; subst st1; clear E.
  eexists. split; [reflexivity|].
  unfold mirrors, cursor_ok, shows.
  cbn [line cursor_pos current_line_backup].
  rewrite HL in *. subst row col.
  pose proof GL as GT. rewrite graphic_app in GT.
  apply andb_true_iff in GT. destruct GT as [_ GT].
  assert (GX : graphic (String x EmptyString) = true).
  { cbn [graphic] in GT |- *. apply andb_true_iff in GT.
    destruct GT as [GT _]. now rewrite GT. }
  rewrite render_write.
  2: exact GX.
  2:{ rewrite List.length_app, chars_length, length_append. lia. }
  cbn [cells column].
  rewrite chars_app, <- List.app_assoc.
  rewrite firstn_app_exact by (rewrite chars_length; lia).
  rewrite (skipn_app_more _ _ _ 1)
    by (rewrite chars_length; cbn [String.length]; lia).
  cbn [list_ascii_of_string app skipn String.length].
  repeat split; try assumption.
  - unfold size; lia.
  - rewrite size_app. unfold size. cbn [String.length]. lia.
  - unfold size. lia.
  - exists pad. split; [|exact PAD].
    rewrite <- List.app_assoc. reflexivity.
Qed.

Lemma recall_mirrors (d : display) (st : state) (item backup : string)
      (index : Z) :
  mirrors d st -> graphic item = true -> graphic backup = true ->
  mirrors
    (render d (repeat (Write BS) (Z.to_nat (cursor_pos st))
               ++ repeat (Write " ") (String.length (line st))
               ++ repeat (Write BS) (String.length (line st))
               ++ [Write item]))
    (mkState item (size item) index backup (lst st)
       (screen st
        ++ repeat (Write BS) (Z.to_nat (cursor_pos st))
        ++ repeat (Write " ") (String.length (line st))
        ++ repeat (Write BS) (String.length (line st))
        ++ [Write item])%list).
Proof.
  intros M GI GK. open_mirror M d. subst row.
  replace (Z.to_nat (cursor_pos st)) with col by lia.
  rewrite redraw_line by (try exact GI; unfold size in C; lia).
  unfold mirrors, cursor_ok, shows.
  cbn [line cursor_pos current_line_backup cells column].
  repeat split; try assumption.
  - unfold size; lia.
  - lia.
  - eexists. split; [reflexivity|].
    apply Forall_blank_skipn. apply Forall_app. split; [|exact PAD].
    apply Forall_blank_repeat.
Qed.

Lemma vec_at_In (v : list string) (i : Z) (x : string) :
  vec_at v i = Some x -> In x v.
Proof.
  unfold vec_at. destruct (0 <=? i)%Z; [|discriminate].
  apply nth_error_In.
Qed.

Lemma graphic_In (history : list string) (x : string) :
  forallb graphic history = true -> In x history -> graphic x = true.
Proof. intros H I. rewrite forallb_forall in H. now apply H. Qed.

Lemma up_mirrors (d : display) (history : list string) (st st1 : state) :
  forallb graphic history = true ->
  mirrors d st -> up history st = Some st1 ->
  exists evs, screen st1 = (screen st ++ evs)%list /\ mirrors (render d evs) st1.
Proof.
  intros GH M E. unfold up in E.
  destruct history as [|h0 hs] eqn:HH.
  { inversion E; subst. now apply mirrors_keep. }
  rewrite <- HH in *. clear HH h0 hs.
  pose proof M as (_ & GL & GB & _).
  destruct (history_index st =? -1)%Z;
    [|destruct (0 <? history_index st)%Z];
    cbv beta iota zeta in E;
    match type of E with
    | (bind (vec_at ?h ?i) _ = _) =>
        destruct (vec_at h i) as [item|] eqn:V; [|discriminate]
    end;
    cbn [bind] in E; inversion E; subst st1; clear E;
    (eexists; split; [reflexivity|]);
    apply recall_mirrors; auto;
    eapply graphic_In; eauto using vec_at_In.
Qed.

Lemma down_mirrors (d : display) (history : list string) (st st1 : state) :
  forallb graphic history = true ->
  mirrors d st -> down history st = Some st1 ->
  exists evs, screen st1 = (screen st ++ evs)%list /\ mirrors (render d evs) st1.
Proof.
  intros GH M E. unfold down in E.
  destruct (negb (history_index st =? -1)%Z).
  2:{ inversion E; subst. now apply mirrors_keep. }
  pose proof M as (_ & GL & GB & _).
  destruct (history_index st <? Z.of_nat (List.length history) - 1)%Z.
  - destruct (vec_at history (history_index st + 1)) as [item|] eqn:V;
      [|discriminate].
    cbn [bind] in E. cbv beta iota zeta in E.
    inversion E; subst st1; clear E.
    eexists; split; [reflexivity|].
    apply recall_mirrors; auto.
    eapply graphic_In; eauto using vec_at_In.
  - cbn [bind] in E. cbv beta iota zeta in E.
    inversion E; subst st1; clear E.
    eexists; split; [reflexivity|].
    apply recall_mirrors; auto.
Qed.

(** One pass of the loop on a key other than Tab keeps the display in
    step, and hands on a tail of the keys. *)
Lemma readline_body_mirrors cwd history (d : display) (st : state)
      (input : list Z) (st' : state) (rest : list Z) :
  forallb graphic history = true ->
  mirrors d st ->
  Forall (fun k => to_char k <> 9%Z) input ->
  readline_body cwd history st input = Next st' rest ->
  (exists evs,
      screen st' = (screen st ++ evs)%list /\ mirrors (render d evs) st')
  /\ Forall (fun k => to_char k <> 9%Z) rest.
Proof.
  intros GH M NT. unfold readline_body.
  destruct input as [|k input]; [discriminate|].
  inversion NT as [|? ? K NT']; subst.
  destruct (to_char k =? 13)%Z; [discriminate|].
  destruct ((to_char k =? 8)%Z || (to_char k =? 127)%Z).
  { intros E. apply continue_next in E. destruct E as (s1 & E & -> & ->).
    split; [|exact NT']. exact (backspace_mirrors d st s1 M E). }
  destruct (to_char k =? 9)%Z eqn:T; [apply Z.eqb_eq in T; contradiction|].
  destruct ((to_char k =? -32)%Z || (to_char k =? 224)%Z).
  { destruct input as [|k2 input]; [discriminate|].
    inversion NT' as [|? ? K2 NT2]; subst.
    intros E. apply continue_next in E. destruct E as (s1 & E & -> & ->).
    split; [|exact NT2].
    destruct (to_char k2 =? 72)%Z; [exact (up_mirrors d history st s1 GH M E)|].
    destruct (to_char k2 =? 80)%Z;
      [exact (down_mirrors d history st s1 GH M E)|].
    destruct (to_char k2 =? 75)%Z; [exact (left_mirrors d st s1 M E)|].
    destruct (to_char k2 =? 77)%Z; [exact (right_mirrors d st s1 M E)|].
    destruct (to_char k2 =? 83)%Z; [exact (delete_mirrors d st s1 M E)|].
    inversion E; subst. exact (mirrors_keep d s1 M). }
  destruct ((32 <=? to_char k)%Z && (to_char k <=? 126)%Z) eqn:R.
  { intros E. apply continue_next in E. destruct E as (s1 & E & -> & ->).
    split; [|exact NT'].
    apply andb_true_iff in R. destruct R as [R1 R2].
    apply Z.leb_le in R1, R2.
    exact (insert_char_mirrors d (to_char k) st s1 (conj R1 R2) M E). }
  destruct (to_char k =? 4)%Z; [discriminate|].
  intros E. apply continue_next in E. destruct E as (s1 & E & -> & ->).
  split; [|exact NT']. inversion E; subst. exact (mirrors_keep d s1 M).
Qed.

Lemma readline_body_waiting cwd history (st : state) (input : list Z)
      (st' : state) :
  readline_body cwd history st input = Waiting st' -> st' = st.
Proof.
  unfold readline_body. destruct input as [|k input].
  { intros E. now inversion E. }
  destruct (to_char k =? 13)%Z; [discriminate|].
  destruct ((to_char k =? 8)%Z || (to_char k =? 127)%Z).
  { destruct (backspace st); discriminate. }
  destruct (to_char k =? 9)%Z.
  { destruct (tab cwd st); discriminate. }
  destruct ((to_char k =? -32)%Z || (to_char k =? 224)%Z).
  { destruct input as [|k2 input]; [intros E; now inversion E|].
    match goal with
    | |- continue ?r _ _ = _ -> _ => destruct r; discriminate
    end. }
  destruct ((32 <=? to_char k)%Z && (to_char k <=? 126)%Z).
  { destruct (insert_char (to_char k) st); discriminate. }
  destruct (to_char k =? 4)%Z; discriminate.
Qed.

Lemma readline_loop_mirrors cwd history (d0 : display) (fuel : nat) :
  forall (st : state) (input : list Z) (st' : state),
    forallb graphic history = true ->
    Forall (fun k => to_char k <> 9%Z) input ->
    mirrors (render d0 (screen st)) st ->
    readline_loop fuel cwd history st input = Waiting st' ->
    mirrors (render d0 (screen st')) st'.
Proof.
  induction fuel as [|fuel IH]; intros st input st' GH NT M;
    cbn [readline_loop]; [discriminate|].
  destruct (readline_body cwd history st input) as [s1 rest|r s1|c|s1|] eqn:B;
    try discriminate.
  - destruct (readline_body_mirrors _ _ _ _ _ _ _ GH M NT B)
      as ((evs & S1 & M1) & NT1).
    apply IH; auto. rewrite S1, render_app. exact M1.
  - intros E. inversion E; subst s1.
    apply readline_body_waiting in B. now subst.
Qed.

End ScreenFacts.

(** X27. As long as Tab is not pressed and the history holds graphic text,
    the terminal line is in step with the editor whenever [readline] waits
    for the next key: replaying everything [readline] has written on an
    empty line gives the buffer, followed at most by blanks, with the
    terminal's cursor at [cursor_pos]. *)
Theorem screen_shows_buffer cwd (history : list string) (lst0 : Z)
        (input : list Z) (st' : Editor.state) :
  forallb Terminal.graphic history = true ->
  Forall (fun k => Editor.to_char k <> 9%Z) input ->
  Editor.readline cwd history lst0 input = Editor.Waiting st' ->
  Terminal.shows (Terminal.render (Terminal.mkDisplay [] 0) (Editor.screen st'))
                 (Editor.line st') (Editor.cursor_pos st').
Proof.
  intros GH NT E. unfold Editor.readline in E.
  eapply (readline_loop_mirrors cwd history (Terminal.mkDisplay [] 0)) in E;
    try eassumption.
  - apply E.
  - unfold Terminal.mirrors, Props.cursor_ok, Terminal.shows. cbn.
    repeat split; try lia. exists []. auto.
Qed.

(** Typing "cat", moving one column back, typing "r", rubbing it out,
    recalling the last entry, leaving it again and deleting the "t". *)
Lemma screen_shows_buffer_witness :
  exists st',
    Editor.readline None ["ls"; "echo hi"] 0
      [99; 97; 116; 224; 75; 114; 8; 224; 72; 224; 80; 224; 75; 224; 83]%Z
    = Editor.Waiting st'
    /\ Editor.line st' = "ca"
    /\ Terminal.shows
         (Terminal.render (Terminal.mkDisplay [] 0) (Editor.screen st'))
         (Editor.line st') (Editor.cursor_pos st').
Proof.
  eexists. split; [vm_compute; reflexivity|]. split; [reflexivity|].
  apply (screen_shows_buffer None ["ls"; "echo hi"] 0
           [99; 97; 116; 224; 75; 114; 8; 224; 72; 224; 80; 224; 75; 224; 83]%Z).
  - reflexivity.
  - repeat constructor; vm_compute; discriminate.
  - vm_compute. reflexivity.
Defined.

(** X28. [exit] is a built-in that only acts when the trimmed line is
    exactly "exit 0": then the shell quits, after the line has been
    saved.  Any other line whose command word is [exit] is saved to the
    history and otherwise does nothing: it prints nothing and does not
    quit. *)
Theorem exit_quits_only_with_status_0 (w : Builtins.world)
        (history : list string) (raw : string) :
  Shell.command_of (Shell.trim raw) = "exit" ->
  Builtins.main_body w history raw
  = if String.eqb (Shell.trim raw) "exit 0"
    then Builtins.Quit (history ++ [Shell.trim raw])%list
                       (Builtins.add_history w (Shell.trim raw))
    else Builtins.Ran (history ++ [Shell.trim raw])%list
                      (Builtins.add_history w (Shell.trim raw)).
Proof.
  intros H. unfold Builtins.main_body.
  destruct (Shell.trim raw) as [|a rest] eqn:E; [discriminate H|].
  cbn [Str.empty]. rewrite H. cbn [Str.empty].
  destruct (String.eqb (String a rest) "exit 0"); [reflexivity|].
  replace (Builtins.dispatch w (history ++ [String a rest])%list "exit"
             (String a rest)) with (Some (@nil Builtins.effect))
    by reflexivity.
  now rewrite List.app_nil_r.
Qed.

Lemma exit_quits_only_with_status_0_witness :
  Builtins.main_body
    (Builtins.mkWorld (fun _ => None) (fun _ => None) (fun _ => true)
                      (fun _ => false) None None "")
    ["pwd"] " exit 1 "
  = Builtins.Ran ["pwd"; "exit 1"]
                 [Builtins.Append "history.txt" ("exit 1" ++ Builtins.NL)].
Proof.
  apply (exit_quits_only_with_status_0
           (Builtins.mkWorld (fun _ => None) (fun _ => None) (fun _ => true)
                             (fun _ => false) None None "")
           ["pwd"] " exit 1 ").
  reflexivity.
Defined.

(** ** The loop of [main] *)

Section SessionFacts.

Import Str Text Completion Shell Builtins Notions.

(** How a pass of the loop ends, by the line it was given. *)
Lemma main_body_cases (w : world) (history : list string) (raw : string) :
  match main_body w history raw with
  | Skipped => trim raw = ""
  | Quit h _ =>
      h = (history ++ [trim raw])%list /\ trim raw = "exit 0"
  | Ran h _ =>
      h = (history ++ [trim raw])%list /\ empty (trim raw) = false
      /\ ends_session raw = false
  | Threw h _ =>
      h = (history ++ [trim raw])%list
      /\ (trim raw = "type" \/ trim raw = "cat")
  end.
Proof.
  unfold main_body, ends_session.
  destruct (trim_head raw) as [E|(a & rest & E & M)].
  { rewrite E. reflexivity. }
  rewrite E. cbn [empty]. rewrite (command_of_nonempty a rest M).
  destruct (String.eqb_spec (String a rest) "exit 0") as [X|X].
  { split; [reflexivity | exact X]. }
  pose proof (dispatch_throws w (history ++ [String a rest])%list
                (String a rest)) as D.
  destruct (dispatch w _ _ (String a rest)) as [effects|].
  - split; [reflexivity|]. split; [reflexivity|]. cbn [orb].
    destruct (String.eqb_spec (String a rest) "type") as [Y|_].
    { assert (N : Some effects = None) by (apply D; now left).
      discriminate N. }
    destruct (String.eqb_spec (String a rest) "cat") as [Y|_];
      [|reflexivity].
    assert (N : Some effects = None) by (apply D; now right).
    discriminate N.
  - split; [reflexivity|]. now apply D.
Qed.

Lemma ends_session_blank (raw : string) :
  trim raw = "" -> ends_session raw = false.
Proof. unfold ends_session. now intros ->. Qed.

Lemma Forall_removelast_cons {A : Type} (P : A -> Prop) (x : A) (l : list A) :
  P x -> Forall P (removelast l) -> Forall P (removelast (x :: l)).
Proof.
  intros X H. destruct l as [|y l]; [constructor|].
  change (removelast (x :: y :: l)) with (x :: removelast (y :: l)).
  now constructor.
Qed.

(** The store at the end of the loop, and where the loop stopped. *)
Lemma main_loop_store (lines : list (world * string)) :
  forall (history : list string) (so_far : list effect),
  exists read,
    lines = (read ++ unread (main_loop history so_far lines))%list
    /\ store (main_loop history so_far lines)
       = (history
          ++ filter (fun l => negb (empty l))
               (map (fun l => trim (snd l)) read))%list
    /\ Forall (fun l => ends_session (snd l) = false) (removelast read)
    /\ match how (main_loop history so_far lines) with
       | Reading =>
           unread (main_loop history so_far lines) = []
           /\ Forall (fun l => ends_session (snd l) = false) read
       | Left0 =>
           exists front l,
             read = (front ++ [l])%list /\ trim (snd l) = "exit 0"
       | Aborted =>
           exists front l,
             read = (front ++ [l])%list
             /\ (trim (snd l) = "type" \/ trim (snd l) = "cat")
       end.
Proof.
  induction lines as [|[w raw] rest IH]; intros history so_far.
  { exists []. cbn. rewrite List.app_nil_r. repeat split; constructor. }
  cbn [main_loop]. pose proof (main_body_cases w history raw) as B.
  destruct (main_body w history raw) as [|h e|h e|h e].
  - destruct (IH history (so_far ++ [Stdout "$ "])%list)
      as (read & L & S & F & H).
    exists ((w, raw) :: read).
    pose proof (ends_session_blank raw B) as N.
    destruct (main_loop history (so_far ++ [Stdout "$ "]) rest)
      as [st hw dn un].
    cbn [store how unread] in *.
    split; [cbn [app]; now rewrite <- L|].
    split; [cbn [map filter snd]; rewrite B; exact S|].
    split; [now apply Forall_removelast_cons|].
    destruct hw.
    + destruct H as [U A]. split; [exact U | now constructor].
    + destruct H as (front & l & -> & X). exists ((w, raw) :: front), l.
      split; [reflexivity | exact X].
    + destruct H as (front & l & -> & X). exists ((w, raw) :: front), l.
      split; [reflexivity | exact X].
  - destruct B as (-> & X). exists [(w, raw)].
    cbn [store how unread app map filter snd removelast].
    rewrite X. cbn [empty negb].
    repeat split; try constructor.
    exists [], (w, raw). split; [reflexivity | exact X].
  - destruct B as (-> & E & N).
    destruct (IH (history ++ [trim raw])%list
                 ((so_far ++ [Stdout "$ "]) ++ e)%list)
      as (read & L & S & F & H).
    exists ((w, raw) :: read).
    destruct (main_loop (history ++ [trim raw])
                        ((so_far ++ [Stdout "$ "]) ++ e) rest)
      as [st hw dn un].
    cbn [store how unread] in *.
    split; [cbn [app]; now rewrite <- L|].
    split.
    { cbn [map filter snd]. rewrite E. cbn [negb].
      rewrite S, <- List.app_assoc. reflexivity. }
    split; [now apply Forall_removelast_cons|].
    destruct hw.
    + destruct H as [U A]. split; [exact U | now constructor].
    + destruct H as (front & l & -> & X). exists ((w, raw) :: front), l.
      split; [reflexivity | exact X].
    + destruct H as (front & l & -> & X). exists ((w, raw) :: front), l.
      split; [reflexivity | exact X].
  - destruct B as (-> & X). exists [(w, raw)].
    cbn [store how unread app map filter snd removelast].
    assert (E : empty (trim raw) = false) by (destruct X as [-> | ->]; reflexivity).
    rewrite E. cbn [negb].
    repeat split; try constructor.
    exists [], (w, raw). split; [reflexivity | exact X].
Qed.

(** The bare command [type] ends the session: the line is stored and
    saved, the exception leaves [main], and [ls] is never read. *)
Example scenario_bare_type_ends_session :
  let w := mkWorld (fun _ => None) (fun _ => None) (fun _ => true)
                   (fun _ => false) None None "" in
  main None [(w, "type"); (w, "ls")]
  = mkSession ["type"] Aborted
      [Stdout "$ "; Append "history.txt" ("type" ++ NL)] [(w, "ls")].
Proof. reflexivity. Qed.

End SessionFacts.

(** C9, as stated, fails: the two lines [" ls"] and [" "] handed to
    [main] are both non-empty, yet the store receives the single entry
    ["ls"]: the first line is stored without its leading blank and the
    second, blank after trimming, is not stored. *)
Lemma blank_lines_counterexample :
  Builtins.store
    (Builtins.main None
       [(Builtins.mkWorld (fun _ => None) (fun _ => None) (fun _ => true)
                          (fun _ => false) None None "", " ls");
        (Builtins.mkWorld (fun _ => None) (fun _ => None) (fun _ => true)
                          (fun _ => false) None None "", " ")])
  = ["ls"]
  /\ (Shell.get_history None
      ++ filter (fun l => negb (Str.empty l)) [" ls"; " "])%list
     = [" ls"; " "]
  /\ ["ls"] <> [" ls"; " "].
Proof. split; [reflexivity|]. split; [reflexivity | discriminate]. Qed.

(** C9, amended. The in-memory history is the non-empty lines loaded from
    the history file at start, followed by the lines [main] has read,
    stripped of their leading and trailing spaces and tabs, leaving out
    those that are empty once stripped, in the order read: each such line
    is appended once, at the end, and nothing is removed, merged or
    reordered.  [main] reads the lines it is given up to and including
    the first that is [exit 0], which makes it exit, or the bare command
    [type] or [cat], which makes it throw; that line is still appended,
    the lines after it are never read. *)
Theorem history_store_is_append_only
        (file : option (list string))
        (lines : list (Builtins.world * string)) :
  exists read,
    lines = (read ++ Builtins.unread (Builtins.main file lines))%list
    /\ Builtins.store (Builtins.main file lines)
       = (Shell.get_history file
          ++ filter (fun l => negb (Str.empty l))
               (map (fun l => Shell.trim (snd l)) read))%list
    /\ Forall (fun l => Notions.ends_session (snd l) = false)
              (removelast read)
    /\ match Builtins.how (Builtins.main file lines) with
       | Builtins.Reading =>
           Builtins.unread (Builtins.main file lines) = []
           /\ Forall (fun l => Notions.ends_session (snd l) = false) read
       | Builtins.Left0 =>
           exists front l,
             read = (front ++ [l])%list /\ Shell.trim (snd l) = "exit 0"
       | Builtins.Aborted =>
           exists front l,
             read = (front ++ [l])%list
             /\ (Shell.trim (snd l) = "type" \/ Shell.trim (snd l) = "cat")
       end
    /\ Shell.get_history file =
       match file with
       | Some stored => filter (fun l => negb (Str.empty l)) stored
       | None => []
       end.
Proof.
  unfold Builtins.main.
  destruct (main_loop_store lines (Shell.get_history file) [])
    as (read & L & S & F & H).
  exists read. repeat split; assumption || reflexivity.
Qed.
